(** * ZeBadge serial firmware ([zehardware/code.py]): a shallow embedding

    The firmware is a single CircuitPython script: a cooperative loop that
    reads one command per tick from the serial link, decodes it, dispatches
    it to a handler and refreshes the e-ink display on a fixed cadence.

    Python values are modelled as follows.
    - [str] is a list of Unicode code points ([list Z]); [len], slicing,
      [split], [replace], [strip] and [startswith] work on code points.
    - [bytes] is a list of integers in [0, 256).
    - Python integers are unbounded, hence [Z].
    - Exceptions are values carried by an outcome type; module globals are
      fields of an explicit state record threaded through a small
      state-and-exception monad.

    The first part of the file is the embedding, the second part the
    theorems about it. *)

From Stdlib Require Import ZArith String Ascii Lia Bool QArith.
From stdpp Require Import base list gmap.

Local Open Scope Z_scope.

(** * Part I: the embedding *)

(** ** Python strings and sequences *)

Module PyStr.

(** A Python [str]: the sequence of its code points. *)
Definition pystr : Type := list Z.

(** Python [bytes]. *)
Definition pybytes : Type := list Z.

(** An ASCII literal of the source as a [pystr]. *)
Definition py (s : string) : pystr :=
  map (fun a => Z.of_N (N_of_ascii a)) (list_ascii_of_string s).

(** [len(s)] *)
Definition len {A : Type} (l : list A) : Z := Z.of_nat (length l).

(** The position a slice bound [i] denotes in a sequence of length
    [len l]: negative bounds count from the end, and every bound is
    clamped to the sequence. *)
Definition slice_bound {A : Type} (l : list A) (i : Z) : nat :=
  Z.to_nat (if i <? 0 then Z.max 0 (len l + i) else Z.min i (len l)).

(** [l[:i]] *)
Definition slice_to {A : Type} (l : list A) (i : Z) : list A :=
  take (slice_bound l i) l.

(** [l[i:]] *)
Definition slice_from {A : Type} (l : list A) (i : Z) : list A :=
  drop (slice_bound l i) l.

(** [s.startswith(p)] is [is_prefix p s]. *)
Fixpoint is_prefix (p s : pystr) : bool :=
  match p, s with
  | [], _ => true
  | _ :: _, [] => false
  | a :: p', b :: s' => (a =? b) && is_prefix p' s'
  end.

Definition startswith (s p : pystr) : bool := is_prefix p s.

(** [s.replace(old, new)] scans [s] from the left; wherever [old] occurs
    it emits [new] and resumes after the occurrence.  [skip] counts the
    characters of the current occurrence that are still to be passed. *)
Fixpoint replace_go (old new : pystr) (skip : nat) (s : pystr) : pystr :=
  match s with
  | [] => []
  | c :: s' =>
      match skip with
      | S k => replace_go old new k s'
      | O =>
          if is_prefix old s
          then new ++ replace_go old new (length old - 1) s'
          else c :: replace_go old new 0 s'
      end
  end.

Definition replace (s old new : pystr) : pystr :=
  match old with
  | [] => new ++ flat_map (fun c => c :: new) s
  | _ :: _ => replace_go old new 0 s
  end.

(** [s.split(sep)] for a separator of one character, as in [split(":")]
    and [split("-")]. *)
Fixpoint split (sep : Z) (s : pystr) : list pystr :=
  match s with
  | [] => [[]]
  | c :: s' =>
      if c =? sep then [] :: split sep s'
      else match split sep s' with
           | p :: ps => (c :: p) :: ps
           | [] => [[c]]
           end
  end.

(** Whitespace as CircuitPython's [str.strip()] and the regular
    expression class [\s] see it: space, tab, line feed, vertical tab,
    form feed, carriage return. *)
Definition isspace (c : Z) : bool :=
  (c =? 32) || ((9 <=? c) && (c <=? 13)).

Fixpoint lstrip (s : pystr) : pystr :=
  match s with
  | [] => []
  | c :: s' => if isspace c then lstrip s' else s
  end.

Definition rstrip (s : pystr) : pystr := rev (lstrip (rev s)).

(** [s.strip()] *)
Definition strip (s : pystr) : pystr := rstrip (lstrip s).

(** [sep.join(parts)] *)
Fixpoint join (sep : pystr) (parts : list pystr) : pystr :=
  match parts with
  | [] => []
  | [p] => p
  | p :: ps => p ++ sep ++ join sep ps
  end.

(** [re.sub(r'\s', " ", s)] *)
Definition sub_space (s : pystr) : pystr :=
  map (fun c => if isspace c then 32 else c) s.

(** Equality of strings, [==]. *)
Fixpoint str_eqb (a b : pystr) : bool :=
  match a, b with
  | [], [] => true
  | x :: a', y :: b' => (x =? y) && str_eqb a' b'
  | _, _ => false
  end.

(** [x in l] for a list of strings. *)
Definition str_in (x : pystr) (l : list pystr) : bool :=
  existsb (str_eqb x) l.

(** Decimal digits of a non-negative integer, [str(n)].  [fuel] bounds
    the number of digits. *)
Fixpoint digits_go (fuel : nat) (n : Z) (acc : pystr) : pystr :=
  match fuel with
  | O => acc
  | S f =>
      let acc' := (48 + n mod 10) :: acc in
      if n / 10 =? 0 then acc' else digits_go f (n / 10) acc'
  end.

Definition str_of_nonneg (n : Z) : pystr :=
  digits_go (S (Z.to_nat (Z.log2 n))) n [].

(** ["{:0>2}".format(n)]: right-aligned in a field of two, padded with
    the character 0. *)
Definition format_02 (n : Z) : pystr :=
  let d := str_of_nonneg n in
  repeat 48 (2 - length d) ++ d.

End PyStr.
Export PyStr.

(** ** Exceptions and outcomes *)

(** The exception classes that occur.  [SystemExit] (raised by
    [sys.exit()]) and [ReloadException] (raised by [supervisor.reload()])
    derive from [BaseException] only; every other class derives from
    [Exception]. *)
Inductive exn_class : Type :=
| PlainException
| ValueError
| TypeError
| IndexError
| NameError
| UnicodeError
| OSError
| RuntimeError
| SystemExit
| ReloadException.

Record exn : Type := MkExn { exn_cls : exn_class; exn_msg : pystr }.

(** [isinstance(e, Exception)]: what [except Exception] catches. *)
Definition is_Exception (e : exn) : bool :=
  match exn_cls e with
  | SystemExit | ReloadException => false
  | _ => true
  end.

(** A computation either returns a value or raises. *)
Inductive outcome (A : Type) : Type :=
| Ok (a : A)
| Raise (e : exn).
Arguments Ok {A} a.
Arguments Raise {A} e.

Definition raise_ {A : Type} (c : exn_class) (msg : string) : outcome A :=
  Raise (MkExn c (py msg)).

Definition obind {A B : Type} (m : outcome A) (k : A -> outcome B) : outcome B :=
  match m with
  | Ok a => k a
  | Raise e => Raise e
  end.

Definition is_raise {A : Type} (m : outcome A) : bool :=
  match m with
  | Ok _ => false
  | Raise _ => true
  end.

(** ** UTF-8 ([str.encode("utf-8")] and [str(b, "utf-8")])

    The codec of the Unicode standard: scalar values only, shortest form
    only. *)

Module Utf8.

(** A Unicode scalar value: a code point that is not a surrogate. *)
Definition is_scalar (c : Z) : bool :=
  ((0 <=? c) && (c <? 55296)) || ((57344 <=? c) && (c <? 1114112)).

Definition encode_char (c : Z) : pybytes :=
  if c <? 128 then [c]
  else if c <? 2048 then [192 + c / 64; 128 + c mod 64]
  else if c <? 65536 then
    [224 + c / 4096; 128 + (c / 64) mod 64; 128 + c mod 64]
  else
    [240 + c / 262144; 128 + (c / 4096) mod 64;
     128 + (c / 64) mod 64; 128 + c mod 64].

(** [s.encode("utf-8")]; a surrogate cannot be encoded. *)
Fixpoint encode (s : pystr) : outcome pybytes :=
  match s with
  | [] => Ok []
  | c :: s' =>
      if is_scalar c
      then obind (encode s') (fun bs => Ok (encode_char c ++ bs))
      else raise_ UnicodeError "surrogates not allowed"
  end.

Definition is_cont (b : Z) : bool := (128 <=? b) && (b <=? 191).

Definition bad_utf8 {A : Type} : outcome A :=
  raise_ UnicodeError "invalid utf-8".

(** [str(b, "utf-8")] *)
Fixpoint decode (bs : pybytes) : outcome pystr :=
  match bs with
  | [] => Ok []
  | b0 :: r =>
      if (0 <=? b0) && (b0 <? 128) then
        obind (decode r) (fun s => Ok (b0 :: s))
      else if (194 <=? b0) && (b0 <=? 223) then
        match r with
        | b1 :: r1 =>
            if is_cont b1
            then obind (decode r1)
                   (fun s => Ok (((b0 - 192) * 64 + (b1 - 128)) :: s))
            else bad_utf8
        | _ => bad_utf8
        end
      else if (224 <=? b0) && (b0 <=? 239) then
        match r with
        | b1 :: b2 :: r2 =>
            let c := (b0 - 224) * 4096 + (b1 - 128) * 64 + (b2 - 128) in
            if is_cont b1 && is_cont b2 && (2048 <=? c) && is_scalar c
            then obind (decode r2) (fun s => Ok (c :: s))
            else bad_utf8
        | _ => bad_utf8
        end
      else if (240 <=? b0) && (b0 <=? 244) then
        match r with
        | b1 :: b2 :: b3 :: r3 =>
            let c := (b0 - 240) * 262144 + (b1 - 128) * 4096
                     + (b2 - 128) * 64 + (b3 - 128) in
            if is_cont b1 && is_cont b2 && is_cont b3
               && (65536 <=? c) && is_scalar c
            then obind (decode r3) (fun s => Ok (c :: s))
            else bad_utf8
        | _ => bad_utf8
        end
      else bad_utf8
  end.

End Utf8.

(** ** Base64 ([circuitpython_base64], on top of [binascii])

    The library is a dependency of the firmware, not part of it.  The
    encoder is the standard alphabet with [=] padding and no line breaks;
    the decoder is [binascii.a2b_base64]: it passes over every character
    outside the alphabet, gathers six bits per character and emits a byte
    whenever eight are available, stops at the padding that completes a
    group, and insists that no bits are left over at the end. *)

Module Base64.

(** The character for a six-bit value. *)
Definition b64char (i : Z) : Z :=
  if i <? 26 then 65 + i
  else if i <? 52 then 97 + (i - 26)
  else if i <? 62 then 48 + (i - 52)
  else if i =? 62 then 43
  else 47.

(** The six-bit value of a character of the alphabet. *)
Definition sextet (c : Z) : option Z :=
  if (65 <=? c) && (c <=? 90) then Some (c - 65)
  else if (97 <=? c) && (c <=? 122) then Some (c - 97 + 26)
  else if (48 <=? c) && (c <=? 57) then Some (c - 48 + 52)
  else if c =? 43 then Some 62
  else if c =? 47 then Some 63
  else None.

Definition pad : Z := 61.

(** [base64.b64encode(bs)] *)
Fixpoint b64encode (bs : pybytes) : pybytes :=
  match bs with
  | [] => []
  | [a] => [b64char (a / 4); b64char ((a mod 4) * 16); pad; pad]
  | [a; b] =>
      [b64char (a / 4); b64char ((a mod 4) * 16 + b / 16);
       b64char ((b mod 16) * 4); pad]
  | a :: b :: c :: r =>
      b64char (a / 4) :: b64char ((a mod 4) * 16 + b / 16)
      :: b64char ((b mod 16) * 4 + c / 64) :: b64char (c mod 64)
      :: b64encode r
  end.

(** The decoding loop.  [shift] holds the bits gathered and not yet
    emitted, [nbits] their number, [hadpad] whether a padding character
    was seen since the last character of the alphabet.  The result is the
    number of bits left over and the bytes emitted. *)
Fixpoint a2b_go (inp : pybytes) (shift nbits : Z) (hadpad : bool)
  : Z * pybytes :=
  match inp with
  | [] => (nbits, [])
  | c :: rest =>
      if (c =? pad) && ((nbits =? 2) || ((nbits =? 4) && hadpad))
      then (0, [])
      else
        let hadpad := (c =? pad) || hadpad in
        match sextet c with
        | None => a2b_go rest shift nbits hadpad
        | Some s =>
            let shift := shift * 64 + s in
            let nbits := nbits + 6 in
            if 8 <=? nbits then
              let nbits := nbits - 8 in
              let '(n, out) := a2b_go rest (shift mod 2 ^ nbits) nbits false in
              (n, shift / 2 ^ nbits :: out)
            else a2b_go rest shift nbits false
        end
  end.

(** [binascii.a2b_base64(inp)] *)
Definition a2b_base64 (inp : pybytes) : outcome pybytes :=
  let '(n, out) := a2b_go inp 0 0 false in
  if n =? 0 then Ok out else raise_ ValueError "incorrect padding".

(** [base64.decodebytes(b)] *)
Definition decodebytes (b : pybytes) : outcome pybytes := a2b_base64 b.

(** [base64.b64decode(s)] for a [str] argument: the text is turned into
    bytes first. *)
Definition b64decode (s : pystr) : outcome pybytes :=
  obind (Utf8.encode s) a2b_base64.

End Base64.

(** ** zlib ([zlib.decompress])

    The decompressor is part of the CircuitPython runtime, not of the
    firmware.  It is modelled after the runtime's inflate routine: a zlib
    header (RFC 1950), a sequence of DEFLATE blocks (RFC 1951) read bit by
    bit, least significant bit first, and the Adler-32 checksum of the
    output. *)

Module Zlib.

Definition bitstream : Type := list bool.

Definition bits_of_byte (b : Z) : bitstream :=
  map (fun i => Z.testbit b (Z.of_nat i)) (seq 0 8).

Definition bits_of_bytes (bs : pybytes) : bitstream :=
  flat_map bits_of_byte bs.

(** Result of a decoding step: a value, corrupt data, or recursion
    budget exhausted.  The budget handed out by [decompress] is never
    exhausted (lemma [decompress_budget] below). *)
Inductive res (A : Type) : Type :=
| Got (a : A)
| Corrupt
| Starved.
Arguments Got {A} a.
Arguments Corrupt {A}.
Arguments Starved {A}.

Definition rbind {A B : Type} (m : res A) (k : A -> res B) : res B :=
  match m with
  | Got a => k a
  | Corrupt => Corrupt
  | Starved => Starved
  end.

Notation "'let*' p ':=' m 'in' k" := (rbind m (fun p => k))
  (at level 10, p pattern, m at level 100, k at level 200).

(** Read [n] bits as a number, least significant bit first. *)
Fixpoint read_bits (n : nat) (bits : bitstream) : res (Z * bitstream) :=
  match n with
  | O => Got (0, bits)
  | S k =>
      match bits with
      | [] => Corrupt
      | b :: r =>
          let* (v, r') := read_bits k r in
          Got (Z.b2z b + 2 * v, r')
      end
  end.

(** Drop the rest of the current byte.  The stream always ends on a byte
    boundary, so the number of bits left tells the position. *)
Definition align (bits : bitstream) : bitstream :=
  drop (length bits mod 8)%nat bits.

(** A Huffman code: how many symbols have a code of length 1, 2, ... 15,
    and the symbols ordered by code. *)
Record tree : Type := MkTree { t_table : list Z; t_trans : list Z }.

Definition build_tree (lengths : list Z) : tree :=
  let syms := imap (fun i l => (Z.of_nat i, l)) lengths in
  let of_len (l : Z) := List.filter (fun p => snd p =? l) syms in
  let lens := map Z.of_nat (seq 1 15) in
  {| t_table := map (fun l => len (of_len l)) lens;
     t_trans := flat_map (fun l => map fst (of_len l)) lens |}.

Fixpoint decode_symbol_go (table trans : list Z) (sum cur : Z)
  (bits : bitstream) : res (Z * bitstream) :=
  match table with
  | [] => Corrupt
  | cnt :: table' =>
      match bits with
      | [] => Corrupt
      | b :: bits' =>
          let cur := 2 * cur + Z.b2z b - cnt in
          let sum := sum + cnt in
          if cur <? 0 then
            match trans !! Z.to_nat (sum + cur) with
            | Some sym => Got (sym, bits')
            | None => Corrupt
            end
          else decode_symbol_go table' trans sum cur bits'
      end
  end.

Definition decode_symbol (t : tree) (bits : bitstream) : res (Z * bitstream) :=
  decode_symbol_go (t_table t) (t_trans t) 0 0 bits.

Definition length_bits : list nat :=
  [0; 0; 0; 0; 0; 0; 0; 0; 1; 1; 1; 1; 2; 2; 2; 2; 3; 3; 3; 3; 4; 4; 4; 4;
   5; 5; 5; 5; 0]%nat.
Definition length_base : list Z :=
  [3; 4; 5; 6; 7; 8; 9; 10; 11; 13; 15; 17; 19; 23; 27; 31; 35; 43; 51; 59;
   67; 83; 99; 115; 131; 163; 195; 227; 258].
Definition dist_bits : list nat :=
  [0; 0; 0; 0; 1; 1; 2; 2; 3; 3; 4; 4; 5; 5; 6; 6; 7; 7; 8; 8; 9; 9; 10; 10;
   11; 11; 12; 12; 13; 13]%nat.
Definition dist_base : list Z :=
  [1; 2; 3; 4; 5; 7; 9; 13; 17; 25; 33; 49; 65; 97; 129; 193; 257; 385; 513;
   769; 1025; 1537; 2049; 3073; 4097; 6145; 8193; 12289; 16385; 24577].

(** Read the extra bits of entry [i] of a base table. *)
Definition read_extra (nbits : list nat) (base : list Z) (i : Z)
  (bits : bitstream) : res (Z * bitstream) :=
  match nbits !! Z.to_nat i, base !! Z.to_nat i with
  | Some n, Some b =>
      let* (v, bits') := read_bits n bits in Got (b + v, bits')
  | _, _ => Corrupt
  end.

(** Append [n] bytes, each a copy of the byte [offs] positions back.
    [out] is the output so far, newest byte first. *)
Fixpoint copy_back (n : nat) (offs : nat) (out : list Z) : list Z :=
  match n with
  | O => out
  | S k =>
      match out !! (offs - 1)%nat with
      | Some b => copy_back k offs (b :: out)
      | None => out
      end
  end.

(** The symbols of one compressed block. *)
Fixpoint inflate_codes (fuel : nat) (lt dt : tree) (bits : bitstream)
  (out : list Z) : res (bitstream * list Z) :=
  match fuel with
  | O => Starved
  | S f =>
      let* (sym, bits) := decode_symbol lt bits in
      if sym <? 256 then inflate_codes f lt dt bits (sym :: out)
      else if sym =? 256 then Got (bits, out)
      else
        let* (length, bits) := read_extra length_bits length_base (sym - 257) bits in
        let* (dist, bits) := decode_symbol dt bits in
        let* (offs, bits) := read_extra dist_bits dist_base dist bits in
        if len out <? offs then Corrupt
        else inflate_codes f lt dt bits
               (copy_back (Z.to_nat length) (Z.to_nat offs) out)
  end.

(** Copy [n] whole bytes from the stream. *)
Fixpoint read_bytes (n : nat) (bits : bitstream) (out : list Z)
  : res (bitstream * list Z) :=
  match n with
  | O => Got (bits, out)
  | S k =>
      let* (b, bits) := read_bits 8 bits in
      read_bytes k bits (b :: out)
  end.

Definition inflate_stored (bits : bitstream) (out : list Z)
  : res (bitstream * list Z) :=
  let* (length, bits) := read_bits 16 (align bits) in
  let* (invlength, bits) := read_bits 16 bits in
  if length =? 65535 - invlength
  then read_bytes (Z.to_nat length) bits out
  else Corrupt.

Definition fixed_lt : tree :=
  build_tree (repeat 8 144 ++ repeat 9 112 ++ repeat 7 24 ++ repeat 8 8).
Definition fixed_dt : tree := build_tree (repeat 5 32).

(** Order in which the lengths of the code-length code are sent. *)
Definition clcidx : list nat :=
  [16; 17; 18; 0; 8; 7; 9; 6; 10; 5; 11; 4; 12; 3; 13; 2; 14; 1; 15]%nat.

Fixpoint read_clens (idx : list nat) (bits : bitstream) (lengths : list Z)
  : res (list Z * bitstream) :=
  match idx with
  | [] => Got (lengths, bits)
  | i :: idx' =>
      let* (clen, bits) := read_bits 3 bits in
      read_clens idx' bits (<[i := clen]> lengths)
  end.

(** The code lengths of the two codes of a dynamic block; [lengths] is
    what was read so far, newest first, [todo] how many are missing. *)
Fixpoint read_lengths (fuel : nat) (ct : tree) (todo : Z)
  (bits : bitstream) (lengths : list Z) : res (list Z * bitstream) :=
  match fuel with
  | O => if todo =? 0 then Got (rev lengths, bits) else Starved
  | S f =>
      if todo =? 0 then Got (rev lengths, bits)
      else
        let* (sym, bits) := decode_symbol ct bits in
        if sym <? 16 then read_lengths f ct (todo - 1) bits (sym :: lengths)
        else
          let* (fill, lbits, lbase) := (if sym =? 16 then
               match lengths with
               | prev :: _ => Got (prev, 2%nat, 3)
               | [] => Corrupt
               end
             else if sym =? 17 then Got (0, 3%nat, 3)
             else Got (0, 7%nat, 11)) in
          let* (v, bits) := read_bits lbits bits in
          let n := lbase + v in
          if todo <? n then Corrupt
          else read_lengths f ct (todo - n) bits
                 (repeat fill (Z.to_nat n) ++ lengths)
  end.

Definition decode_trees (bits : bitstream) : res (tree * tree * bitstream) :=
  let* (hlit, bits) := read_bits 5 bits in
  let* (hdist, bits) := read_bits 5 bits in
  let* (hclen, bits) := read_bits 4 bits in
  let hlit := hlit + 257 in
  let hdist := hdist + 1 in
  let hclen := hclen + 4 in
  let* (clens, bits) := read_clens (take (Z.to_nat hclen) clcidx) bits (repeat 0 19) in
  let* (lengths, bits) := read_lengths (Z.to_nat (hlit + hdist)) (build_tree clens)
      (hlit + hdist) bits [] in
  Got (build_tree (take (Z.to_nat hlit) lengths),
       build_tree (drop (Z.to_nat hlit) lengths), bits).

Definition inflate_block (fuel : nat) (btype : Z) (bits : bitstream)
  (out : list Z) : res (bitstream * list Z) :=
  if btype =? 0 then inflate_stored bits out
  else if btype =? 1 then inflate_codes fuel fixed_lt fixed_dt bits out
  else if btype =? 2 then
    let* (lt, dt, bits) := decode_trees bits in
    inflate_codes fuel lt dt bits out
  else Corrupt.

Fixpoint inflate_blocks (fuel : nat) (bits : bitstream) (out : list Z)
  : res (bitstream * list Z) :=
  match fuel with
  | O => Starved
  | S f =>
      let* (bfinal, bits) := read_bits 1 bits in
      let* (btype, bits) := read_bits 2 bits in
      let* (bits, out) := inflate_block (S (length bits)) btype bits out in
      if bfinal =? 1 then Got (bits, out) else inflate_blocks f bits out
  end.

Definition adler32 (bs : pybytes) : Z :=
  let '(a, b) :=
    fold_left (fun '(a, b) x =>
                 let a := (a + x) mod 65521 in (a, (b + a) mod 65521))
      bs (1, 0) in
  b * 65536 + a.

Definition zlib_header_ok (cmf flg : Z) : bool :=
  ((256 * cmf + flg) mod 31 =? 0)
  && (Z.land cmf 15 =? 8)
  && (Z.shiftr cmf 4 <=? 7)
  && (Z.land flg 32 =? 0).

Definition inflate_zlib (data : pybytes) : res pybytes :=
  match data with
  | cmf :: flg :: body =>
      if zlib_header_ok cmf flg then
        let bits := bits_of_bytes body in
        let* (bits, out) := inflate_blocks (S (length bits)) bits [] in
        let* (b3, bits) := read_bits 8 (align bits) in
        let* (b2, bits) := read_bits 8 bits in
        let* (b1, bits) := read_bits 8 bits in
        let* (b0, bits) := read_bits 8 bits in
        let out := rev out in
        if adler32 out =? ((b3 * 256 + b2) * 256 + b1) * 256 + b0
        then Got out
        else Corrupt
      else Corrupt
  | _ => Corrupt
  end.

(** [zlib.decompress(data)] *)
Definition decompress (data : pybytes) : outcome pybytes :=
  match inflate_zlib data with
  | Got out => Ok out
  | _ => raise_ ValueError "-3"
  end.

End Zlib.

(** ** The [%] operator on strings

    [fmt % arg] for one argument that is a [str], after the runtime's
    formatter.  Ordinary characters are copied; [%%] is a percent sign; a
    conversion specification is [%], flags, a width, a precision and a
    conversion character, and consumes the argument.  The text a
    conversion other than the plain [%s] produces ([%r], padded or
    truncated forms) is left to the runtime ([render]). *)

Module Percent.

Inductive stage : Type := AfterPercent | Flags | Width | Dot | Prec.

Inductive step : Type :=
| Literal            (* the second character of [%%] *)
| Mapping            (* [%(]: a key, which needs a dict argument *)
| Star               (* [*]: width or precision taken from the arguments *)
| Next (s : stage)   (* one more character of the specification *)
| Conv.              (* the conversion character *)

Definition is_digit (c : Z) : bool := (48 <=? c) && (c <=? 57).

Definition is_flag (c : Z) : bool :=
  (c =? 45) || (c =? 43) || (c =? 32) || (c =? 35) || (c =? 48).

Definition classify (s : stage) (c : Z) : step :=
  let from_prec := if is_digit c then Next Prec else Conv in
  let from_dot := if c =? 42 then Star else from_prec in
  let from_width :=
    if is_digit c then Next Width
    else if c =? 46 then Next Dot
    else Conv in
  let from_flags :=
    if is_flag c then Next Flags
    else if c =? 42 then Star
    else from_width in
  match s with
  | AfterPercent =>
      if c =? 37 then Literal
      else if c =? 40 then Mapping
      else from_flags
  | Flags => from_flags
  | Width => from_width
  | Dot => from_dot
  | Prec => from_prec
  end.

Definition mem (c : Z) (s : string) : bool := existsb (Z.eqb c) (py s).

Section Render.

(** The runtime's rendering of a string under a conversion
    specification (the characters after [%], conversion included). *)
Variable render : pystr -> pystr -> pystr.

Definition convert (spec : pystr) (c : Z) (arg : pystr) : outcome pystr :=
  if mem c "s" && (len spec =? 0) then Ok arg
  else if mem c "rs" then Ok (render (spec ++ [c]) arg)
  else if mem c "c" then
    if len arg =? 1 then Ok (render (spec ++ [c]) arg)
    else raise_ TypeError "%c needs int or char"
  else if mem c "diuoxX" then raise_ TypeError "can't convert str to int"
  else if mem c "eEfFgG" then raise_ TypeError "can't convert str to float"
  else raise_ ValueError "unsupported format character".

(** [st] is [None] in ordinary text and [Some (stage, spec)] inside a
    conversion specification; [arg] is the argument while unused. *)
Fixpoint str_mod_go (fmt : pystr) (st : option (stage * pystr))
  (arg : option pystr) : outcome pystr :=
  match fmt with
  | [] =>
      match st, arg with
      | Some _, _ => raise_ ValueError "incomplete format"
      | None, Some _ =>
          raise_ TypeError "format string didn't convert all arguments"
      | None, None => Ok []
      end
  | c :: fmt' =>
      match st with
      | None =>
          if c =? 37 then str_mod_go fmt' (Some (AfterPercent, [])) arg
          else obind (str_mod_go fmt' None arg) (fun r => Ok (c :: r))
      | Some (s, spec) =>
          match classify s c with
          | Literal =>
              obind (str_mod_go fmt' None arg) (fun r => Ok (37 :: r))
          | Mapping => raise_ TypeError "format needs a dict"
          | Star =>
              match arg with
              | Some _ => raise_ TypeError "can't convert str to int"
              | None => raise_ TypeError "format string needs more arguments"
              end
          | Next s' => str_mod_go fmt' (Some (s', spec ++ [c])) arg
          | Conv =>
              match arg with
              | None => raise_ TypeError "format string needs more arguments"
              | Some a =>
                  obind (convert spec c a) (fun piece =>
                  obind (str_mod_go fmt' None None) (fun r =>
                  Ok (piece ++ r)))
              end
          end
      end
  end.

(** [fmt % arg] *)
Definition str_mod (fmt arg : pystr) : outcome pystr :=
  str_mod_go fmt None (Some arg).

End Render.

End Percent.

(** ** The firmware *)

Notation "'let*' p ':=' m 'in' k" := (obind m (fun p => k))
  (at level 10, p pattern, m at level 100, k at level 200).

(** *** Configuration (lines 30-60)

    The timing constants are decimal fractions; they are kept exact. *)

Definition READ_TIMEOUT : Q := 2 # 1.
Definition LOOP_CYCLE : Q := 3 # 10.
Definition KEEP_ALIVE : Q := 5 # 1.
Definition REFRESH_RATE : Q := 3 # 1.
Definition DEBUG : bool := true.
Definition MAX_OUTPUT_LEN : Z := 10.

Definition COMMANDS : list pystr :=
  map py
    ["reload"; "exit";
     "blink"; "terminal"; "preview"; "refresh";
     "store-a"; "store-b"; "store-c"; "store-up"; "store-down";
     "show-a"; "show-b"; "show-c"; "show-up"; "show-down"]%string.

(** A value that is a [str] or [None]. *)
Definition pyval : Type := option pystr.

Definition COMMAND_NONE : list pyval := [None; None; None].

(** [int(q)]: truncation towards zero. *)
Definition int_of_Q (q : Q) : Z := Z.quot (Qnum q) (Z.pos (Qden q)).

(** Using a value where a [str] is required. *)
Definition as_str (v : pyval) : outcome pystr :=
  match v with
  | Some s => Ok s
  | None => raise_ TypeError "object of type 'NoneType' is not a str"
  end.

(** The names bound at module level: imports, constants, functions and
    variables, in the order of the source. *)
Definition module_globals : list string :=
  ["adafruit_imageload"; "bitmaptools"; "board"; "base64"; "displayio";
   "io"; "os"; "re"; "storage"; "supervisor"; "sys"; "time"; "traceback";
   "zlib"; "DigitalInOut"; "Direction";
   "READ_TIMEOUT"; "LOOP_CYCLE"; "KEEP_ALIVE"; "REFRESH_RATE"; "DEBUG";
   "MAX_OUTPUT_LEN"; "COMMANDS"; "COMMAND_NONE";
   "log"; "dump"; "led"; "display"; "trunc"; "format_e";
   "iteration"; "log_keep_alive"; "should_refresh"; "refresh_if_needed";
   "should_blink_led"; "update_blinking"; "read_command"; "parse_command";
   "handle_commands"; "handle_refresh_command"; "handle_terminal_command";
   "handle_command_blink"; "handle_command_reload"; "handle_command_exit";
   "handle_command_preview"; "handle_store_command"; "handle_show_command";
   "show_bitmap"; "write_b64_as_file"; "read_file_as_b64";
   "decode_payload"]%string.

(** *** Display objects *)

(** [displayio.Bitmap]: [bm_data] holds the pixel at [(x, y)] at
    position [x + y * bm_width]. *)
Record bitmap : Type := MkBitmap {
  bm_width : Z;
  bm_height : Z;
  bm_value_count : Z;
  bm_data : list Z
}.

(** [displayio.Palette]: the colours by index. *)
Definition palette : Type := list Z.

(** [displayio.Bitmap(width, height, value_count)] *)
Definition new_bitmap (width height value_count : Z) : bitmap :=
  MkBitmap width height value_count (repeat 0 (Z.to_nat (width * height))).

(** [bitmap[x, y] = value] *)
Definition bitmap_set (bm : bitmap) (x y value : Z) : outcome bitmap :=
  if (x <? 0) || (bm_width bm <=? x) || (y <? 0) || (bm_height bm <=? y)
  then raise_ IndexError "pixel coordinates out of bounds"
  else if (value <? 0) || (bm_value_count bm <=? value)
  then raise_ ValueError "pixel value requires too many bits"
  else Ok (MkBitmap (bm_width bm) (bm_height bm) (bm_value_count bm)
             (<[Z.to_nat (x + y * bm_width bm) := value]> (bm_data bm))).

(** [bitmap[x, y]] *)
Definition bitmap_get (bm : bitmap) (x y : Z) : option Z :=
  if (x <? 0) || (bm_width bm <=? x) || (y <? 0) || (bm_height bm <=? y)
  then None
  else bm_data bm !! Z.to_nat (x + y * bm_width bm).

(** [palette[i] = colour] *)
Definition palette_set (p : palette) (i colour : Z) : palette :=
  <[Z.to_nat i := colour]> p.

(** [b[i]] on [bytes] *)
Definition bytes_get (b : pybytes) (i : Z) : outcome Z :=
  let j := if i <? 0 then i + len b else i in
  if j <? 0 then raise_ IndexError "bytes index out of range"
  else match b !! Z.to_nat j with
       | Some v => Ok v
       | None => raise_ IndexError "bytes index out of range"
       end.

(** [range(n)] *)
Definition range (n : Z) : list Z := map Z.of_nat (seq 0 (Z.to_nat n)).

(** [for a in l: s = body(a, s)], leaving at the first exception. *)
Fixpoint for_each {A S : Type} (l : list A) (body : A -> S -> outcome S)
  (s : S) : outcome S :=
  match l with
  | [] => Ok s
  | a :: l' => let* s' := body a s in for_each l' body s'
  end.

(** What [display.root_group] can hold. *)
Inductive root_group : Type :=
| NoGroup
| CIRCUITPYTHON_TERMINAL
| Group (tile_grids : list (bitmap * palette)).

(** *** Globals, devices and the monad *)

Record state : Type := MkState {
  iteration : Z;
  should_refresh : bool;
  should_blink_led : bool;
  led_value : bool;
  display_root_group : root_group;
  (** lines printed on the console *)
  console : list pystr;
  (** the files of the flash drive, and whether code may write them *)
  files : gmap pystr pybytes;
  fs_readonly : bool;
  (** the values of [iteration] at which [display.refresh()] completed *)
  refreshed_at : list Z
}.

(** What the outside world supplies during one pass of the main loop. *)
Record tick_input : Type := MkInput {
  usb_connected : bool;
  serial_connected : bool;
  (** the text [readline] delivers while bytes are available *)
  serial_text : pystr;
  (** the error [display.refresh()] fails with, if it fails *)
  refresh_error : option exn;
  tm_min : Z;
  tm_sec : Z
}.

Definition M (A : Type) : Type := state -> outcome A * state.

Definition ret {A : Type} (a : A) : M A := fun st => (Ok a, st).

Definition bind {A B : Type} (m : M A) (k : A -> M B) : M B :=
  fun st =>
    match m st with
    | (Ok a, st') => k a st'
    | (Raise e, st') => (Raise e, st')
    end.

Notation "'let!' p ':=' m 'in' k" := (bind m (fun p => k))
  (at level 10, p pattern, m at level 100, k at level 200).
Notation "m ';;' k" := (bind m (fun _ => k))
  (at level 100, k at level 200, right associativity).

Definition lift {A : Type} (o : outcome A) : M A := fun st => (o, st).

Definition get {A : Type} (f : state -> A) : M A := fun st => (Ok (f st), st).

Definition modify (f : state -> state) : M unit := fun st => (Ok tt, f st).

(** One statement [m] of a [try] block whose [except Exception]
    clause is [handler]; [k] is the rest of the block, which sees what
    [m] assigned.  An exception raised by the handler itself is not
    handled again. *)
Definition try_step {A B : Type} (m : M A) (handler : exn -> M B)
  (k : A -> M B) : M B :=
  fun st =>
    match m st with
    | (Ok a, st') => k a st'
    | (Raise e, st') =>
        if is_Exception e then handler e st' else (Raise e, st')
    end.

(** [try: body  except Exception as e: handler(e)] *)
Definition try_except {A : Type} (body : M A) (handler : exn -> M A) : M A :=
  try_step body handler ret.

Definition set_iteration (v : Z) (st : state) : state :=
  MkState v (should_refresh st) (should_blink_led st) (led_value st)
    (display_root_group st) (console st) (files st) (fs_readonly st)
    (refreshed_at st).

Definition set_should_refresh (v : bool) (st : state) : state :=
  MkState (iteration st) v (should_blink_led st) (led_value st)
    (display_root_group st) (console st) (files st) (fs_readonly st)
    (refreshed_at st).

Definition set_should_blink_led (v : bool) (st : state) : state :=
  MkState (iteration st) (should_refresh st) v (led_value st)
    (display_root_group st) (console st) (files st) (fs_readonly st)
    (refreshed_at st).

Definition set_led_value (v : bool) (st : state) : state :=
  MkState (iteration st) (should_refresh st) (should_blink_led st) v
    (display_root_group st) (console st) (files st) (fs_readonly st)
    (refreshed_at st).

Definition set_root_group (v : root_group) (st : state) : state :=
  MkState (iteration st) (should_refresh st) (should_blink_led st)
    (led_value st) v (console st) (files st) (fs_readonly st)
    (refreshed_at st).

Definition set_console (v : list pystr) (st : state) : state :=
  MkState (iteration st) (should_refresh st) (should_blink_led st)
    (led_value st) (display_root_group st) v (files st) (fs_readonly st)
    (refreshed_at st).

Definition set_files (v : gmap pystr pybytes) (st : state) : state :=
  MkState (iteration st) (should_refresh st) (should_blink_led st)
    (led_value st) (display_root_group st) (console st) v (fs_readonly st)
    (refreshed_at st).

Definition set_refreshed_at (v : list Z) (st : state) : state :=
  MkState (iteration st) (should_refresh st) (should_blink_led st)
    (led_value st) (display_root_group st) (console st) (files st)
    (fs_readonly st) v.

(** The state right after the board setup (lines 71-135). *)
Definition initial_state (fs : gmap pystr pybytes) (ro : bool) : state :=
  {| iteration := 0;
     should_refresh := true;
     should_blink_led := false;
     led_value := false;
     display_root_group := if DEBUG then CIRCUITPYTHON_TERMINAL else NoGroup;
     console := if DEBUG then [py "-----"; py "Running in serial mode."] else [];
     files := fs;
     fs_readonly := ro;
     refreshed_at := [] |}.

(** ["\n"] and the two characters of the source outside ASCII. *)
Definition NL : pystr := [10].
Definition ELLIPSIS : pystr := [8230].
Definition SHRUG : pystr := [129335].

(** *** Debugging tools (lines 63-64) *)

Definition log (s : pystr) : M unit :=
  if DEBUG then modify (fun st => set_console (console st ++ [s]) st)
  else ret tt.

(** *** Middle-of-the-word truncation (lines 87-93) *)

Definition trunc (long : pystr) : pystr :=
  if len long <=? MAX_OUTPUT_LEN then long
  else
    let trunc_replacement := py "..." in
    let left_pad := len trunc_replacement + 1 in
    let right_pad := - len trunc_replacement in
    slice_to long left_pad ++ py "..." ++ slice_from long right_pad.

(** The board the firmware runs on: the resolution of its display and
    the two text services of the runtime the log messages go through. *)
Record board : Type := MkBoard {
  display_width : Z;
  display_height : Z;
  (** [traceback.format_exception] *)
  format_exception : exn -> list pystr;
  (** the formatter behind [%] conversions other than the plain [%s] *)
  render : pystr -> pystr -> pystr;
  (** the text an f-string shows for the object a bound name refers to,
      where that object is not a string of the model *)
  show_object : string -> pystr
}.

Section Firmware.

Variable hw : board.

(** [fmt % arg] *)
Definition str_mod (fmt arg : pystr) : outcome pystr :=
  Percent.str_mod (render hw) fmt arg.

(** Evaluating the name [x] inside an f-string, in a function whose
    local names are [locals]: a name that is neither local nor global
    raises. *)
Definition load_name (locals : list string) (x : string) : outcome pystr :=
  if existsb (String.eqb x) (locals ++ module_globals)
  then Ok (show_object hw x)
  else Raise (MkExn NameError (py "name '" ++ py x ++ py "' is not defined")).

(** *** Formatting an exception (lines 97-104) *)

Definition format_e (exception : exn) : pystr :=
  let message := exn_msg exception in
  let trace := format_exception hw exception in
  let result := py "Reason: " in
  let result := result ++ (if 0 <? len message then message else SHRUG) in
  let result := result ++ NL in
  let result := result ++ join (NL ++ py "  ") trace in
  result.

(** *** Keep alive pinger (lines 108-116) *)

Definition log_keep_alive (inp : tick_input) : M unit :=
  let keep_alive_cycle := int_of_Q (KEEP_ALIVE / LOOP_CYCLE) in
  let! i := get iteration in
  if i mod keep_alive_cycle =? 0 then
    let time_string := py "--:" in
    let time_string := time_string ++ format_02 (tm_min inp) in
    let time_string := time_string ++ py ":" ++ format_02 (tm_sec inp) in
    let! line :=
      lift (str_mod (py "Awaiting commands" ++ ELLIPSIS ++ py " (%s)")
              time_string) in
    log line
  else ret tt.

(** *** Refreshing the screen (lines 120-131) *)

Definition refresh_cycle : Z := int_of_Q (REFRESH_RATE / LOOP_CYCLE).

(** [display.refresh()] *)
Definition display_refresh (inp : tick_input) : M unit :=
  match refresh_error inp with
  | Some e => lift (Raise e)
  | None => modify (fun st => set_refreshed_at (refreshed_at st ++ [iteration st]) st)
  end.

Definition refresh_if_needed (inp : tick_input) : M unit :=
  let! i := get iteration in
  if i mod refresh_cycle =? 0 then
    let! due := get should_refresh in
    if due then
      log (py "Refreshing the screen" ++ ELLIPSIS) ;;
      try_except (display_refresh inp)
        (fun e =>
           (* the f-string names [base64_string]; the local names of
              this function are [refresh_cycle] and [e] *)
           let! base64_string :=
             lift (load_name ["refresh_cycle"; "e"]%string "base64_string") in
           let! line :=
             lift (str_mod (py "Failed to decode '" ++ base64_string
                            ++ py "'." ++ NL ++ py "%s") (format_e e)) in
           log line) ;;
      modify (set_should_refresh false)
    else ret tt
  else ret tt.

(** *** Blinking (lines 135-141) *)

Definition update_blinking : M unit :=
  let! blink := get should_blink_led in
  if blink then modify (fun st => set_led_value (negb (led_value st)) st)
  else modify (set_led_value false).

(** *** Reading a command from the serial interface (lines 145-156) *)

Definition read_command (inp : tick_input) : M pyval :=
  if negb (usb_connected inp) then
    log (py "No USB connection, skipping read") ;; ret None
  else if negb (serial_connected inp) then
    log (py "No serial connection, skipping read") ;; ret None
  else
    let buffer := serial_text inp in
    let cleaned := strip (sub_space buffer) in
    ret (if 0 <? len cleaned then Some cleaned else None).

(** *** Decoding a command (lines 161-186) *)

Definition parse_command (base64_string : pyval) : M (list pyval) :=
  match base64_string with
  | None => ret COMMAND_NONE
  | Some base64_string =>
      if DEBUG && startswith base64_string (py "debug:") then
        let debug_command := replace base64_string (py "debug:") [] in
        let parts := split 58 debug_command in
        if negb (len parts =? 3) then
          let! line := lift (str_mod (py "Invalid debug command: '%s'") debug_command) in
          log line ;;
          log (py "  - Did you forget to add colons?") ;;
          ret COMMAND_NONE
        else
          ret (map (fun p => Some (strip p)) parts)
      else
        try_except
          (let! base64_bytes := lift (Utf8.encode base64_string) in
           let! bytes_plain := lift (Base64.decodebytes base64_bytes) in
           let! plain_string := lift (Utf8.decode bytes_plain) in
           let parts := split 58 plain_string in
           if negb (len parts =? 3) then
             let! msg := lift (str_mod (py "Invalid command format: '%s'") plain_string) in
             lift (Raise (MkExn PlainException msg))
           else ret (map Some (split 58 plain_string)))
          (fun e =>
             let! line :=
               lift (str_mod (py "Failed to decode '" ++ base64_string
                              ++ py "'." ++ NL ++ py "%s") (format_e e)) in
             log line ;;
             ret COMMAND_NONE)
  end.

(** *** Showing a bitmap with a palette (lines 301-307) *)

Definition show_bitmap (bm : bitmap) (pal : palette) : M unit :=
  let tile_grid := (bm, pal) in
  let group := [] ++ [tile_grid] in
  modify (set_root_group (Group group)) ;;
  modify (set_should_refresh true).

(** *** Files (lines 311-324) *)

(** [open(file_name, "wb")]: creates or empties the file. *)
Definition open_wb (file_name : pystr) : M unit :=
  let! ro := get fs_readonly in
  if ro then lift (raise_ OSError "[Errno 30] Read-only filesystem")
  else modify (fun st => set_files (<[file_name := []]> (files st)) st).

(** [file.write(raw_bytes)] on a file just opened. *)
Definition file_write (file_name : pystr) (raw_bytes : pybytes) : M unit :=
  modify (fun st =>
            set_files (<[file_name := default [] (files st !! file_name) ++ raw_bytes]>
                         (files st)) st).

(** [open(file_name, "rb")] followed by [file.read()]. *)
Definition read_rb (file_name : pystr) : M pybytes :=
  let! fs := get files in
  match fs !! file_name with
  | Some content => ret content
  | None => lift (raise_ OSError "[Errno 2] No such file/directory")
  end.

Definition write_b64_as_file (base64_str : pyval) (file_name : pystr) : M unit :=
  open_wb file_name ;;
  let! raw_bytes := lift (let* s := as_str base64_str in Base64.b64decode s) in
  file_write file_name raw_bytes.

Definition read_file_as_b64 (file_name : pystr) : M pystr :=
  let! raw_bytes := read_rb file_name in
  let b64_bytes := Base64.b64encode raw_bytes in
  let! b64_string := lift (Utf8.decode b64_bytes) in
  ret b64_string.

(** *** Decoding a Base64ed, compressed, binarized bitmap (lines 328-343) *)

Definition decode_payload (payload : pystr) : outcome (bitmap * palette) :=
  let* compressed_bytes := Base64.b64decode payload in
  let* binarized_bytes := Zlib.decompress compressed_bytes in
  let bitmap := new_bitmap (display_width hw) (display_height hw) 2 in
  let palette := repeat 0 2 in
  let palette := palette_set palette 0 0x000000 in
  let palette := palette_set palette 1 0xFFFFFF in
  let* bitmap :=
    for_each (range (display_height hw)) (fun y bitmap =>
      for_each (range (display_width hw)) (fun x bitmap =>
        let byte_index := (y * (display_width hw / 8)) + (x / 8) in
        let bit_index := 7 - (x mod 8) in
        let* byte := bytes_get binarized_bytes byte_index in
        let pixel_value := Z.land (Z.shiftr byte bit_index) 1 in
        bitmap_set bitmap x y pixel_value) bitmap) bitmap in
  Ok (bitmap, palette).

(** *** The command handlers (lines 222-297) *)

Definition handle_refresh_command : M unit :=
  log (py "Scheduling screen refresh" ++ ELLIPSIS) ;;
  modify (set_should_refresh true).

Definition handle_terminal_command : M unit :=
  log (py "Showing terminal" ++ ELLIPSIS) ;;
  modify (set_root_group CIRCUITPYTHON_TERMINAL) ;;
  modify (set_should_refresh true).

Definition handle_command_blink : M unit :=
  log (py "Changing blink status" ++ ELLIPSIS) ;;
  modify (fun st => set_should_blink_led (negb (should_blink_led st)) st).

(** [supervisor.reload()] leaves by raising [ReloadException]. *)
Definition handle_command_reload : M unit :=
  log (py "Reloading" ++ ELLIPSIS) ;;
  lift (Raise (MkExn ReloadException [])).

(** [sys.exit()] leaves by raising [SystemExit]. *)
Definition handle_command_exit : M unit :=
  log (py "Exiting" ++ ELLIPSIS) ;;
  lift (Raise (MkExn SystemExit [])).

Definition handle_command_preview (base64_payload : pyval) : M unit :=
  log (py "Previewing image" ++ ELLIPSIS) ;;
  try_except
    (let! (bitmap, palette) :=
       lift (let* s := as_str base64_payload in decode_payload s) in
     show_bitmap bitmap palette)
    (fun e =>
       let! line :=
         lift (let* s := as_str base64_payload in
               str_mod (py "Preview failed for: " ++ trunc s
                        ++ py "'." ++ NL ++ py "%s") (format_e e)) in
       log line).

Definition handle_store_command (name : pystr) (metadata payload : pyval) : M unit :=
  log (py "Storing image" ++ ELLIPSIS) ;;
  try_except
    (let! meta_file := lift (str_mod (py "%s.metadata.base64") name) in
     write_b64_as_file metadata meta_file ;;
     let! payload_file := lift (str_mod (py "%s.bin.gz.base64") name) in
     write_b64_as_file payload payload_file)
    (fun e =>
       let! line :=
         lift (let* m := as_str metadata in
               let* p := as_str payload in
               str_mod (py "Storing failed for: '" ++ trunc m ++ py "':'"
                        ++ trunc p ++ py "'." ++ NL ++ py "%s") (format_e e)) in
       log line).

Definition handle_show_command (name : pystr) : M unit :=
  log (py "Showing image" ++ ELLIPSIS) ;;
  let! file_name_meta := lift (str_mod (py "%s.metadata.base64") name) in
  let! file_name_payload := lift (str_mod (py "%s.bin.gz.base64") name) in
  (* [meta_b64] and [payload_b64] as they stand when the handler runs *)
  let failed (meta_b64 payload_b64 : pystr) (e : exn) : M unit :=
    let! line :=
      lift (str_mod (py "Showing failed for: '" ++ trunc meta_b64 ++ py "':'"
                     ++ trunc payload_b64 ++ py "'." ++ NL ++ py "%s")
              (format_e e)) in
    log line in
  let meta_b64 := [] in
  let payload_b64 := [] in
  try_step (read_file_as_b64 file_name_meta)
    (failed meta_b64 payload_b64) (fun meta_b64 =>
  try_step (read_file_as_b64 file_name_payload)
    (failed meta_b64 payload_b64) (fun payload_b64 =>
  try_step (lift (decode_payload payload_b64))
    (failed meta_b64 payload_b64) (fun '(bitmap, palette) =>
  try_step (show_bitmap bitmap palette)
    (failed meta_b64 payload_b64) ret))).

(** [l[i]] on a list *)
Definition list_get {A : Type} (l : list A) (i : nat) : outcome A :=
  match l !! i with
  | Some a => Ok a
  | None => raise_ IndexError "list index out of range"
  end.

(** *** Dispatch (lines 190-217) *)

Definition handle_commands (inp : tick_input) : M unit :=
  let! command_raw := read_command inp in
  let! cmd := parse_command command_raw in
  match cmd with
  | [command_name; metadata; payload] =>
      match command_name with
      | None => ret tt
      | Some command_name =>
          if negb (str_in command_name COMMANDS) then
            let! line := lift (str_mod (py "Unknown command '%s'") command_name) in
            log line
          else if str_eqb command_name (py "blink") then handle_command_blink
          else if str_eqb command_name (py "reload") then handle_command_reload
          else if str_eqb command_name (py "exit") then handle_command_exit
          else if str_eqb command_name (py "preview") then
            handle_command_preview payload
          else if str_eqb command_name (py "terminal") then
            handle_terminal_command
          else if str_eqb command_name (py "refresh") then
            handle_refresh_command
          else if startswith command_name (py "show") then
            let! page := lift (list_get (split 45 command_name) 1) in
            handle_show_command page
          else if startswith command_name (py "store") then
            let! page := lift (list_get (split 45 command_name) 1) in
            handle_store_command page metadata payload
          else log (py "Command not implemented yet!")
      end
  | _ => lift (raise_ ValueError "wrong number of values to unpack")
  end.

(** *** The main loop (lines 348-354) *)

(** One pass of the loop body. *)
Definition tick (inp : tick_input) : M unit :=
  log_keep_alive inp ;;
  update_blinking ;;
  handle_commands inp ;;
  refresh_if_needed inp ;;
  modify (fun st => set_iteration (iteration st + 1) st).

(** As many passes as there are inputs; an exception that leaves a pass
    leaves the loop. *)
Fixpoint main_loop (inps : list tick_input) : M unit :=
  match inps with
  | [] => ret tt
  | inp :: rest => tick inp ;; main_loop rest
  end.

End Firmware.

(** ** The environment of the firmware *)

(** Modelled from the spec: the transport encoding applied by the
    sender, which is not part of the firmware (section 6: a line is
    [base64(<name>:<metadata>:<payload>)]).  The three fields are joined
    with colons, encoded as UTF-8 and then as Base64; the line is the
    Base64 text. *)
Definition transport_encode (name metadata payload : pystr) : outcome pystr :=
  let* plain := Utf8.encode (name ++ py ":" ++ metadata ++ py ":" ++ payload) in
  Utf8.decode (Base64.b64encode plain).

(** The badge: a display of 296 by 128 pixels, the resolution for which
    the sample payload quoted in the source (line 262) unpacks to exactly
    [width * height / 8] bytes.  The text services are kept trivial. *)
Definition badge : board :=
  {| display_width := 296;
     display_height := 128;
     format_exception := fun _ => [];
     render := fun _ arg => arg;
     show_object := py |}.

(** A freshly started badge with an empty, writable drive. *)
Definition power_on : state := initial_state ∅ false.

(** A pass of the loop during which nothing arrives on the serial link
    and the display works. *)
Definition quiet : tick_input :=
  {| usb_connected := true;
     serial_connected := true;
     serial_text := [];
     refresh_error := None;
     tm_min := 0;
     tm_sec := 0 |}.

(** A pass during which the line [text] arrives. *)
Definition receiving (text : pystr) : tick_input :=
  {| usb_connected := true;
     serial_connected := true;
     serial_text := text;
     refresh_error := None;
     tm_min := 0;
     tm_sec := 0 |}.

(** A pass during which [display.refresh()] would fail with [e]. *)
Definition display_failing (e : exn) : tick_input :=
  {| usb_connected := true;
     serial_connected := true;
     serial_text := [];
     refresh_error := Some e;
     tm_min := 0;
     tm_sec := 0 |}.

(** A display of 16 by 2 pixels, small enough to run the codec on by
    computation. *)
Definition pocket : board :=
  {| display_width := 16;
     display_height := 2;
     format_exception := fun _ => [];
     render := fun _ arg => arg;
     show_object := py |}.

(** * Part II: theorems *)

(** ** [trunc] *)

Lemma trunc_short (s : pystr) : len s <= MAX_OUTPUT_LEN -> trunc s = s.
Proof.
  intros H. unfold trunc.
  destruct (Z.leb_spec (len s) MAX_OUTPUT_LEN) as [_|Hgt]; [reflexivity|lia].
Qed.

Lemma trunc_long (s : pystr) :
  MAX_OUTPUT_LEN < len s ->
  trunc s = take 4 s ++ py "..." ++ drop (length s - 3) s.
Proof.
  intros H. unfold trunc.
  destruct (Z.leb_spec (len s) MAX_OUTPUT_LEN) as [Hle|_]; [lia|].
  unfold slice_to, slice_from, slice_bound.
  change (len (py "...")) with 3. unfold MAX_OUTPUT_LEN, len in *.
  change (3 + 1 <? 0) with false. change (- (3) <? 0) with true. cbv iota.
  replace (Z.to_nat (Z.min (3 + 1) _)) with 4%nat by lia.
  replace (Z.to_nat (Z.max 0 _)) with (length s - 3)%nat by lia.
  reflexivity.
Qed.

(** C9 (as amended). A string of at most [MAX_OUTPUT_LEN] = 10 characters
    is returned unchanged.  A longer string is rendered as its first 4
    characters, then "...", then its last 3 characters; the result always
    has exactly 10 characters, whatever the length of the original. *)
Theorem trunc_spec (s : pystr) :
  (len s <= MAX_OUTPUT_LEN -> trunc s = s) /\
  (MAX_OUTPUT_LEN < len s ->
     trunc s = take 4 s ++ py "..." ++ drop (length s - 3) s /\
     len (trunc s) = MAX_OUTPUT_LEN).
Proof.
  split; [apply trunc_short|].
  intros H. split; [now apply trunc_long|].
  rewrite trunc_long by assumption.
  unfold len, MAX_OUTPUT_LEN in *.
  rewrite !length_app, length_take, length_drop.
  change (length (py "...")) with 3%nat.
  lia.
Qed.

Lemma trunc_spec_witness :
  trunc (py "short") = py "short" /\
  trunc (py "abcdefghijklmnopqrstuvwxyz") = py "abcd...xyz" /\
  len (trunc (py "abcdefghijklmnopqrstuvwxyz")) = 10.
Proof.
  split.
  - apply (proj1 (trunc_spec (py "short"))). vm_compute. discriminate.
  - apply (proj2 (trunc_spec (py "abcdefghijklmnopqrstuvwxyz"))). reflexivity.
Defined.

(** C9 (as stated) fails: the kept prefix and suffix have different
    lengths, so the result of truncating an 11-character string is not
    [first k ++ "..." ++ last k] for any [k]. *)
Lemma trunc_not_first_k_last_k :
  ~ exists k : nat,
      trunc (py "abcdefghijk")
      = take k (py "abcdefghijk") ++ py "..." ++
        drop (length (py "abcdefghijk") - k) (py "abcdefghijk").
Proof.
  intros [k Hk].
  apply (f_equal (@length Z)) in Hk.
  rewrite !length_app, length_take, length_drop in Hk.
  vm_compute (length (trunc _)) in Hk. vm_compute (length (py _)) in Hk.
  lia.
Qed.

(** ** Strings *)

Lemma is_prefix_app (p t : pystr) : is_prefix p (p ++ t) = true.
Proof.
  induction p as [|a p IH]; [reflexivity|].
  cbn. rewrite Z.eqb_refl. exact IH.
Qed.

Lemma is_prefix_spec (p s : pystr) :
  is_prefix p s = true <-> exists t, s = p ++ t.
Proof.
  split.
  - revert s. induction p as [|a p IH]; intros s H.
    + exists s. reflexivity.
    + destruct s as [|b s]; [discriminate|].
      cbn in H. apply andb_true_iff in H as [Hab Hp].
      apply Z.eqb_eq in Hab. subst b.
      destruct (IH _ Hp) as [t ->]. exists t. reflexivity.
  - intros [t ->]. apply is_prefix_app.
Qed.

(** [split] of a string without the separator. *)
Lemma split_no_sep (sep : Z) (s : pystr) :
  Forall (fun c => c <> sep) s -> split sep s = [s].
Proof.
  induction 1 as [|c s Hc _ IH]; [reflexivity|].
  cbn. destruct (Z.eqb_spec c sep); [contradiction|].
  rewrite IH. reflexivity.
Qed.

Lemma split_app_sep (sep : Z) (a b : pystr) :
  Forall (fun c => c <> sep) a ->
  split sep (a ++ sep :: b) = a :: split sep b.
Proof.
  induction 1 as [|c s Hc _ IH].
  - cbn. rewrite Z.eqb_refl. reflexivity.
  - cbn. destruct (Z.eqb_spec c sep); [contradiction|].
    rewrite IH. reflexivity.
Qed.

(** *** [replace] removes every occurrence of a pattern that cannot
    overlap itself *)

(** No proper prefix of [old] is also a suffix of [old]. *)
Definition unbordered (old : pystr) : bool :=
  forallb (fun j => negb (str_eqb (take j old) (drop (length old - j) old)))
    (seq 1 (length old - 1)).

Lemma str_eqb_eq (a b : pystr) : str_eqb a b = true <-> a = b.
Proof.
  revert b. induction a as [|x a IH]; intros [|y b]; cbn; try easy.
  rewrite andb_true_iff, Z.eqb_eq, IH. split.
  - intros [-> ->]. reflexivity.
  - intros [= -> ->]. auto.
Qed.

Lemma unbordered_spec (old : pystr) (j : nat) :
  unbordered old = true -> (0 < j < length old)%nat ->
  take j old <> drop (length old - j) old.
Proof.
  unfold unbordered. rewrite forallb_forall. intros H Hj Heq.
  specialize (H j). rewrite in_seq in H.
  assert (Hn : negb (str_eqb (take j old) (drop (length old - j) old)) = true)
    by (apply H; lia).
  apply negb_true_iff in Hn. apply str_eqb_eq in Heq. congruence.
Qed.

Lemma replace_go_skip (old new a b : pystr) :
  replace_go old new (length a) (a ++ b) = replace_go old new 0 b.
Proof.
  induction a as [|c a IH]; cbn.
  - destruct b; reflexivity.
  - exact IH.
Qed.

(** An occurrence of [old] cannot start inside [r] and run into a
    following occurrence. *)
Lemma no_straddle (old r post : pystr) :
  unbordered old = true -> r <> [] ->
  is_prefix old (r ++ old ++ post) = true -> is_prefix old r = true.
Proof.
  intros Hub Hr H.
  destruct (Nat.le_gt_cases (length old) (length r)) as [Hle|Hlt].
  - apply is_prefix_spec in H as [t Ht]. apply is_prefix_spec.
    exists (drop (length old) r).
    apply (f_equal (take (length old))) in Ht.
    rewrite take_app_le in Ht by exact Hle.
    rewrite take_app_length in Ht.
    rewrite <- Ht at 1. symmetry. apply take_drop.
  - exfalso. apply is_prefix_spec in H as [t Ht].
    assert (Hr0 : (0 < length r)%nat) by (destruct r; [congruence|cbn; lia]).
    apply (unbordered_spec old (length old - length r) Hub); [lia|].
    replace (length old - (length old - length r))%nat with (length r) by lia.
    pose proof (f_equal (take (length old)) Ht) as H1.
    rewrite take_app_length in H1.
    rewrite take_app_ge in H1 by lia.
    rewrite take_app_le in H1 by lia.
    apply (f_equal (drop (length r))) in H1.
    rewrite drop_app_length in H1. exact H1.
Qed.

Lemma replace_go_occurrence (old new pre post : pystr) (k : nat) :
  unbordered old = true -> old <> [] -> (k <= length pre)%nat ->
  replace_go old new k (pre ++ old ++ post)
  = replace_go old new k pre ++ new ++ replace_go old new 0 post.
Proof.
  intros Hub Hne. revert k.
  induction pre as [|c pre IH]; intros k Hk.
  - cbn in Hk. assert (k = 0)%nat as -> by lia. cbn [app replace_go].
    destruct old as [|o old']; [congruence|].
    cbn [app replace_go]. change (o :: old' ++ post) with ((o :: old') ++ post).
    rewrite is_prefix_app. f_equal.
    cbn [length]. replace (S (length old') - 1)%nat with (length old') by lia.
    apply replace_go_skip.
  - cbn [app replace_go]. destruct k as [|k].
    + change (c :: pre ++ old ++ post) with ((c :: pre) ++ old ++ post).
      destruct (is_prefix old (c :: pre)) eqn:Hp.
      * assert (Hfull : is_prefix old ((c :: pre) ++ old ++ post) = true).
        { apply is_prefix_spec in Hp as [t Ht]. apply is_prefix_spec.
          exists (t ++ old ++ post). rewrite Ht, <- app_assoc. reflexivity. }
        rewrite Hfull. rewrite <- app_assoc. f_equal. apply IH.
        apply is_prefix_spec in Hp as [t Ht].
        apply (f_equal (@length Z)) in Ht. rewrite length_app in Ht.
        cbn in Ht. lia.
      * destruct (is_prefix old ((c :: pre) ++ old ++ post)) eqn:Hfull.
        -- apply no_straddle in Hfull; [congruence|assumption|discriminate].
        -- cbn. f_equal. apply IH. lia.
    + apply IH. cbn in Hk. lia.
Qed.

(** Wherever [old] occurs in [s], [s.replace(old, new)] is the
    replacement of what precedes, [new], and the replacement of what
    follows. *)
Lemma replace_occurrence (old new pre post : pystr) :
  unbordered old = true -> old <> [] ->
  replace (pre ++ old ++ post) old new
  = replace pre old new ++ new ++ replace post old new.
Proof.
  intros Hub Hne. unfold replace. destruct old as [|o old']; [congruence|].
  apply replace_go_occurrence; [assumption|assumption|lia].
Qed.

Lemma replace_go_length (old s : pystr) (k : nat) :
  (length (replace_go old [] k s) <= length s)%nat.
Proof.
  revert k. induction s as [|c s IH]; intros k; cbn; [lia|].
  destruct k as [|k].
  - destruct (is_prefix old (c :: s)); cbn.
    + specialize (IH (length old - 1)%nat). lia.
    + specialize (IH 0%nat). lia.
  - specialize (IH k). lia.
Qed.

(** ** UTF-8 and Base64 round trips *)

(** Settle every comparison of the goal whose outcome follows from the
    hypotheses by linear arithmetic with division. *)
Ltac by_div_lia := Z.div_mod_to_equations; lia.

Ltac settle_cmp :=
  repeat match goal with
    | |- context [Z.leb ?a ?b] =>
        first
          [ replace (Z.leb a b) with true
              by (symmetry; apply Z.leb_le; by_div_lia)
          | replace (Z.leb a b) with false
              by (symmetry; apply Z.leb_gt; by_div_lia) ]
    | |- context [Z.ltb ?a ?b] =>
        first
          [ replace (Z.ltb a b) with true
              by (symmetry; apply Z.ltb_lt; by_div_lia)
          | replace (Z.ltb a b) with false
              by (symmetry; apply Z.ltb_ge; by_div_lia) ]
    | |- context [Z.eqb ?a ?b] =>
        first
          [ replace (Z.eqb a b) with true
              by (symmetry; apply Z.eqb_eq; by_div_lia)
          | replace (Z.eqb a b) with false
              by (symmetry; apply Z.eqb_neq; by_div_lia) ]
    end.

Definition is_byte (b : Z) : Prop := 0 <= b < 256.
Definition is_ascii (c : Z) : Prop := 0 <= c < 128.

Lemma is_scalar_range (c : Z) :
  Utf8.is_scalar c = true ->
  0 <= c < 55296 \/ 57344 <= c < 1114112.
Proof. unfold Utf8.is_scalar. lia. Qed.

Lemma utf8_encode_ascii (l : pystr) :
  Forall is_ascii l -> Utf8.encode l = Ok l.
Proof.
  induction 1 as [|c l Hc _ IH]; [reflexivity|].
  unfold is_ascii in Hc. cbn [Utf8.encode]. rewrite IH.
  unfold Utf8.is_scalar, Utf8.encode_char. settle_cmp. reflexivity.
Qed.

Lemma utf8_decode_ascii (l : pybytes) :
  Forall is_ascii l -> Utf8.decode l = Ok l.
Proof.
  induction 1 as [|c l Hc _ IH]; [reflexivity|].
  unfold is_ascii in Hc. cbn [Utf8.decode]. rewrite IH.
  settle_cmp. reflexivity.
Qed.

Lemma utf8_decode_encode_char (c : Z) (rest : pybytes) :
  Utf8.is_scalar c = true ->
  Utf8.decode (Utf8.encode_char c ++ rest)
  = obind (Utf8.decode rest) (fun s => Ok (c :: s)).
Proof.
  intros Hc. apply is_scalar_range in Hc.
  unfold Utf8.encode_char.
  destruct (Z.ltb_spec c 128) as [H1|H1].
  { cbn [app Utf8.decode]. settle_cmp. reflexivity. }
  destruct (Z.ltb_spec c 2048) as [H2|H2].
  { cbn [app Utf8.decode]. unfold Utf8.is_cont. settle_cmp.
    cbn [andb]. replace ((192 + c / 64 - 192) * 64 + (128 + c mod 64 - 128))
      with c by by_div_lia. reflexivity. }
  destruct (Z.ltb_spec c 65536) as [H3|H3].
  { cbn [app Utf8.decode]. unfold Utf8.is_cont.
    replace ((224 + c / 4096 - 224) * 4096 + (128 + (c / 64) mod 64 - 128) * 64
             + (128 + c mod 64 - 128)) with c by by_div_lia.
    unfold Utf8.is_scalar.
    destruct Hc as [Hc|Hc]; try lia; settle_cmp; cbn [andb orb]; reflexivity. }
  cbn [app Utf8.decode]. unfold Utf8.is_cont.
  replace ((240 + c / 262144 - 240) * 262144
           + (128 + (c / 4096) mod 64 - 128) * 4096
           + (128 + (c / 64) mod 64 - 128) * 64 + (128 + c mod 64 - 128))
    with c by by_div_lia.
  unfold Utf8.is_scalar.
    destruct Hc as [Hc|Hc]; try lia; settle_cmp; cbn [andb orb]; reflexivity.
Qed.

(** Decoding an encoded string gives the string back. *)
Lemma utf8_round_trip (s : pystr) (bs : pybytes) :
  Utf8.encode s = Ok bs -> Utf8.decode bs = Ok s.
Proof.
  revert bs. induction s as [|c s IH]; intros bs H; cbn [Utf8.encode] in H.
  - injection H as <-. reflexivity.
  - destruct (Utf8.is_scalar c) eqn:Hc; [|discriminate].
    destruct (Utf8.encode s) as [bs'|] eqn:Hs; [|discriminate].
    cbn in H. injection H as <-.
    rewrite utf8_decode_encode_char by exact Hc.
    rewrite (IH bs' eq_refl). reflexivity.
Qed.

Lemma utf8_encode_char_bytes (c : Z) :
  Utf8.is_scalar c = true -> Forall is_byte (Utf8.encode_char c).
Proof.
  intros Hc. apply is_scalar_range in Hc. unfold Utf8.encode_char, is_byte.
  destruct (Z.ltb_spec c 128); [|destruct (Z.ltb_spec c 2048);
    [|destruct (Z.ltb_spec c 65536)]];
    repeat constructor; by_div_lia.
Qed.

Lemma utf8_encode_bytes (s : pystr) (bs : pybytes) :
  Utf8.encode s = Ok bs -> Forall is_byte bs.
Proof.
  revert bs. induction s as [|c s IH]; intros bs H; cbn [Utf8.encode] in H.
  - injection H as <-. constructor.
  - destruct (Utf8.is_scalar c) eqn:Hc; [|discriminate].
    destruct (Utf8.encode s) as [bs'|] eqn:Hs; [|discriminate].
    cbn in H. injection H as <-.
    apply Forall_app. split; [now apply utf8_encode_char_bytes|now apply IH].
Qed.

(** *** Base64 *)

Lemma sextet_b64char (i : Z) :
  0 <= i < 64 -> Base64.sextet (Base64.b64char i) = Some i.
Proof.
  intros Hi. unfold Base64.b64char, Base64.sextet.
  destruct (Z.ltb_spec i 26); [settle_cmp; cbn; f_equal; lia|].
  destruct (Z.ltb_spec i 52); [settle_cmp; cbn; f_equal; lia|].
  destruct (Z.ltb_spec i 62); [settle_cmp; cbn; f_equal; lia|].
  destruct (Z.eqb_spec i 62); [subst; reflexivity|].
  assert (i = 63) as -> by lia. reflexivity.
Qed.

(** The characters of the alphabet: letters, digits, [+] and [/]. *)
Definition is_b64_char (c : Z) : Prop :=
  65 <= c <= 90 \/ 97 <= c <= 122 \/ 48 <= c <= 57 \/ c = 43 \/ c = 47.

Lemma b64char_in_alphabet (i : Z) :
  0 <= i < 64 -> is_b64_char (Base64.b64char i).
Proof.
  intros Hi. unfold Base64.b64char, is_b64_char.
  destruct (Z.ltb_spec i 26); [lia|].
  destruct (Z.ltb_spec i 52); [lia|].
  destruct (Z.ltb_spec i 62); [lia|].
  destruct (Z.eqb_spec i 62); lia.
Qed.

Lemma a2b_go_char (i : Z) (rest : pybytes) (shift nbits : Z) (hadpad : bool) :
  0 <= i < 64 ->
  Base64.a2b_go (Base64.b64char i :: rest) shift nbits hadpad
  = (if 8 <=? nbits + 6 then
       let '(n, out) :=
         Base64.a2b_go rest ((shift * 64 + i) mod 2 ^ (nbits + 6 - 8))
           (nbits + 6 - 8) false in
       (n, (shift * 64 + i) / 2 ^ (nbits + 6 - 8) :: out)
     else Base64.a2b_go rest (shift * 64 + i) (nbits + 6) false).
Proof.
  intros Hi. cbn [Base64.a2b_go].
  rewrite sextet_b64char by exact Hi.
  pose proof (b64char_in_alphabet i Hi) as Ha. unfold is_b64_char in Ha.
  replace (Base64.b64char i =? Base64.pad) with false
    by (symmetry; apply Z.eqb_neq; unfold Base64.pad; lia).
  reflexivity.
Qed.

(** A full group of four characters yields its three bytes and leaves
    the decoder as it found it. *)
Lemma a2b_go_group (a b c : Z) (rest : pybytes) (hadpad : bool) :
  is_byte a -> is_byte b -> is_byte c ->
  Base64.a2b_go
    (Base64.b64char (a / 4) :: Base64.b64char ((a mod 4) * 16 + b / 16)
     :: Base64.b64char ((b mod 16) * 4 + c / 64) :: Base64.b64char (c mod 64)
     :: rest) 0 0 hadpad
  = (let '(n, out) := Base64.a2b_go rest 0 0 false in (n, a :: b :: c :: out)).
Proof.
  unfold is_byte. intros Ha Hb Hc.
  rewrite a2b_go_char by by_div_lia. change (8 <=? 0 + 6) with false.
  cbv iota. rewrite a2b_go_char by by_div_lia.
  change (8 <=? 0 + 6 + 6) with true. cbv iota.
  change (2 ^ (0 + 6 + 6 - 8)) with 16. change (0 + 6 + 6 - 8) with 4.
  rewrite a2b_go_char by by_div_lia.
  change (8 <=? 4 + 6) with true. cbv iota. change (2 ^ (4 + 6 - 8)) with 4.
  change (4 + 6 - 8) with 2.
  rewrite a2b_go_char by by_div_lia.
  change (8 <=? 2 + 6) with true. cbv iota. change (2 ^ (2 + 6 - 8)) with 1.
  change (2 + 6 - 8) with 0.
  match goal with
  | |- context [Base64.a2b_go rest ?s 0 false] =>
      replace s with 0 by by_div_lia
  end.
  destruct (Base64.a2b_go rest 0 0 false) as [n out].
  f_equal. f_equal; [by_div_lia|]. f_equal; [by_div_lia|]. f_equal. by_div_lia.
Qed.

Lemma list_ind3 {A : Type} (P : list A -> Prop) :
  P [] -> (forall a, P [a]) -> (forall a b, P [a; b]) ->
  (forall a b c r, P r -> P (a :: b :: c :: r)) ->
  forall l, P l.
Proof.
  intros H0 H1 H2 H3 l.
  enough (P l /\ (forall a, P (a :: l)) /\ (forall a b, P (a :: b :: l)))
    by tauto.
  induction l as [|x l (IH0 & IH1 & IH2)]; [auto|].
  split; [apply IH1|]. split; [intros; apply IH2|].
  intros a b. apply H3. exact IH0.
Qed.

Lemma a2b_go_b64encode (bs : pybytes) :
  Forall is_byte bs ->
  Base64.a2b_go (Base64.b64encode bs) 0 0 false = (0, bs).
Proof.
  induction bs as [|a|a b|a b c r IH] using list_ind3; intros Hbs.
  - reflexivity.
  - inversion_clear Hbs as [|? ? Ha _]. unfold is_byte in Ha.
    cbn [Base64.b64encode].
    rewrite a2b_go_char by by_div_lia. change (8 <=? 0 + 6) with false.
    cbv iota. rewrite a2b_go_char by by_div_lia.
    change (8 <=? 0 + 6 + 6) with true. cbv iota.
    change (2 ^ (0 + 6 + 6 - 8)) with 16. change (0 + 6 + 6 - 8) with 4.
    cbn [Base64.a2b_go]. unfold Base64.pad. cbn [Z.eqb andb orb Base64.sextet].
    change (Base64.sextet 61) with (@None Z). cbv iota.
    f_equal. f_equal. by_div_lia.
  - inversion_clear Hbs as [|? ? Ha Hb']. inversion_clear Hb' as [|? ? Hb _].
    unfold is_byte in Ha, Hb. cbn [Base64.b64encode].
    rewrite a2b_go_char by by_div_lia. change (8 <=? 0 + 6) with false.
    cbv iota. rewrite a2b_go_char by by_div_lia.
    change (8 <=? 0 + 6 + 6) with true. cbv iota.
    change (2 ^ (0 + 6 + 6 - 8)) with 16. change (0 + 6 + 6 - 8) with 4.
    rewrite a2b_go_char by by_div_lia.
    change (8 <=? 4 + 6) with true. cbv iota. change (2 ^ (4 + 6 - 8)) with 4.
    change (4 + 6 - 8) with 2.
    cbn [Base64.a2b_go]. unfold Base64.pad. cbn [Z.eqb andb orb].
    f_equal. f_equal; [by_div_lia|]. f_equal. by_div_lia.
  - inversion_clear Hbs as [|? ? Ha Hb']. inversion_clear Hb' as [|? ? Hb Hc'].
    inversion_clear Hc' as [|? ? Hc Hr].
    cbn [Base64.b64encode]. rewrite a2b_go_group by assumption.
    rewrite IH by assumption. reflexivity.
Qed.

(** Decoding an encoding gives the bytes back. *)
Lemma base64_round_trip (bs : pybytes) :
  Forall is_byte bs -> Base64.a2b_base64 (Base64.b64encode bs) = Ok bs.
Proof.
  intros H. unfold Base64.a2b_base64. rewrite a2b_go_b64encode by exact H.
  reflexivity.
Qed.

(** The output of the encoder consists of characters of the alphabet and
    the padding character. *)
Lemma b64encode_chars (bs : pybytes) :
  Forall is_byte bs ->
  Forall (fun c => is_b64_char c \/ c = Base64.pad) (Base64.b64encode bs).
Proof.
  induction bs as [|a|a b|a b c r IH] using list_ind3; intros Hbs.
  - constructor.
  - inversion_clear Hbs as [|? ? Ha _]. unfold is_byte in Ha.
    cbn [Base64.b64encode].
    repeat (apply List.Forall_cons;
            [first [left; apply b64char_in_alphabet; by_div_lia | now right]|]).
    apply List.Forall_nil.
  - inversion_clear Hbs as [|? ? Ha Hb']. inversion_clear Hb' as [|? ? Hb _].
    unfold is_byte in Ha, Hb. cbn [Base64.b64encode].
    repeat (apply List.Forall_cons;
            [first [left; apply b64char_in_alphabet; by_div_lia | now right]|]).
    apply List.Forall_nil.
  - inversion_clear Hbs as [|? ? Ha Hb']. inversion_clear Hb' as [|? ? Hb Hc'].
    inversion_clear Hc' as [|? ? Hc Hr]. unfold is_byte in Ha, Hb, Hc.
    cbn [Base64.b64encode].
    repeat (apply List.Forall_cons; [left; apply b64char_in_alphabet; by_div_lia|]).
    now apply IH.
Qed.

(** ** The [%] operator *)

(** A text free of percent signs. *)
Definition no_percent (s : pystr) : Prop := Forall (fun c => c <> 37) s.

Lemma str_mod_go_text (render : pystr -> pystr -> pystr)
  (pre rest : pystr) (arg : option pystr) :
  no_percent pre ->
  Percent.str_mod_go render (pre ++ rest) None arg
  = obind (Percent.str_mod_go render rest None arg) (fun r => Ok (pre ++ r)).
Proof.
  induction 1 as [|c pre Hc _ IH]; cbn [app Percent.str_mod_go].
  - destruct (Percent.str_mod_go render rest None arg); reflexivity.
  - destruct (Z.eqb_spec c 37); [contradiction|].
    rewrite IH. destruct (Percent.str_mod_go render rest None arg); reflexivity.
Qed.

(** A format whose only percent sign is that of one plain [%s]. *)
Lemma str_mod_plain (render : pystr -> pystr -> pystr)
  (pre post arg : pystr) :
  no_percent pre -> no_percent post ->
  Percent.str_mod render (pre ++ py "%s" ++ post) arg = Ok (pre ++ arg ++ post).
Proof.
  intros Hpre Hpost. unfold Percent.str_mod.
  rewrite str_mod_go_text by exact Hpre.
  change (py "%s" ++ post) with (37 :: 115 :: post).
  cbn [Percent.str_mod_go]. change (37 =? 37) with true. cbv iota.
  change (Percent.classify Percent.AfterPercent 115) with Percent.Conv.
  cbv iota. change (Percent.convert render [] 115 arg) with (Ok (A:=pystr) arg).
  cbn [obind].
  replace post with (post ++ []) at 1 by apply app_nil_r.
  rewrite str_mod_go_text by exact Hpost. cbn. rewrite app_nil_r. reflexivity.
Qed.

Lemma no_percent_app (a b : pystr) :
  no_percent a -> no_percent b -> no_percent (a ++ b).
Proof. intros Ha Hb. apply Forall_app. split; assumption. Qed.

(** Settles [no_percent] for a literal of the source. *)
Ltac literal_no_percent :=
  repeat (apply List.Forall_cons; [discriminate|]); apply List.Forall_nil.

(** ** Exceptions raised by the codecs derive from [Exception] *)

Lemma utf8_encode_raises (s : pystr) (e : exn) :
  Utf8.encode s = Raise e -> is_Exception e = true.
Proof.
  induction s as [|c s IH]; cbn [Utf8.encode]; [discriminate|].
  destruct (Utf8.is_scalar c).
  - destruct (Utf8.encode s); cbn; [discriminate|].
    intros [= <-]. now apply IH.
  - intros [= <-]. reflexivity.
Qed.

Lemma obind_raises {A B : Type} (m : outcome A) (k : A -> outcome B) (e : exn) :
  obind m k = Raise e ->
  m = Raise e \/ exists a, m = Ok a /\ k a = Raise e.
Proof.
  destruct m as [a|e']; cbn; intros H.
  - right. exists a. split; [reflexivity|exact H].
  - left. injection H as ->. reflexivity.
Qed.

Lemma utf8_decode_raises (bs : pybytes) (e : exn) :
  Utf8.decode bs = Raise e -> is_Exception e = true.
Proof.
  remember (length bs) as n eqn:Hn. revert bs Hn e.
  induction n as [n IH] using lt_wf_ind. intros bs Hn e.
  assert (Hrec : forall r (f : pystr -> outcome pystr),
             (length r < n)%nat ->
             (forall s, exists s', f s = Ok s') ->
             obind (Utf8.decode r) f = Raise e -> is_Exception e = true).
  { intros r f Hr Hf H. apply obind_raises in H as [H|(a & _ & H)].
    - eapply IH; [exact Hr|reflexivity|exact H].
    - destruct (Hf a) as [s' Hs']. congruence. }
  assert (Hbad : @Utf8.bad_utf8 pystr = Raise e -> is_Exception e = true)
    by (intros [= <-]; reflexivity).
  destruct bs as [|b0 r]; cbn [Utf8.decode]; [discriminate|].
  cbn [length] in Hn.
  repeat match goal with
         | |- (if ?c then _ else _) = _ -> _ => destruct c
         | |- match ?l with [] => _ | _ :: _ => _ end = _ -> _ =>
             destruct l; cbn [length] in Hn
         end;
    try exact Hbad;
    (apply Hrec; [lia|intros s; eexists; reflexivity]).
Qed.

Lemma a2b_base64_raises (bs : pybytes) (e : exn) :
  Base64.a2b_base64 bs = Raise e -> is_Exception e = true.
Proof.
  unfold Base64.a2b_base64. destruct (Base64.a2b_go bs 0 0 false) as [n out].
  destruct (n =? 0); [discriminate|]. intros [= <-]. reflexivity.
Qed.

Lemma b64decode_raises (s : pystr) (e : exn) :
  Base64.b64decode s = Raise e -> is_Exception e = true.
Proof.
  unfold Base64.b64decode. intros H.
  apply obind_raises in H as [H|(a & _ & H)].
  - eapply utf8_encode_raises, H.
  - eapply a2b_base64_raises, H.
Qed.

Lemma decompress_raises (bs : pybytes) (e : exn) :
  Zlib.decompress bs = Raise e -> is_Exception e = true.
Proof.
  unfold Zlib.decompress. destruct (Zlib.inflate_zlib bs);
    [discriminate|intros [= <-]; reflexivity..].
Qed.

(** ** The recursion budget of the decompressor is never exhausted *)

(** A step that returns the rest of the stream does not lengthen it and
    does not run out of budget. *)
Definition within {A : Type} (bits : Zlib.bitstream)
  (rest : A -> Zlib.bitstream) (r : Zlib.res A) : Prop :=
  match r with
  | Zlib.Got a => (length (rest a) <= length bits)%nat
  | Zlib.Corrupt => True
  | Zlib.Starved => False
  end.

(** The same for a step that consumes at least one bit. *)
Definition strictly_within {A : Type} (bits : Zlib.bitstream)
  (rest : A -> Zlib.bitstream) (r : Zlib.res A) : Prop :=
  match r with
  | Zlib.Got a => (length (rest a) < length bits)%nat
  | Zlib.Corrupt => True
  | Zlib.Starved => False
  end.

Lemma read_bits_within (n : nat) (bits : Zlib.bitstream) :
  within bits snd (Zlib.read_bits n bits).
Proof.
  revert bits. induction n as [|n IH]; intros bits; cbn; [lia|].
  destruct bits as [|b r]; [exact I|].
  specialize (IH r). unfold Zlib.rbind.
  destruct (Zlib.read_bits n r) as [[v r1]| |]; cbn in *; [lia|exact I|exact IH].
Qed.

Lemma decode_symbol_within (t : Zlib.tree) (bits : Zlib.bitstream) :
  strictly_within bits snd (Zlib.decode_symbol t bits).
Proof.
  unfold Zlib.decode_symbol. generalize 0 at 1. generalize 0 at 1.
  generalize (Zlib.t_table t). intros table. revert bits.
  induction table as [|cnt table IH]; intros bits cur sum; cbn; [exact I|].
  destruct bits as [|b r]; [exact I|].
  destruct (_ <? 0).
  - destruct (_ !! _); cbn; [lia|exact I].
  - match goal with
    | |- strictly_within _ _ (Zlib.decode_symbol_go _ _ ?s ?c _) =>
        specialize (IH r c s);
        destruct (Zlib.decode_symbol_go table (Zlib.t_trans t) s c r)
          as [[sym r1]| |]
    end; cbn in *; [lia|exact I|exact IH].
Qed.

Lemma read_extra_within (nbits : list nat) (base : list Z) (i : Z)
  (bits : Zlib.bitstream) :
  within bits snd (Zlib.read_extra nbits base i bits).
Proof.
  unfold Zlib.read_extra. destruct (nbits !! _) as [n|]; [|exact I].
  destruct (base !! _) as [b|]; [|exact I].
  pose proof (read_bits_within n bits) as Hr. unfold Zlib.rbind.
  destruct (Zlib.read_bits n bits) as [[v r1]| |]; cbn in *; auto.
Qed.

Lemma read_bytes_within (n : nat) :
  forall bits out, within bits fst (Zlib.read_bytes n bits out).
Proof.
  induction n as [|n IH]; intros bits out; cbn [Zlib.read_bytes];
    [cbn; lia|].
  pose proof (read_bits_within 8 bits) as Hr. unfold Zlib.rbind.
  destruct (Zlib.read_bits 8 bits) as [[v r1]| |]; [|exact I|exact Hr].
  cbv beta iota. specialize (IH r1 (v :: out)).
  destruct (Zlib.read_bytes n r1 (v :: out)) as [[r2 o2]| |]; cbn in *;
    [lia|exact I|exact IH].
Qed.

Lemma align_length (bits : Zlib.bitstream) :
  (length (Zlib.align bits) <= length bits)%nat.
Proof. unfold Zlib.align. rewrite length_drop. lia. Qed.

Lemma inflate_stored_within (bits : Zlib.bitstream) (out : list Z) :
  within bits fst (Zlib.inflate_stored bits out).
Proof.
  unfold Zlib.inflate_stored, Zlib.rbind.
  pose proof (align_length bits) as Ha.
  pose proof (read_bits_within 16 (Zlib.align bits)) as H1.
  destruct (Zlib.read_bits 16 (Zlib.align bits)) as [[v1 r1]| |];
    [|exact I|exact H1].
  pose proof (read_bits_within 16 r1) as H2.
  destruct (Zlib.read_bits 16 r1) as [[v2 r2]| |]; [|exact I|exact H2].
  cbv beta iota. destruct (_ =? _); [|exact I].
  pose proof (read_bytes_within (Z.to_nat v1) r2 out) as H3.
  destruct (Zlib.read_bytes (Z.to_nat v1) r2 out) as [[r3 o3]| |];
    cbn in *; [lia|exact I|exact H3].
Qed.

Lemma inflate_codes_within (fuel : nat) :
  forall lt dt bits out,
    (length bits < fuel)%nat ->
    within bits fst (Zlib.inflate_codes fuel lt dt bits out).
Proof.
  induction fuel as [|fuel IH]; intros lt dt bits out Hfuel; [lia|].
  cbn [Zlib.inflate_codes]. unfold Zlib.rbind.
  pose proof (decode_symbol_within lt bits) as H1.
  destruct (Zlib.decode_symbol lt bits) as [[sym b1]| |]; [|exact I|exact H1].
  cbv beta iota. cbn in H1.
  destruct (sym <? 256).
  { specialize (IH lt dt b1 (sym :: out)).
    destruct (Zlib.inflate_codes fuel lt dt b1 (sym :: out)) as [[b2 o2]| |];
      cbn in *; [|exact I|apply IH; lia].
    assert (length b2 <= length b1)%nat by (apply IH; lia). lia. }
  destruct (sym =? 256); [cbn; lia|].
  pose proof (read_extra_within Zlib.length_bits Zlib.length_base (sym - 257) b1)
    as H2.
  destruct (Zlib.read_extra Zlib.length_bits Zlib.length_base (sym - 257) b1)
    as [[len1 b2]| |]; [|exact I|exact H2].
  cbv beta iota. cbn in H2.
  pose proof (decode_symbol_within dt b2) as H3.
  destruct (Zlib.decode_symbol dt b2) as [[dist b3]| |]; [|exact I|exact H3].
  cbv beta iota. cbn in H3.
  pose proof (read_extra_within Zlib.dist_bits Zlib.dist_base dist b3) as H4.
  destruct (Zlib.read_extra Zlib.dist_bits Zlib.dist_base dist b3)
    as [[offs b4]| |]; [|exact I|exact H4].
  cbv beta iota. cbn in H4.
  destruct (_ <? offs); [exact I|].
  match goal with
  | |- within _ _ (Zlib.inflate_codes fuel lt dt b4 ?o) =>
      specialize (IH lt dt b4 o);
      destruct (Zlib.inflate_codes fuel lt dt b4 o) as [[b5 o5]| |]
  end; cbn in *; [|exact I|apply IH; lia].
  assert (length b5 <= length b4)%nat by (apply IH; lia). lia.
Qed.

Lemma read_clens_within (idx : list nat) :
  forall bits lengths, within bits snd (Zlib.read_clens idx bits lengths).
Proof.
  induction idx as [|i idx IH]; intros bits lengths; cbn [Zlib.read_clens];
    [cbn; lia|].
  pose proof (read_bits_within 3 bits) as Hr. unfold Zlib.rbind.
  destruct (Zlib.read_bits 3 bits) as [[v r1]| |]; [|exact I|exact Hr].
  cbv beta iota. specialize (IH r1 (<[i:=v]> lengths)).
  destruct (Zlib.read_clens idx r1 (<[i:=v]> lengths)) as [[l2 r2]| |];
    cbn in *; [lia|exact I|exact IH].
Qed.

Lemma read_lengths_within (fuel : nat) :
  forall ct todo bits lengths,
    0 <= todo -> (Z.to_nat todo <= fuel)%nat ->
    within bits snd (Zlib.read_lengths fuel ct todo bits lengths).
Proof.
  induction fuel as [|fuel IH]; intros ct todo bits lengths Hpos Hfuel;
    cbn [Zlib.read_lengths].
  - replace (todo =? 0) with true by (symmetry; apply Z.eqb_eq; lia). cbn. lia.
  - destruct (Z.eqb_spec todo 0) as [_|Hne]; [cbn; lia|].
    unfold Zlib.rbind.
    pose proof (decode_symbol_within ct bits) as H1.
    destruct (Zlib.decode_symbol ct bits) as [[sym b1]| |]; [|exact I|exact H1].
    cbv beta iota. cbn in H1.
    destruct (sym <? 16).
    { specialize (IH ct (todo - 1) b1 (sym :: lengths)).
      destruct (Zlib.read_lengths fuel ct (todo - 1) b1 (sym :: lengths))
        as [[l2 b2]| |]; cbn in *; [|exact I|apply IH; lia].
      assert (length b2 <= length b1)%nat by (apply IH; lia). lia. }
    match goal with
    | |- within _ _ (match ?m with _ => _ end) =>
        destruct m as [[[fill lbits] lbase]| |] eqn:Hm
    end; [|exact I|].
    2:{ destruct (sym =? 16); [destruct lengths; discriminate|].
        destruct (sym =? 17); discriminate. }
    assert (Hbase : 3 <= lbase).
    { destruct (sym =? 16); [destruct lengths; [discriminate|]|].
      - injection Hm as _ _ <-. lia.
      - destruct (sym =? 17); injection Hm as _ _ <-; lia. }
    pose proof (read_bits_within lbits b1) as H2.
    assert (Hv : match Zlib.read_bits lbits b1 with
                 | Zlib.Got (v, _) => 0 <= v
                 | _ => True
                 end).
    { clear. generalize b1. induction lbits as [|n IHn]; intros b; cbn; [lia|].
      destruct b as [|x r]; [exact I|]. specialize (IHn r). unfold Zlib.rbind.
      destruct (Zlib.read_bits n r) as [[v r1]| |]; cbn; auto.
      destruct x; cbn; lia. }
    destruct (Zlib.read_bits lbits b1) as [[v b2]| |]; [|exact I|exact H2].
    cbv beta iota zeta. cbn in H2.
    destruct (Z.ltb_spec todo (lbase + v)); [exact I|].
    match goal with
    | |- within _ _ (Zlib.read_lengths fuel ct ?t b2 ?l) =>
        specialize (IH ct t b2 l);
        destruct (Zlib.read_lengths fuel ct t b2 l) as [[l3 b3]| |]
    end; cbn in *; [|exact I|apply IH; lia].
    assert (length b3 <= length b2)%nat by (apply IH; lia). lia.
Qed.

Lemma decode_trees_within (bits : Zlib.bitstream) :
  within bits snd (Zlib.decode_trees bits).
Proof.
  unfold Zlib.decode_trees, Zlib.rbind.
  pose proof (read_bits_within 5 bits) as H1.
  assert (Hnn : forall n b, match Zlib.read_bits n b with
                            | Zlib.Got (v, _) => 0 <= v
                            | _ => True
                            end).
  { induction n as [|n IHn]; intros b; cbn; [lia|].
    destruct b as [|x r]; [exact I|]. specialize (IHn r). unfold Zlib.rbind.
    destruct (Zlib.read_bits n r) as [[v r1]| |]; cbn; auto.
    destruct x; cbn; lia. }
  pose proof (Hnn 5%nat bits) as P1.
  destruct (Zlib.read_bits 5 bits) as [[hlit b1]| |]; [|exact I|exact H1].
  pose proof (read_bits_within 5 b1) as H2. pose proof (Hnn 5%nat b1) as P2.
  destruct (Zlib.read_bits 5 b1) as [[hdist b2]| |]; [|exact I|exact H2].
  pose proof (read_bits_within 4 b2) as H3.
  destruct (Zlib.read_bits 4 b2) as [[hclen b3]| |]; [|exact I|exact H3].
  cbv beta iota zeta.
  match goal with
  | |- within _ _ (match Zlib.read_clens ?i b3 ?l with _ => _ end) =>
      pose proof (read_clens_within i b3 l) as H4;
      destruct (Zlib.read_clens i b3 l) as [[clens b4]| |]
  end; [|exact I|exact H4].
  match goal with
  | |- within _ _ (match Zlib.read_lengths ?f ?ct ?t b4 ?l with _ => _ end) =>
      pose proof (read_lengths_within f ct t b4 l) as H5;
      destruct (Zlib.read_lengths f ct t b4 l) as [[lengths b5]| |]
  end; cbn in *; [|exact I|apply H5; lia].
  assert (length b5 <= length b4)%nat by (apply H5; lia). lia.
Qed.

Lemma inflate_block_within (fuel : nat) (btype : Z) (bits : Zlib.bitstream)
  (out : list Z) :
  (length bits < fuel)%nat ->
  within bits fst (Zlib.inflate_block fuel btype bits out).
Proof.
  intros Hfuel. unfold Zlib.inflate_block.
  destruct (btype =? 0); [apply inflate_stored_within|].
  destruct (btype =? 1); [apply inflate_codes_within, Hfuel|].
  destruct (btype =? 2); [|exact I].
  unfold Zlib.rbind. pose proof (decode_trees_within bits) as H1.
  destruct (Zlib.decode_trees bits) as [[[lt dt] b1]| |]; [|exact I|exact H1].
  cbn in H1.
  pose proof (inflate_codes_within fuel lt dt b1 out) as H2.
  destruct (Zlib.inflate_codes fuel lt dt b1 out) as [[b2 o2]| |];
    cbn in *; [|exact I|apply H2; lia].
  assert (length b2 <= length b1)%nat by (apply H2; lia). lia.
Qed.

Lemma inflate_blocks_within (fuel : nat) :
  forall bits out,
    (length bits < fuel)%nat ->
    within bits fst (Zlib.inflate_blocks fuel bits out).
Proof.
  induction fuel as [|fuel IH]; intros bits out Hfuel; [lia|].
  cbn [Zlib.inflate_blocks]. unfold Zlib.rbind.
  pose proof (read_bits_within 1 bits) as H1.
  assert (Hone : match Zlib.read_bits 1 bits with
                 | Zlib.Got (_, r) => (length r < length bits)%nat
                 | _ => True
                 end).
  { cbn. destruct bits; cbn; [exact I|lia]. }
  destruct (Zlib.read_bits 1 bits) as [[bfinal b1]| |]; [|exact I|exact H1].
  pose proof (read_bits_within 2 b1) as H2.
  destruct (Zlib.read_bits 2 b1) as [[btype b2]| |]; [|exact I|exact H2].
  cbn in H2.
  pose proof (inflate_block_within (S (length b2)) btype b2 out) as H3.
  destruct (Zlib.inflate_block (S (length b2)) btype b2 out) as [[b3 o3]| |];
    cbn in H3; [|exact I|apply H3; lia].
  cbv beta iota.
  assert (length b3 <= length b2)%nat by (apply H3; lia).
  destruct (bfinal =? 1); [cbn; lia|].
  specialize (IH b3 o3).
  destruct (Zlib.inflate_blocks fuel b3 o3) as [[b4 o4]| |]; cbn in *;
    [|exact I|apply IH; lia].
  assert (length b4 <= length b3)%nat by (apply IH; lia). lia.
Qed.

(** The budget [decompress] hands out always suffices: whatever the
    input, the decompressor ends with the output or with corrupt data. *)
Lemma decompress_budget (data : pybytes) :
  Zlib.inflate_zlib data <> Zlib.Starved.
Proof.
  unfold Zlib.inflate_zlib.
  destruct data as [|cmf [|flg body]]; try discriminate.
  destruct (Zlib.zlib_header_ok cmf flg); [|discriminate].
  unfold Zlib.rbind.
  pose proof (inflate_blocks_within
                (S (length (Zlib.bits_of_bytes body)))
                (Zlib.bits_of_bytes body) []) as H1.
  destruct (Zlib.inflate_blocks _ _ _) as [[b1 o1]| |];
    [|discriminate|cbn in H1; exfalso; apply H1; lia].
  pose proof (read_bits_within 8 (Zlib.align b1)) as H2.
  destruct (Zlib.read_bits 8 (Zlib.align b1)) as [[v1 r1]| |];
    [|discriminate|contradiction].
  pose proof (read_bits_within 8 r1) as H3.
  destruct (Zlib.read_bits 8 r1) as [[v2 r2]| |]; [|discriminate|contradiction].
  pose proof (read_bits_within 8 r2) as H4.
  destruct (Zlib.read_bits 8 r2) as [[v3 r3]| |]; [|discriminate|contradiction].
  pose proof (read_bits_within 8 r3) as H5.
  destruct (Zlib.read_bits 8 r3) as [[v4 r4]| |]; [|discriminate|contradiction].
  cbv beta iota zeta. destruct (_ =? _); discriminate.
Qed.

(** ** The command decoder *)

Definition no_colon (s : pystr) : Prop := Forall (fun c => c <> 58) s.

Lemma split_three (name metadata payload : pystr) :
  no_colon name -> no_colon metadata -> no_colon payload ->
  split 58 (name ++ py ":" ++ metadata ++ py ":" ++ payload)
  = [name; metadata; payload].
Proof.
  intros Hn Hm Hp. change (py ":") with [58]. cbn [app].
  rewrite split_app_sep by exact Hn.
  rewrite split_app_sep by exact Hm.
  rewrite split_no_sep by exact Hp. reflexivity.
Qed.

Lemma b64_text_ascii (l : pybytes) :
  Forall (fun c => is_b64_char c \/ c = Base64.pad) l -> Forall is_ascii l.
Proof.
  intros H. eapply Forall_impl; [exact H|].
  intros c. unfold is_b64_char, is_ascii, Base64.pad. lia.
Qed.

Lemma b64_text_not_debug (l : pystr) :
  Forall (fun c => is_b64_char c \/ c = Base64.pad) l ->
  startswith l (py "debug:") = false.
Proof.
  intros Hl. unfold startswith.
  destruct (is_prefix (py "debug:") l) eqn:Hp; [exfalso|reflexivity].
  apply is_prefix_spec in Hp as [t ->].
  apply Forall_app in Hl as [Hl _].
  rewrite Forall_forall in Hl. specialize (Hl 58).
  unfold is_b64_char, Base64.pad in Hl.
  assert (58 ∈ py "debug:") by (apply list_elem_of_In; vm_compute; tauto).
  specialize (Hl H). lia.
Qed.

(** What the sender puts on the wire. *)
Lemma transport_encode_inv (name metadata payload line : pystr) :
  transport_encode name metadata payload = Ok line ->
  exists plain,
    Utf8.encode (name ++ py ":" ++ metadata ++ py ":" ++ payload) = Ok plain
    /\ line = Base64.b64encode plain
    /\ Forall (fun c => is_b64_char c \/ c = Base64.pad) line.
Proof.
  unfold transport_encode. intros H.
  destruct (Utf8.encode _) as [plain|] eqn:He; [|discriminate].
  cbn [obind] in H. exists plain.
  pose proof (b64encode_chars plain (utf8_encode_bytes _ _ He)) as Hc.
  rewrite utf8_decode_ascii in H by (apply b64_text_ascii, Hc).
  injection H as <-. auto.
Qed.

(** C2 (as amended). For every triple of strings none of which contains
    a colon, the line the transport encoding produces for the triple is
    decoded to exactly that triple, and decoding logs nothing. *)
Theorem transport_round_trip (hw : board) (name metadata payload line : pystr)
  (st : state) :
  no_colon name -> no_colon metadata -> no_colon payload ->
  transport_encode name metadata payload = Ok line ->
  parse_command hw (Some line) st
  = (Ok [Some name; Some metadata; Some payload], st).
Proof.
  intros Hn Hm Hp Henc.
  destruct (transport_encode_inv _ _ _ _ Henc) as (plain & Hplain & Hline & Hc).
  unfold parse_command.
  rewrite (b64_text_not_debug line Hc), andb_false_r.
  unfold try_except, try_step, bind, lift, ret.
  rewrite utf8_encode_ascii by (apply b64_text_ascii, Hc).
  unfold Base64.decodebytes. rewrite Hline.
  rewrite base64_round_trip by (eapply utf8_encode_bytes, Hplain).
  rewrite (utf8_round_trip _ _ Hplain).
  rewrite split_three by assumption. reflexivity.
Qed.

Lemma transport_round_trip_witness :
  parse_command badge (Some (py "c3RvcmUtYTpuYW1lPU1pa2U6ZUp3PQ==")) power_on
  = (Ok [Some (py "store-a"); Some (py "name=Mike"); Some (py "eJw=")],
     power_on).
Proof.
  apply (transport_round_trip badge (py "store-a") (py "name=Mike") (py "eJw=")).
  - unfold no_colon. repeat (apply List.Forall_cons; [discriminate|]).
    apply List.Forall_nil.
  - unfold no_colon. repeat (apply List.Forall_cons; [discriminate|]).
    apply List.Forall_nil.
  - unfold no_colon. repeat (apply List.Forall_cons; [discriminate|]).
    apply List.Forall_nil.
  - vm_compute. reflexivity.
Defined.

(** C2 (as stated) fails: a field that contains a colon does not survive.
    The triple of "store-a", "12:30" and the empty string is sent as the line below and
    decoded to the sentinel. *)
Lemma transport_round_trip_colon :
  transport_encode (py "store-a") (py "12:30") []
  = Ok (py "c3RvcmUtYToxMjozMDo=")
  /\ fst (parse_command badge (Some (py "c3RvcmUtYToxMjozMDo=")) power_on)
     = Ok COMMAND_NONE
  /\ COMMAND_NONE <> [Some (py "store-a"); Some (py "12:30"); Some []].
Proof.
  split; [vm_compute; reflexivity|].
  split; [vm_compute; reflexivity|discriminate].
Qed.

(** *** The debug bypass *)

Lemma debug_marker_unbordered : unbordered (py "debug:") = true.
Proof. vm_compute. reflexivity. Qed.

Lemma parse_command_debug (hw : board) (line : pystr) (st : state) :
  startswith line (py "debug:") = true ->
  fst (parse_command hw (Some line) st)
  = Ok (let parts := split 58 (replace line (py "debug:") []) in
        if len parts =? 3 then map (fun p => Some (strip p)) parts
        else COMMAND_NONE).
Proof.
  intros Hs. unfold parse_command. rewrite Hs. cbn [DEBUG andb].
  cbv zeta. destruct (len (split 58 _) =? 3); cbn [negb]; [reflexivity|].
  unfold bind, lift, str_mod.
  change (py "Invalid debug command: '%s'")
    with (py "Invalid debug command: '" ++ py "%s" ++ py "'").
  rewrite str_mod_plain by literal_no_percent.
  reflexivity.
Qed.

(** C10. In diagnostic mode, a line that begins with the marker
    ["debug:"] is decoded from the text obtained by removing the marker
    wherever it occurs, not only at the front: for every occurrence (the
    line read as [pre ++ "debug:" ++ post]) the text is what results from
    [pre] followed by what results from [post].  The fields are the
    trimmed colon-separated parts of that text, so a field that contains
    the marker reaches the dispatcher without it. *)
Theorem debug_marker_removed_everywhere (hw : board) (line : pystr) (st : state) :
  startswith line (py "debug:") = true ->
  let text := replace line (py "debug:") [] in
  (forall pre post,
      line = pre ++ py "debug:" ++ post ->
      text = replace pre (py "debug:") []
             ++ replace post (py "debug:") [])
  /\ fst (parse_command hw (Some line) st)
     = Ok (if len (split 58 text) =? 3
           then map (fun p => Some (strip p)) (split 58 text)
           else COMMAND_NONE).
Proof.
  intros Hs text. split.
  - intros pre post ->. unfold text.
    rewrite replace_occurrence by (exact debug_marker_unbordered || discriminate).
    reflexivity.
  - apply (parse_command_debug hw line st Hs).
Qed.

Lemma debug_marker_removed_everywhere_witness :
  fst (parse_command badge (Some (py "debug:store-a:debug:on:eJw=")) power_on)
  = Ok [Some (py "store-a"); Some (py "on"); Some (py "eJw=")].
Proof.
  exact (proj2 (debug_marker_removed_everywhere badge
                  (py "debug:store-a:debug:on:eJw=") power_on eq_refl)).
Defined.

(** *** Failures of the decoder *)

(** C6 fails on the code: the failure message is built by interpolating
    the received line into a string that is then used as a [%] format.
    The one-character line ["%"] is not valid Base64 text for a command;
    building the message raises [ValueError] inside the [except] clause,
    the exception leaves [parse_command], and the main loop with it. *)
Theorem parse_command_percent_raises (hw : board) (st : state) :
  parse_command hw (Some (py "%")) st
  = (Raise (MkExn ValueError (py "unsupported format character")), st)
  /\ exists st',
      main_loop badge [receiving (py "%"); quiet] power_on
      = (Raise (MkExn ValueError (py "unsupported format character")), st')
      /\ iteration st' = 0.
Proof.
  split; [reflexivity|].
  eexists. split; [vm_compute; reflexivity|reflexivity].
Qed.

(** ** Loops *)

(** An invariant [I], indexed by the elements already processed, carried
    through [for_each]: either the loop ends normally and the invariant
    holds of the whole list, or some element raised in a state that
    satisfied the invariant. *)
Lemma for_each_inv {A S : Type} (I : list A -> S -> Prop)
  (body : A -> S -> outcome S) (l : list A) :
  (forall d a r s s1,
      l = d ++ a :: r -> I d s -> body a s = Ok s1 -> I (d ++ [a]) s1) ->
  forall d rem s,
    l = d ++ rem -> I d s ->
    match for_each rem body s with
    | Ok s' => I l s'
    | Raise e =>
        exists d' a r s1, l = d' ++ a :: r /\ I d' s1 /\ body a s1 = Raise e
    end.
Proof.
  intros Hstep d rem. revert d.
  induction rem as [|a rem IH]; intros d s Hl HI; cbn [for_each].
  - rewrite app_nil_r in Hl. subst d. exact HI.
  - destruct (body a s) as [s1|e] eqn:Hb; cbn [obind].
    + apply (IH (d ++ [a])).
      * rewrite <- app_assoc. exact Hl.
      * eapply Hstep; eauto.
    + exists d, a, rem, s. auto.
Qed.

Lemma range_length (n : Z) : len (range n) = Z.max 0 n.
Proof. unfold len, range. rewrite length_map, length_seq. lia. Qed.

(** The element that follows a prefix of [range n] is the length of the
    prefix. *)
Lemma range_split (n : Z) (d : list Z) (a : Z) (r : list Z) :
  range n = d ++ a :: r -> a = len d /\ 0 <= a < n.
Proof.
  intros H. unfold range in H.
  assert (Hlook : map Z.of_nat (seq 0 (Z.to_nat n)) !! length d = Some a).
  { rewrite H. rewrite lookup_app_r by lia. now rewrite Nat.sub_diag. }
  rewrite list_lookup_fmap in Hlook.
  destruct (seq 0 (Z.to_nat n) !! length d) as [k|] eqn:Hk; [|discriminate].
  apply lookup_seq in Hk as [-> Hlt]. cbn in Hlook. injection Hlook as <-.
  unfold len. lia.
Qed.

(** ** The image codec *)

Section Codec.

Variable hw : board.

Let W := display_width hw.
Let H := display_height hw.

(** The body of the inner loop, the inner loop and the two loops. *)
Definition unpack_pixel (buf : pybytes) (y x : Z) (bm : bitmap) : outcome bitmap :=
  let byte_index := (y * (display_width hw / 8)) + (x / 8) in
  let bit_index := 7 - (x mod 8) in
  let* byte := bytes_get buf byte_index in
  let pixel_value := Z.land (Z.shiftr byte bit_index) 1 in
  bitmap_set bm x y pixel_value.

Definition unpack_row (buf : pybytes) (y : Z) (bm : bitmap) : outcome bitmap :=
  for_each (range (display_width hw)) (unpack_pixel buf y) bm.

Definition unpack (buf : pybytes) : outcome bitmap :=
  for_each (range (display_height hw)) (unpack_row buf)
    (new_bitmap (display_width hw) (display_height hw) 2).

Lemma decode_payload_unpack (payload : pystr) :
  decode_payload hw payload
  = (let* compressed_bytes := Base64.b64decode payload in
     let* binarized_bytes := Zlib.decompress compressed_bytes in
     let* bitmap := unpack binarized_bytes in
     Ok (bitmap, [0x000000; 0xFFFFFF])).
Proof. reflexivity. Qed.

(** A bitmap of the size of the display, with two values. *)
Definition display_sized (bm : bitmap) : Prop :=
  bm_width bm = W /\ bm_height bm = H /\ bm_value_count bm = 2
  /\ length (bm_data bm) = Z.to_nat (W * H).

(** Pixel [(x, y)] of [bm] is the bit of [buf] the layout assigns to it. *)
Definition pixel_ok (buf : pybytes) (bm : bitmap) (x y : Z) : Prop :=
  exists byte,
    buf !! Z.to_nat (y * (W / 8) + x / 8) = Some byte
    /\ bitmap_get bm x y = Some (Z.land (Z.shiftr byte (7 - x mod 8)) 1).

Definition bytes_oob : exn := MkExn IndexError (py "bytes index out of range").

Lemma new_bitmap_sized : display_sized (new_bitmap W H 2).
Proof.
  unfold display_sized, new_bitmap. cbn. repeat split.
  apply repeat_length.
Qed.

Lemma land_1_range (v : Z) : 0 <= Z.land v 1 < 2.
Proof.
  change 1 with (Z.ones 1). rewrite Z.land_ones by lia.
  change (2 ^ 1) with 2. apply Z.mod_pos_bound. lia.
Qed.

Lemma pixel_index_bound (x y : Z) :
  0 <= x < W -> 0 <= y < H -> 0 <= x + y * W < W * H.
Proof. intros Hx Hy. nia. Qed.

Lemma pixel_index_inj (x y x' y' : Z) :
  0 <= x < W -> 0 <= x' < W -> x + y * W = x' + y' * W -> x = x' /\ y = y'.
Proof.
  intros Hx Hx' Heq.
  assert (y = y').
  { assert (Hd : (x + y * W) / W = (x' + y' * W) / W) by (rewrite Heq; reflexivity).
    rewrite !Z.div_add in Hd by lia.
    rewrite !Z.div_small in Hd by lia. lia. }
  subst y'. lia.
Qed.

(** What one step of the inner loop does. *)
Lemma unpack_pixel_cases (buf : pybytes) (y x : Z) (bm : bitmap) :
  display_sized bm -> 0 <= x < W -> 0 <= y < H ->
  match buf !! Z.to_nat (y * (W / 8) + x / 8) with
  | Some byte =>
      unpack_pixel buf y x bm
      = Ok (MkBitmap W H 2
              (<[Z.to_nat (x + y * W) := Z.land (Z.shiftr byte (7 - x mod 8)) 1]>
                 (bm_data bm)))
  | None => unpack_pixel buf y x bm = Raise bytes_oob
  end.
Proof.
  intros (Hw & Hh & Hv & Hlen) Hx Hy.
  unfold unpack_pixel, bytes_get. fold W.
  assert (Hidx : 0 <= y * (W / 8) + x / 8).
  { assert (0 <= W / 8) by (apply Z.div_pos; lia).
    assert (0 <= x / 8) by (apply Z.div_pos; lia). nia. }
  assert (Hnn : (y * (W / 8) + x / 8 <? 0) = false) by (apply Z.ltb_ge; lia).
  rewrite Hnn. cbv iota. rewrite Hnn.
  destruct (buf !! Z.to_nat (y * (W / 8) + x / 8)) as [byte|]; [|reflexivity].
  cbn [obind]. unfold bitmap_set. rewrite Hw, Hh, Hv.
  pose proof (land_1_range (Z.shiftr byte (7 - x mod 8))) as Hr.
  replace (x <? 0) with false by (symmetry; apply Z.ltb_ge; lia).
  replace (W <=? x) with false by (symmetry; apply Z.leb_gt; lia).
  replace (y <? 0) with false by (symmetry; apply Z.ltb_ge; lia).
  replace (H <=? y) with false by (symmetry; apply Z.leb_gt; lia).
  cbn [orb].
  replace (_ <? 0) with false by (symmetry; apply Z.ltb_ge; lia).
  replace (2 <=? _) with false by (symmetry; apply Z.leb_gt; lia).
  reflexivity.
Qed.

Lemma bitmap_get_eq (bm : bitmap) (x y : Z) :
  bm_width bm = W -> bm_height bm = H -> 0 <= x < W -> 0 <= y < H ->
  bitmap_get bm x y = bm_data bm !! Z.to_nat (x + y * W).
Proof.
  intros Hw Hh Hx Hy. unfold bitmap_get. rewrite Hw, Hh.
  replace (x <? 0) with false by (symmetry; apply Z.ltb_ge; lia).
  replace (W <=? x) with false by (symmetry; apply Z.leb_gt; lia).
  replace (y <? 0) with false by (symmetry; apply Z.ltb_ge; lia).
  replace (H <=? y) with false by (symmetry; apply Z.leb_gt; lia).
  reflexivity.
Qed.

(** A step that succeeds keeps the size, sets its own pixel and leaves
    the others alone. *)
Lemma unpack_pixel_ok (buf : pybytes) (y x : Z) (bm bm1 : bitmap) :
  display_sized bm -> 0 <= x < W -> 0 <= y < H ->
  unpack_pixel buf y x bm = Ok bm1 ->
  display_sized bm1
  /\ pixel_ok buf bm1 x y
  /\ (forall x' y', 0 <= x' < W -> 0 <= y' < H -> (x', y') <> (x, y) ->
        bitmap_get bm1 x' y' = bitmap_get bm x' y').
Proof.
  intros Hs Hx Hy Hok.
  pose proof (unpack_pixel_cases buf y x bm Hs Hx Hy) as Hc.
  destruct Hs as (Hw & Hh & Hv & Hlen).
  pose proof (pixel_index_bound x y Hx Hy) as Hb.
  destruct (buf !! Z.to_nat (y * (W / 8) + x / 8)) as [byte|] eqn:Hbyte;
    [|congruence].
  rewrite Hc in Hok. injection Hok as <-. split; [|split].
  - unfold display_sized. cbn. rewrite length_insert. auto.
  - exists byte. split; [exact Hbyte|].
    rewrite bitmap_get_eq by (cbn; auto). cbn [bm_data].
    apply list_lookup_insert_eq. lia.
  - intros x' y' Hx' Hy' Hne.
    rewrite !bitmap_get_eq by (cbn; auto). cbn [bm_data].
    apply list_lookup_insert_ne. intros Heq.
    pose proof (pixel_index_bound x' y' Hx' Hy').
    apply Z2Nat.inj in Heq; [|lia..].
    apply pixel_index_inj in Heq as [-> ->]; [congruence|lia..].
Qed.

(** The invariant of the inner loop in row [y], after the columns [d]. *)
Definition row_inv (buf : pybytes) (y : Z) (d : list Z) (bm : bitmap) : Prop :=
  display_sized bm
  /\ (forall x' y', 0 <= x' < W -> 0 <= y' < y -> pixel_ok buf bm x' y')
  /\ (forall x', 0 <= x' < len d -> pixel_ok buf bm x' y).

(** The invariant of the outer loop, after the rows [d]. *)
Definition rows_inv (buf : pybytes) (d : list Z) (bm : bitmap) : Prop :=
  display_sized bm
  /\ (forall x' y', 0 <= x' < W -> 0 <= y' < len d -> pixel_ok buf bm x' y').

Lemma pixel_ok_preserved (buf : pybytes) (bm bm1 : bitmap) (x y : Z) :
  bitmap_get bm1 x y = bitmap_get bm x y ->
  pixel_ok buf bm x y -> pixel_ok buf bm1 x y.
Proof. intros Heq (byte & Hb & Hg). exists byte. rewrite Heq. auto. Qed.

Lemma row_inv_step (buf : pybytes) (y : Z) :
  0 <= y < H ->
  forall d a r bm bm1,
    range W = d ++ a :: r -> row_inv buf y d bm ->
    unpack_pixel buf y a bm = Ok bm1 -> row_inv buf y (d ++ [a]) bm1.
Proof.
  intros Hy d a r bm bm1 Hr (Hs & Hrows & Hcols) Hok.
  apply range_split in Hr as [Ha Hrange].
  destruct (unpack_pixel_ok buf y a bm bm1 Hs Hrange Hy Hok) as (Hs1 & Hpix & Hoth).
  split; [exact Hs1|]. split.
  - intros x' y' Hx' Hy'. eapply pixel_ok_preserved; [|apply Hrows; lia].
    apply Hoth; [lia|lia|]. intros [= -> ->]. lia.
  - intros x' Hx'. unfold len in Hx', Ha, Hcols.
    rewrite length_app in Hx'. cbn [length] in Hx'.
    destruct (Z.eq_dec x' a) as [->|Hne]; [exact Hpix|].
    eapply pixel_ok_preserved; [|apply Hcols; lia].
    apply Hoth; [lia|lia|]. intros [= ->]. congruence.
Qed.

(** What one row does: it ends with the row filled in, or a step raised
    on a bitmap of the right size. *)
Lemma unpack_row_inv (buf : pybytes) (y : Z) (bm : bitmap) :
  0 <= y < H -> row_inv buf y [] bm ->
  match unpack_row buf y bm with
  | Ok bm1 => row_inv buf y (range W) bm1
  | Raise e =>
      exists x bm1, 0 <= x < W /\ display_sized bm1
                    /\ unpack_pixel buf y x bm1 = Raise e
  end.
Proof.
  intros Hy Hinv. unfold unpack_row. fold W.
  pose proof (for_each_inv (row_inv buf y) (unpack_pixel buf y) (range W)
                (row_inv_step buf y Hy) [] (range W) bm eq_refl Hinv) as Hf.
  destruct (for_each (range W) (unpack_pixel buf y) bm) as [bm1|e]; [exact Hf|].
  destruct Hf as (d & a & r & s1 & Hr & (Hs & _) & Hb).
  apply range_split in Hr as [_ Ha]. eauto.
Qed.

Lemma rows_inv_step (buf : pybytes) :
  forall d a r bm bm1,
    range H = d ++ a :: r -> rows_inv buf d bm ->
    unpack_row buf a bm = Ok bm1 -> rows_inv buf (d ++ [a]) bm1.
Proof.
  intros d a r bm bm1 Hr (Hs & Hrows) Hok.
  apply range_split in Hr as [Ha Hrange].
  assert (Hinit : row_inv buf a [] bm).
  { split; [exact Hs|]. split.
    - intros x' y' Hx' Hy'. apply Hrows; lia.
    - intros x' Hx'. unfold len in Hx'. cbn [length] in Hx'. lia. }
  pose proof (unpack_row_inv buf a bm Hrange Hinit) as Hrow.
  rewrite Hok in Hrow. destruct Hrow as (Hs1 & Hrows1 & Hcols1).
  split; [exact Hs1|].
  intros x' y' Hx' Hy'. unfold len in Hy', Ha. rewrite length_app in Hy'.
  cbn [length] in Hy'. destruct (Z.eq_dec y' a) as [->|Hne].
  - apply Hcols1. rewrite range_length. lia.
  - apply Hrows1; [lia|lia].
Qed.

(** What the two loops do. *)
Lemma unpack_inv (buf : pybytes) :
  match unpack buf with
  | Ok bm =>
      display_sized bm
      /\ forall x y, 0 <= x < W -> 0 <= y < H -> pixel_ok buf bm x y
  | Raise e =>
      exists x y bm, 0 <= x < W /\ 0 <= y < H /\ display_sized bm
                     /\ unpack_pixel buf y x bm = Raise e
  end.
Proof.
  unfold unpack. fold W H.
  assert (Hinit : rows_inv buf [] (new_bitmap W H 2)).
  { split; [apply new_bitmap_sized|]. intros x' y' _ Hy'.
    unfold len in Hy'. cbn [length] in Hy'. lia. }
  pose proof (for_each_inv (rows_inv buf) (unpack_row buf) (range H)
                (rows_inv_step buf) [] (range H) _ eq_refl Hinit) as Hf.
  destruct (for_each (range H) (unpack_row buf) (new_bitmap W H 2)) as [bm|e].
  - destruct Hf as (Hs & Hrows). split; [exact Hs|].
    intros x y Hx Hy. apply Hrows; [exact Hx|]. rewrite range_length. lia.
  - destruct Hf as (d & a & r & bm1 & Hr & (Hs & Hrows) & Hb).
    apply range_split in Hr as [Ha Hrange].
    assert (Hinit' : row_inv buf a [] bm1).
    { split; [exact Hs|]. split.
      - intros x' y' Hx' Hy'. apply Hrows; lia.
      - intros x' Hx'. unfold len in Hx'. cbn [length] in Hx'. lia. }
    pose proof (unpack_row_inv buf a bm1 Hrange Hinit') as Hrow.
    rewrite Hb in Hrow. destruct Hrow as (x & bm2 & Hx & Hs2 & Hp).
    exists x, a, bm2. auto.
Qed.

(** The loops can only fail by reading past the end of the buffer. *)
Lemma unpack_raises (buf : pybytes) (e : exn) :
  unpack buf = Raise e ->
  e = bytes_oob
  /\ exists x y, 0 <= x < W /\ 0 <= y < H
                 /\ buf !! Z.to_nat (y * (W / 8) + x / 8) = None.
Proof.
  intros Hu. pose proof (unpack_inv buf) as Hi. rewrite Hu in Hi.
  destruct Hi as (x & y & bm & Hx & Hy & Hs & Hp).
  pose proof (unpack_pixel_cases buf y x bm Hs Hx Hy) as Hc.
  destruct (buf !! Z.to_nat (y * (W / 8) + x / 8)) eqn:Hb; [congruence|].
  split; [congruence|]. exists x, y. auto.
Qed.

(** The byte a pixel is read from lies within the first
    [width * height / 8] bytes when the width is a multiple of 8. *)
Lemma byte_index_bound (x y : Z) :
  W mod 8 = 0 -> 0 <= x < W -> 0 <= y < H ->
  0 <= y * (W / 8) + x / 8 /\ 8 * (y * (W / 8) + x / 8) < W * H.
Proof.
  intros Hm Hx Hy.
  assert (HW : W = 8 * (W / 8)) by (apply Z.div_exact; lia).
  assert (0 <= x / 8 < W / 8).
  { split; [apply Z.div_pos; lia|]. apply Z.div_lt_upper_bound; lia. }
  split; [nia|]. nia.
Qed.

(** With enough bytes the loops succeed. *)
Lemma unpack_enough (buf : pybytes) :
  W mod 8 = 0 -> W * H <= 8 * len buf ->
  exists bm, unpack buf = Ok bm.
Proof.
  intros Hm Hlen. destruct (unpack buf) as [bm|e] eqn:Hu; [eauto|exfalso].
  apply unpack_raises in Hu as (_ & x & y & Hx & Hy & Hnone).
  apply lookup_ge_None in Hnone.
  pose proof (byte_index_bound x y Hm Hx Hy). unfold len in Hlen. lia.
Qed.

(** With too few bytes they fail. *)
Lemma unpack_short (buf : pybytes) :
  0 < W -> W mod 8 = 0 -> 8 * len buf < W * H ->
  unpack buf = Raise bytes_oob.
Proof.
  intros Hpos Hm Hlen.
  assert (HH : 0 < H) by (unfold len in Hlen; nia).
  pose proof (unpack_inv buf) as Hi.
  destruct (unpack buf) as [bm|e] eqn:Hu.
  - exfalso. destruct Hi as (_ & Hpix).
    destruct (Hpix (W - 1) (H - 1)) as (byte & Hb & _); [lia|lia|].
    apply lookup_lt_Some in Hb.
    assert (HW : W = 8 * (W / 8)) by (apply Z.div_exact; lia).
    assert ((W - 1) / 8 = W / 8 - 1) by by_div_lia.
    unfold len in Hlen. nia.
  - apply unpack_raises in Hu as [-> _]. reflexivity.
Qed.

End Codec.

(** *** What [decode_payload] produces *)

(** The expression of the source for a pixel is the bit of the byte. *)
Lemma shift_mask_testbit (byte k : Z) :
  0 <= k -> Z.land (Z.shiftr byte k) 1 = Z.b2z (Z.testbit byte k).
Proof.
  intros Hk. change 1 with (Z.ones 1). rewrite Z.land_ones by lia.
  change (2 ^ 1) with 2. rewrite <- Z.bit0_mod.
  rewrite Z.shiftr_spec by lia. reflexivity.
Qed.

Lemma decode_payload_ok_inv (hw : board) (payload : pystr) (bm : bitmap)
  (pal : palette) :
  decode_payload hw payload = Ok (bm, pal) ->
  exists compressed buf,
    Base64.b64decode payload = Ok compressed
    /\ Zlib.decompress compressed = Ok buf
    /\ unpack hw buf = Ok bm
    /\ pal = [0x000000; 0xFFFFFF].
Proof.
  rewrite decode_payload_unpack. intros Hd.
  destruct (Base64.b64decode payload) as [compressed|]; [|discriminate].
  cbn [obind] in Hd.
  destruct (Zlib.decompress compressed) as [buf|] eqn:Hz; [|discriminate].
  cbn [obind] in Hd.
  destruct (unpack hw buf) as [bm'|] eqn:Hu; [|discriminate].
  injection Hd as <- <-.
  exists compressed, buf. repeat split; assumption.
Qed.

(** C5. Whenever an image is decoded, every pixel [(x, y)] of the
    display, [0 <= x < width] and [0 <= y < height], holds bit
    [7 - x mod 8] of byte [y * (width / 8) + x / 8] of the decompressed
    buffer, and the palette has black ([0x000000]) at index 0 and white
    ([0xFFFFFF]) at index 1. *)
Theorem decoded_pixels (hw : board) (payload : pystr) (bm : bitmap)
  (pal : palette) :
  decode_payload hw payload = Ok (bm, pal) ->
  exists compressed buf,
    Base64.b64decode payload = Ok compressed
    /\ Zlib.decompress compressed = Ok buf
    /\ (forall x y,
          0 <= x < display_width hw -> 0 <= y < display_height hw ->
          exists byte,
            buf !! Z.to_nat (y * (display_width hw / 8) + x / 8) = Some byte
            /\ bitmap_get bm x y = Some (Z.b2z (Z.testbit byte (7 - x mod 8))))
    /\ pal !! 0%nat = Some 0x000000
    /\ pal !! 1%nat = Some 0xFFFFFF.
Proof.
  intros Hd.
  destruct (decode_payload_ok_inv hw payload bm pal Hd)
    as (compressed & buf & Hb & Hz & Hu & ->).
  exists compressed, buf. repeat split; try assumption.
  intros x y Hx Hy. pose proof (unpack_inv hw buf) as Hi. rewrite Hu in Hi.
  destruct Hi as (_ & Hpix). destruct (Hpix x y Hx Hy) as (byte & Hbyte & Hg).
  exists byte. split; [exact Hbyte|].
  rewrite Hg. f_equal. apply shift_mask_testbit.
  pose proof (Z.mod_pos_bound x 8). lia.
Qed.

(** The payload is the four bytes A5 0F FF 00 compressed: on a display
    of 16 by 2, pixel (2, 0) is bit 5 of the first byte and pixel
    (12, 1) is bit 3 of the fourth. *)
Lemma decoded_pixels_witness :
  exists bm pal,
    decode_payload pocket (py "eNpbyv+fAQAEwwG0") = Ok (bm, pal)
    /\ bitmap_get bm 2 0 = Some 1
    /\ bitmap_get bm 12 1 = Some 0
    /\ pal = [0x000000; 0xFFFFFF].
Proof.
  destruct (decode_payload pocket (py "eNpbyv+fAQAEwwG0")) as [[bm pal]|e] eqn:Hd;
    [|vm_compute in Hd; discriminate].
  exists bm, pal. split; [reflexivity|].
  destruct (decoded_pixels pocket _ bm pal Hd)
    as (compressed & buf & Hb & Hz & Hpix & _).
  vm_compute in Hb. injection Hb as <-.
  vm_compute in Hz. injection Hz as <-.
  split; [|split].
  - destruct (Hpix 2 0) as (byte & Hbyte & Hg); [cbn; lia..|].
    vm_compute in Hbyte. injection Hbyte as <-. exact Hg.
  - destruct (Hpix 12 1) as (byte & Hbyte & Hg); [cbn; lia..|].
    vm_compute in Hbyte. injection Hbyte as <-. exact Hg.
  - vm_compute in Hd. injection Hd as _ <-. reflexivity.
Defined.

(** C4. On a display whose width is a multiple of 8, a decompressed
    buffer of fewer than [width * height / 8] bytes makes the decoding
    fail: the first read beyond the end of the buffer raises
    [IndexError], and no bitmap is produced. *)
Theorem short_buffer_fails (hw : board) (payload : pystr)
  (compressed buf : pybytes) :
  0 < display_width hw -> display_width hw mod 8 = 0 ->
  Base64.b64decode payload = Ok compressed ->
  Zlib.decompress compressed = Ok buf ->
  8 * len buf < display_width hw * display_height hw ->
  decode_payload hw payload
  = Raise (MkExn IndexError (py "bytes index out of range")).
Proof.
  intros Hpos Hm Hb Hz Hlen.
  rewrite decode_payload_unpack, Hb. cbn [obind]. rewrite Hz. cbn [obind].
  rewrite (unpack_short hw buf Hpos Hm Hlen). reflexivity.
Qed.

(** The payload is the compressed form of three bytes. *)
Lemma short_buffer_fails_witness :
  decode_payload badge (py "eNpLTEoGAAJNASc=")
  = Raise (MkExn IndexError (py "bytes index out of range")).
Proof.
  apply (short_buffer_fails badge (py "eNpLTEoGAAJNASc=")
           [120; 218; 75; 76; 74; 6; 0; 2; 77; 1; 39] [97; 98; 99]).
  - reflexivity.
  - reflexivity.
  - vm_compute. reflexivity.
  - vm_compute. reflexivity.
  - vm_compute. reflexivity.
Defined.

(** Two buffers that agree on the bytes the pixels are read from unpack
    to the same bitmap. *)
Lemma unpack_agree (hw : board) (buf buf' : pybytes) (bm bm' : bitmap) :
  0 < display_width hw ->
  (forall i, 0 <= 8 * i < display_width hw * display_height hw ->
             buf !! Z.to_nat i = buf' !! Z.to_nat i) ->
  display_width hw mod 8 = 0 ->
  unpack hw buf = Ok bm -> unpack hw buf' = Ok bm' -> bm = bm'.
Proof.
  intros Hpos Hagree Hm Hu Hu'.
  pose proof (unpack_inv hw buf) as Hi. rewrite Hu in Hi.
  pose proof (unpack_inv hw buf') as Hi'. rewrite Hu' in Hi'.
  destruct Hi as ((Hw & Hh & Hv & Hl) & Hpix).
  destruct Hi' as ((Hw' & Hh' & Hv' & Hl') & Hpix').
  set (W := display_width hw) in *. set (H := display_height hw) in *.
  assert (Hdata : bm_data bm = bm_data bm').
  { apply list_eq. intros i.
    destruct (Nat.lt_ge_cases i (Z.to_nat (W * H))) as [Hlt|Hge].
    - assert (Hxy : 0 <= Z.of_nat i mod W < W /\ 0 <= Z.of_nat i / W < H).
      { split; [apply Z.mod_pos_bound; lia|].
        split; [apply Z.div_pos; lia|apply Z.div_lt_upper_bound; nia]. }
      destruct Hxy as [Hx Hy].
      assert (Hi : i = Z.to_nat (Z.of_nat i mod W + Z.of_nat i / W * W)).
      { pose proof (Z.div_mod (Z.of_nat i) W). lia. }
      destruct (Hpix _ _ Hx Hy) as (byte & Hb & Hg).
      destruct (Hpix' _ _ Hx Hy) as (byte' & Hb' & Hg').
      rewrite (bitmap_get_eq hw) in Hg by assumption.
      rewrite (bitmap_get_eq hw) in Hg' by assumption.
      fold W in Hg, Hg'. rewrite <- Hi in Hg, Hg'.
      pose proof (byte_index_bound hw _ _ Hm Hx Hy) as Hbound.
      fold W H in Hbound, Hb, Hb'.
      rewrite Hagree in Hb by lia.
      rewrite Hg, Hg'. congruence.
    - rewrite !lookup_ge_None_2 by lia. reflexivity. }
  destruct bm, bm'. cbn in *. congruence.
Qed.

(** C3 (as amended). On a display whose width is a multiple of 8: a
    decompressed buffer of fewer than [width * height / 8] bytes makes
    the decoding fail; a buffer of at least that many bytes is decoded,
    and the bytes beyond the first [width * height / 8] have no
    influence on the result; a bitmap, whenever one is produced, has
    exactly the resolution of the display. *)
Theorem decode_by_buffer_length (hw : board) (payload : pystr)
  (compressed buf : pybytes) :
  0 < display_width hw -> display_width hw mod 8 = 0 ->
  Base64.b64decode payload = Ok compressed ->
  Zlib.decompress compressed = Ok buf ->
  (8 * len buf < display_width hw * display_height hw ->
     is_raise (decode_payload hw payload) = true)
  /\ (display_width hw * display_height hw <= 8 * len buf ->
        (exists bm pal, decode_payload hw payload = Ok (bm, pal))
        /\ forall payload' compressed' buf',
            Base64.b64decode payload' = Ok compressed' ->
            Zlib.decompress compressed' = Ok buf' ->
            (forall i, 0 <= 8 * i < display_width hw * display_height hw ->
                       buf' !! Z.to_nat i = buf !! Z.to_nat i) ->
            decode_payload hw payload' = decode_payload hw payload)
  /\ (forall bm pal,
        decode_payload hw payload = Ok (bm, pal) ->
        bm_width bm = display_width hw
        /\ bm_height bm = display_height hw
        /\ len (bm_data bm) = Z.max 0 (display_width hw * display_height hw)).
Proof.
  intros Hpos Hm Hb Hz. split; [|split].
  - intros Hlen.
    rewrite decode_payload_unpack, Hb. cbn [obind]. rewrite Hz. cbn [obind].
    rewrite (unpack_short hw buf Hpos Hm Hlen). reflexivity.
  - intros Hlen. rewrite decode_payload_unpack, Hb. cbn [obind].
    rewrite Hz. cbn [obind].
    destruct (unpack_enough hw buf Hm Hlen) as [bm Hu]. rewrite Hu.
    split; [eauto|].
    intros payload' compressed' buf' Hb' Hz' Hagree.
    rewrite decode_payload_unpack, Hb'. cbn [obind]. rewrite Hz'. cbn [obind].
    assert (Hlen' : display_width hw * display_height hw <= 8 * len buf').
    { destruct (Z.le_gt_cases (display_width hw * display_height hw) 0) as [Hle|Hgt].
      - unfold len. lia.
      - set (n := display_width hw * display_height hw) in *.
        assert (Hlast : 0 <= 8 * ((n - 1) / 8) < n) by by_div_lia.
        pose proof (Hagree _ Hlast) as Ha.
        assert (Hsome : is_Some (buf !! Z.to_nat ((n - 1) / 8))).
        { apply lookup_lt_is_Some. unfold len in Hlen.
          assert (n mod 8 = 0).
          { unfold n. rewrite Z.mul_comm, Z.mul_mod, Hm by lia.
            rewrite Z.mul_0_r. reflexivity. }
          by_div_lia. }
        rewrite <- Ha in Hsome. apply lookup_lt_is_Some in Hsome. unfold len.
        assert (n mod 8 = 0).
        { unfold n. rewrite Z.mul_comm, Z.mul_mod, Hm by lia.
          rewrite Z.mul_0_r. reflexivity. }
        by_div_lia. }
    destruct (unpack_enough hw buf' Hm Hlen') as [bm' Hu']. rewrite Hu'.
    cbn [obind]. f_equal. f_equal.
    eapply (unpack_agree hw buf' buf); eauto.
  - intros bm pal Hd.
    destruct (decode_payload_ok_inv hw payload bm pal Hd)
      as (c & b & _ & _ & Hu & _).
    pose proof (unpack_inv hw b) as Hi. rewrite Hu in Hi.
    destruct Hi as ((Hw & Hh & _ & Hl) & _).
    unfold len. rewrite Hl. repeat split; [assumption..|lia].
Qed.

Lemma decode_by_buffer_length_witness :
  exists bm pal,
    decode_payload badge (py "eNrtwTEBAAAAwqD1T20KP6AAAAAA4GcSgAAB") = Ok (bm, pal).
Proof.
  destruct (Base64.b64decode (py "eNrtwTEBAAAAwqD1T20KP6AAAAAA4GcSgAAB"))
    as [compressed|] eqn:Hb; [|vm_compute in Hb; discriminate].
  destruct (Zlib.decompress compressed) as [buf|] eqn:Hz;
    [|vm_compute in Hb; injection Hb as <-; vm_compute in Hz; discriminate].
  destruct (decode_by_buffer_length badge _ compressed buf
              eq_refl eq_refl Hb Hz) as (_ & Hlong & _).
  apply Hlong.
  vm_compute in Hb. injection Hb as <-.
  vm_compute in Hz. injection Hz as <-.
  vm_compute. discriminate.
Defined.

(** C3 (as stated) fails for a buffer that is too long: the payload
    below decompresses to 4737 bytes, one more than the 4736 the display
    of the badge takes, and is decoded all the same. *)
Lemma longer_buffer_decodes :
  exists compressed buf,
    Base64.b64decode (py "eNrtwTEBAAAAwqD1T20KP6AAAAAA4GgSgQAB") = Ok compressed
    /\ Zlib.decompress compressed = Ok buf
    /\ len buf = 4737
    /\ display_width badge * display_height badge = 8 * 4736
    /\ is_raise (decode_payload badge (py "eNrtwTEBAAAAwqD1T20KP6AAAAAA4GgSgQAB"))
       = false.
Proof.
  destruct (Base64.b64decode (py "eNrtwTEBAAAAwqD1T20KP6AAAAAA4GgSgQAB"))
    as [compressed|] eqn:Hb; [|vm_compute in Hb; discriminate].
  destruct (Zlib.decompress compressed) as [buf|] eqn:Hz;
    [|vm_compute in Hb; injection Hb as <-; vm_compute in Hz; discriminate].
  exists compressed, buf.
  assert (Hlen : len buf = 4737).
  { vm_compute in Hb. injection Hb as <-.
    vm_compute in Hz. injection Hz as <-. reflexivity. }
  split; [reflexivity|]. split; [exact Hz|]. split; [exact Hlen|].
  split; [reflexivity|].
  rewrite decode_payload_unpack, Hb. cbn [obind]. rewrite Hz. cbn [obind].
  destruct (unpack_enough badge buf eq_refl) as [bm Hu].
  - rewrite Hlen. vm_compute. discriminate.
  - rewrite Hu. reflexivity.
Qed.

(** ** The scheduler *)


(** *** Computations that leave the tick counter and the record of
    refreshes alone *)

Definition keeps {A : Type} (m : M A) : Prop :=
  forall st,
    iteration (snd (m st)) = iteration st
    /\ refreshed_at (snd (m st)) = refreshed_at st.

Lemma keeps_ret {A : Type} (a : A) : keeps (ret a).
Proof. intros st. split; reflexivity. Qed.

Lemma keeps_lift {A : Type} (o : outcome A) : keeps (lift o).
Proof. intros st. split; reflexivity. Qed.

Lemma keeps_get {A : Type} (f : state -> A) : keeps (get f).
Proof. intros st. split; reflexivity. Qed.

Lemma keeps_modify (f : state -> state) :
  (forall st, iteration (f st) = iteration st
              /\ refreshed_at (f st) = refreshed_at st) ->
  keeps (modify f).
Proof. intros Hf st. apply Hf. Qed.

Lemma keeps_bind {A B : Type} (m : M A) (k : A -> M B) :
  keeps m -> (forall a, keeps (k a)) -> keeps (bind m k).
Proof.
  intros Hm Hk st. unfold bind. specialize (Hm st).
  destruct (m st) as [[a|e] st1]; cbn [snd] in *; [|exact Hm].
  specialize (Hk a st1). destruct Hm as [<- <-]. exact Hk.
Qed.

Lemma keeps_try_step {A B : Type} (m : M A) (h : exn -> M B) (k : A -> M B) :
  keeps m -> (forall e, keeps (h e)) -> (forall a, keeps (k a)) ->
  keeps (try_step m h k).
Proof.
  intros Hm Hh Hk st. unfold try_step. specialize (Hm st).
  destruct (m st) as [[a|e] st1]; cbn [snd] in *.
  - specialize (Hk a st1). destruct Hm as [<- <-]. exact Hk.
  - destruct (is_Exception e); [|exact Hm].
    specialize (Hh e st1). destruct Hm as [<- <-]. exact Hh.
Qed.

Lemma keeps_try_except {A : Type} (m : M A) (h : exn -> M A) :
  keeps m -> (forall e, keeps (h e)) -> keeps (try_except m h).
Proof. intros Hm Hh. apply keeps_try_step; auto using @keeps_ret. Qed.

Lemma keeps_log (s : pystr) : keeps (log s).
Proof. intros st. split; reflexivity. Qed.

(** Decomposes a computation into its statements. *)
Ltac keeps_tac :=
  repeat first
    [ apply keeps_ret | apply keeps_lift | apply keeps_get | apply keeps_log
    | apply keeps_bind | apply keeps_try_except | apply keeps_try_step
    | apply keeps_modify; intro; split; reflexivity
    | progress cbv zeta
    | match goal with
      | |- forall _, _ => intro
      | |- keeps (if ?b then _ else _) => destruct b
      | |- keeps (match ?x with _ => _ end) => destruct x
      end ].

Section Scheduler.

Variable hw : board.

Lemma keeps_log_keep_alive (inp : tick_input) : keeps (log_keep_alive hw inp).
Proof. unfold log_keep_alive. keeps_tac. Qed.


Lemma keeps_read_command (inp : tick_input) : keeps (read_command inp).
Proof. unfold read_command. keeps_tac. Qed.

Lemma keeps_parse_command (line : pyval) : keeps (parse_command hw line).
Proof. unfold parse_command. keeps_tac. Qed.

Lemma keeps_show_bitmap (bm : bitmap) (pal : palette) : keeps (show_bitmap bm pal).
Proof. unfold show_bitmap. keeps_tac. Qed.

Lemma keeps_handle_command_preview (payload : pyval) :
  keeps (handle_command_preview hw payload).
Proof. unfold handle_command_preview, show_bitmap. keeps_tac. Qed.

Lemma keeps_write_b64_as_file (s : pyval) (name : pystr) :
  keeps (write_b64_as_file s name).
Proof. unfold write_b64_as_file, open_wb, file_write. keeps_tac. Qed.

Lemma keeps_read_file_as_b64 (name : pystr) : keeps (read_file_as_b64 name).
Proof. unfold read_file_as_b64, read_rb. keeps_tac. Qed.

Lemma keeps_handle_store_command (name : pystr) (metadata payload : pyval) :
  keeps (handle_store_command hw name metadata payload).
Proof.
  unfold handle_store_command.
  keeps_tac; apply keeps_write_b64_as_file.
Qed.

Lemma keeps_handle_show_command (name : pystr) :
  keeps (handle_show_command hw name).
Proof.
  unfold handle_show_command.
  keeps_tac; first [apply keeps_read_file_as_b64 | apply keeps_show_bitmap].
Qed.

Lemma keeps_handle_commands (inp : tick_input) : keeps (handle_commands hw inp).
Proof.
  unfold handle_commands.
  apply keeps_bind; [apply keeps_read_command|]. intros command_raw.
  apply keeps_bind; [apply keeps_parse_command|]. intros cmd.
  destruct cmd as [|name [|metadata [|payload [|]]]]; try apply keeps_lift.
  destruct name as [name|]; [|apply keeps_ret].
  repeat match goal with
         | |- keeps (if ?b then _ else _) => destruct b
         end;
    first
      [ apply keeps_handle_command_preview
      | apply keeps_bind;
        [apply keeps_lift
        |intro; first [apply keeps_handle_show_command
                         |apply keeps_handle_store_command
                         |apply keeps_log]]
      | unfold handle_command_blink, handle_command_reload,
          handle_command_exit, handle_terminal_command,
          handle_refresh_command; keeps_tac ].
Qed.

(** *** The refresh step *)

Definition refresh_announced (st : state) : state :=
  set_console (console st ++ [py "Refreshing the screen" ++ ELLIPSIS]) st.

(** What [refresh_if_needed] does, case by case. *)
Lemma refresh_if_needed_cases (inp : tick_input) (st : state) :
  refresh_if_needed hw inp st
  = if (iteration st mod refresh_cycle =? 0) && should_refresh st then
      match refresh_error inp with
      | None =>
          (Ok tt,
           set_should_refresh false
             (set_refreshed_at (refreshed_at st ++ [iteration st])
                (refresh_announced st)))
      | Some e =>
          if is_Exception e then
            (Raise (MkExn NameError (py "name 'base64_string' is not defined")),
             refresh_announced st)
          else (Raise e, refresh_announced st)
      end
    else (Ok tt, st).
Proof.
  unfold refresh_if_needed, bind, get.
  destruct (iteration st mod refresh_cycle =? 0); [|reflexivity].
  destruct (should_refresh st); [|reflexivity].
  cbn [andb]. unfold try_except, try_step, display_refresh.
  destruct (refresh_error inp) as [e|]; [|reflexivity].
  unfold log, modify, lift. cbn [DEBUG].
  destruct (is_Exception e); reflexivity.
Qed.



End Scheduler.

(** ** What a computation leaves alone *)

(** [m] takes every state to one related to it by [R], also when it
    raises. *)
Definition respects {A : Type} (R : state -> state -> Prop) (m : M A) : Prop :=
  forall st, R st (snd (m st)).

(** The value of [f] is the same. *)
Definition untouched {B : Type} (f : state -> B) (st st' : state) : Prop :=
  f st' = f st.

(** The console only gets longer. *)
Definition console_grows (st st' : state) : Prop :=
  exists lines, console st' = console st ++ lines.

#[export] Instance untouched_preorder {B : Type} (f : state -> B) :
  PreOrder (untouched f).
Proof.
  split; [intros st; reflexivity|].
  intros a b c Hab Hbc. unfold untouched in *. congruence.
Qed.

#[export] Instance console_grows_preorder : PreOrder console_grows.
Proof.
  split.
  - intros st. exists []. rewrite app_nil_r. reflexivity.
  - intros a b c [l1 H1] [l2 H2]. exists (l1 ++ l2).
    rewrite H2, H1, app_assoc. reflexivity.
Qed.

Section Frame.

Context (R : state -> state -> Prop) `{!PreOrder R}.

Lemma respects_ret {A : Type} (a : A) : respects R (ret a).
Proof. intros st. reflexivity. Qed.

Lemma respects_lift {A : Type} (o : outcome A) : respects R (lift o).
Proof. intros st. reflexivity. Qed.

Lemma respects_get {A : Type} (f : state -> A) : respects R (get f).
Proof. intros st. reflexivity. Qed.

Lemma respects_modify (f : state -> state) :
  (forall st, R st (f st)) -> respects R (modify f).
Proof. intros Hf st. apply Hf. Qed.

Lemma respects_bind {A B : Type} (m : M A) (k : A -> M B) :
  respects R m -> (forall a, respects R (k a)) -> respects R (bind m k).
Proof.
  intros Hm Hk st. unfold bind. specialize (Hm st).
  destruct (m st) as [[a|e] st1]; cbn [snd] in *; [|exact Hm].
  etransitivity; [exact Hm|apply Hk].
Qed.

Lemma respects_try_step {A B : Type} (m : M A) (h : exn -> M B)
  (k : A -> M B) :
  respects R m -> (forall e, respects R (h e)) ->
  (forall a, respects R (k a)) -> respects R (try_step m h k).
Proof.
  intros Hm Hh Hk st. unfold try_step. specialize (Hm st).
  destruct (m st) as [[a|e] st1]; cbn [snd] in *.
  - etransitivity; [exact Hm|apply Hk].
  - destruct (is_Exception e); [|exact Hm].
    etransitivity; [exact Hm|apply Hh].
Qed.

Lemma respects_try_except {A : Type} (m : M A) (h : exn -> M A) :
  respects R m -> (forall e, respects R (h e)) -> respects R (try_except m h).
Proof. intros Hm Hh. apply respects_try_step; auto using @respects_ret. Qed.

(** The ways in which the firmware changes its state. *)
Hypothesis R_log : forall s st, R st (set_console (console st ++ [s]) st).
Hypothesis R_flag_up : forall st, R st (set_should_refresh true st).
Hypothesis R_flag_down : forall st, R st (set_should_refresh false st).
Hypothesis R_root : forall g st, R st (set_root_group g st).
Hypothesis R_blink : forall b st, R st (set_should_blink_led b st).
Hypothesis R_led : forall b st, R st (set_led_value b st).
Hypothesis R_files : forall fs st, R st (set_files fs st).
Hypothesis R_refreshed : forall l st, R st (set_refreshed_at l st).

Lemma respects_log (s : pystr) : respects R (log s).
Proof. intros st. apply R_log. Qed.

(** Decomposes a computation into its statements. *)
Ltac respects_tac :=
  repeat first
    [ apply respects_ret | apply respects_lift | apply respects_get
    | apply respects_log
    | apply respects_bind | apply respects_try_except
    | apply respects_try_step
    | apply respects_modify; intro;
      first [apply R_flag_up | apply R_root | apply R_blink | apply R_led
            | apply R_files | apply R_refreshed]
    | progress cbv zeta
    | match goal with
      | |- forall _, _ => intro
      | |- respects _ (if ?b then _ else _) => destruct b
      | |- respects _ (match ?x with _ => _ end) => destruct x
      end ].

Variable hw : board.

Lemma respects_log_keep_alive (inp : tick_input) :
  respects R (log_keep_alive hw inp).
Proof. unfold log_keep_alive. respects_tac. Qed.

Lemma respects_update_blinking : respects R update_blinking.
Proof. unfold update_blinking. respects_tac. Qed.

Lemma respects_refresh_if_needed (inp : tick_input) :
  respects R (refresh_if_needed hw inp).
Proof.
  intros st. rewrite refresh_if_needed_cases.
  destruct (_ && _); [|reflexivity].
  assert (Ha : R st (refresh_announced st)) by apply R_log.
  destruct (refresh_error inp) as [e|].
  - destruct (is_Exception e); exact Ha.
  - cbn [snd]. etransitivity; [exact Ha|].
    etransitivity; [apply R_refreshed|apply R_flag_down].
Qed.

Lemma respects_read_command (inp : tick_input) : respects R (read_command inp).
Proof. unfold read_command. respects_tac. Qed.

Lemma respects_parse_command (line : pyval) :
  respects R (parse_command hw line).
Proof. unfold parse_command. respects_tac. Qed.

Lemma respects_show_bitmap (bm : bitmap) (pal : palette) :
  respects R (show_bitmap bm pal).
Proof. unfold show_bitmap. respects_tac. Qed.

Lemma respects_handle_command_preview (payload : pyval) :
  respects R (handle_command_preview hw payload).
Proof. unfold handle_command_preview, show_bitmap. respects_tac. Qed.

Lemma respects_write_b64_as_file (s : pyval) (name : pystr) :
  respects R (write_b64_as_file s name).
Proof. unfold write_b64_as_file, open_wb, file_write. respects_tac. Qed.

Lemma respects_read_file_as_b64 (name : pystr) :
  respects R (read_file_as_b64 name).
Proof. unfold read_file_as_b64, read_rb. respects_tac. Qed.

Lemma respects_handle_store_command (name : pystr) (metadata payload : pyval) :
  respects R (handle_store_command hw name metadata payload).
Proof.
  unfold handle_store_command.
  respects_tac; apply respects_write_b64_as_file.
Qed.

Lemma respects_handle_show_command (name : pystr) :
  respects R (handle_show_command hw name).
Proof.
  unfold handle_show_command.
  respects_tac;
    first [apply respects_read_file_as_b64 | apply respects_show_bitmap].
Qed.

Lemma respects_handle_commands (inp : tick_input) :
  respects R (handle_commands hw inp).
Proof.
  unfold handle_commands.
  apply respects_bind; [apply respects_read_command|]. intros command_raw.
  apply respects_bind; [apply respects_parse_command|]. intros cmd.
  destruct cmd as [|name [|metadata [|payload [|]]]]; try apply respects_lift.
  destruct name as [name|]; [|apply respects_ret].
  repeat match goal with
         | |- respects _ (if ?b then _ else _) => destruct b
         end;
    first
      [ apply respects_handle_command_preview
      | apply respects_bind;
        [apply respects_lift
        |intro; first [apply respects_handle_show_command
                         |apply respects_handle_store_command
                         |apply respects_log]]
      | unfold handle_command_blink, handle_command_reload,
          handle_command_exit, handle_terminal_command,
          handle_refresh_command; respects_tac ].
Qed.

End Frame.

(** *** The steps of a pass *)

(** The line [read_command] hands to the decoder. *)
Definition line_of (inp : tick_input) : pyval :=
  if usb_connected inp && serial_connected inp then
    let cleaned := strip (sub_space (serial_text inp)) in
    if 0 <? len cleaned then Some cleaned else None
  else None.

(** No command arrives. *)
Definition idle (inp : tick_input) : Prop := line_of inp = None.


(** The part of the state the refresh logic depends on is unchanged. *)
Definition same_schedule (st st' : state) : Prop :=
  iteration st' = iteration st
  /\ should_refresh st' = should_refresh st
  /\ refreshed_at st' = refreshed_at st.

Lemma same_schedule_refl (st : state) : same_schedule st st.
Proof. repeat split. Qed.

Lemma same_schedule_trans (a b c : state) :
  same_schedule a b -> same_schedule b c -> same_schedule a c.
Proof. unfold same_schedule. intuition congruence. Qed.

Section Steps.

Variable hw : board.

Lemma log_keep_alive_ok (inp : tick_input) (st : state) :
  exists st1, log_keep_alive hw inp st = (Ok tt, st1) /\ same_schedule st st1.
Proof.
  unfold log_keep_alive, bind, get. cbv zeta.
  destruct (iteration st mod _ =? 0).
  - unfold str_mod, lift.
    change (py "Awaiting commands" ++ ELLIPSIS ++ py " (%s)")
      with ((py "Awaiting commands" ++ ELLIPSIS ++ py " (") ++ py "%s" ++ py ")").
    rewrite str_mod_plain by literal_no_percent.
    eexists. split; [reflexivity|]. repeat split.
  - eexists. split; [reflexivity|]. apply same_schedule_refl.
Qed.

Lemma update_blinking_ok (st : state) :
  exists st1, update_blinking st = (Ok tt, st1) /\ same_schedule st st1.
Proof.
  unfold update_blinking, bind, get.
  destruct (should_blink_led st); eexists; (split; [reflexivity|]);
    repeat split.
Qed.

Lemma read_command_ok (inp : tick_input) (st : state) :
  exists st1,
    read_command inp st = (Ok (line_of inp), st1) /\ same_schedule st st1.
Proof.
  unfold read_command, line_of.
  destruct (usb_connected inp); cbn [negb andb].
  - destruct (serial_connected inp); cbn [negb].
    + eexists. split; [reflexivity|]. apply same_schedule_refl.
    + eexists. split; [reflexivity|]. repeat split.
  - eexists. split; [reflexivity|]. repeat split.
Qed.

Lemma handle_commands_idle (inp : tick_input) (st : state) :
  idle inp ->
  exists st1, handle_commands hw inp st = (Ok tt, st1) /\ same_schedule st st1.
Proof.
  intros Hidle. unfold handle_commands, bind.
  destruct (read_command_ok inp st) as (st1 & -> & Hs).
  rewrite Hidle. cbn. eauto.
Qed.



End Steps.

(** *** The refresh cadence *)


(** Nothing lowers the flag. *)
Definition flag_stays_up (st st' : state) : Prop :=
  should_refresh st = true -> should_refresh st' = true.

#[export] Instance flag_stays_up_preorder : PreOrder flag_stays_up.
Proof.
  split; [intros st H; exact H|].
  intros a b c Hab Hbc H. apply Hbc, Hab, H.
Qed.










(** *** A failing display *)

(** What happens when [display.refresh()] raises: the handler raises
    [NameError] in turn, before it logs and before the flag is cleared. *)
Lemma refresh_failure_raises (hw : board) (inp : tick_input) (st : state)
  (e : exn) :
  iteration st mod refresh_cycle = 0 -> should_refresh st = true ->
  refresh_error inp = Some e -> is_Exception e = true ->
  refresh_if_needed hw inp st
  = (Raise (MkExn NameError (py "name 'base64_string' is not defined")),
     refresh_announced st).
Proof.
  intros Hb Hf He Hexc. rewrite refresh_if_needed_cases, Hf, He, Hexc.
  apply Z.eqb_eq in Hb. rewrite Hb. reflexivity.
Qed.

(** C1 fails on the code: the [except] clause of [refresh_if_needed]
    formats its message from a variable, [base64_string], that exists
    neither in the function nor in the module.  On a pass on which the
    refresh is due and [display.refresh()] raises, the handler raises
    [NameError] in turn; the exception leaves the main loop on that pass,
    the remaining passes never run, the tick counter stands still and
    the flag is still up. *)
Theorem refresh_failure_aborts_loop (hw : board) (inp : tick_input)
  (rest : list tick_input) (st : state) (e : exn) :
  idle inp ->
  refresh_error inp = Some e -> is_Exception e = true ->
  iteration st mod refresh_cycle = 0 -> should_refresh st = true ->
  exists st',
    main_loop hw (inp :: rest) st
    = (Raise (MkExn NameError (py "name 'base64_string' is not defined")), st')
    /\ iteration st' = iteration st
    /\ should_refresh st' = true
    /\ refreshed_at st' = refreshed_at st.
Proof.
  intros Hidle He Hexc Hb Hf. cbn [main_loop]. unfold bind at 1.
  unfold tick, bind.
  destruct (log_keep_alive_ok hw inp st) as (st1 & -> & (Hi1 & Hf1 & Hr1)).
  destruct (update_blinking_ok st1) as (st2 & -> & (Hi2 & Hf2 & Hr2)).
  destruct (handle_commands_idle hw inp st2 Hidle) as (st3 & -> & (Hi3 & Hf3 & Hr3)).
  rewrite (refresh_failure_raises hw inp st3 e); try assumption; try congruence.
  eexists. split; [reflexivity|]. cbn. repeat split; congruence.
Qed.

(** A fresh badge whose display refuses the first refresh. *)
Lemma refresh_failure_aborts_loop_witness :
  exists st',
    main_loop badge
      [display_failing (MkExn RuntimeError (py "Refresh too soon")); quiet]
      power_on
    = (Raise (MkExn NameError (py "name 'base64_string' is not defined")), st')
    /\ iteration st' = 0
    /\ should_refresh st' = true
    /\ refreshed_at st' = [].
Proof.
  apply (refresh_failure_aborts_loop badge
           (display_failing (MkExn RuntimeError (py "Refresh too soon")))
           [quiet] power_on (MkExn RuntimeError (py "Refresh too soon")));
    reflexivity.
Defined.

(** *** The preview handler *)

Lemma decode_payload_raises (hw : board) (payload : pystr) (e : exn) :
  decode_payload hw payload = Raise e -> is_Exception e = true.
Proof.
  rewrite decode_payload_unpack. intros Hd.
  destruct (Base64.b64decode payload) as [compressed|e1] eqn:Hb.
  2:{ injection Hd as <-. eapply b64decode_raises, Hb. }
  cbn [obind] in Hd.
  destruct (Zlib.decompress compressed) as [buf|e2] eqn:Hz.
  2:{ injection Hd as <-. eapply decompress_raises, Hz. }
  cbn [obind] in Hd.
  destruct (unpack hw buf) as [bm|e3] eqn:Hu; [discriminate|].
  injection Hd as <-. apply unpack_raises in Hu as [-> _]. reflexivity.
Qed.

(** Where C8 does hold: when the truncated payload is free of percent
    signs, a failure of the codec is logged with the truncated payload
    and the cause, and neither the root content of the display nor the
    flag changes. *)
Lemma preview_failure_logged (hw : board) (payload : pystr) (e : exn)
  (st : state) :
  decode_payload hw payload = Raise e ->
  no_percent (trunc payload) ->
  exists st',
    handle_command_preview hw (Some payload) st = (Ok tt, st')
    /\ display_root_group st' = display_root_group st
    /\ should_refresh st' = should_refresh st
    /\ console st'
       = console st
         ++ [py "Previewing image" ++ ELLIPSIS;
             py "Preview failed for: " ++ trunc payload ++ py "'." ++ NL
             ++ format_e hw e].
Proof.
  intros Hd Hnp.
  unfold handle_command_preview, bind, try_except, try_step, lift, log, modify.
  cbn [DEBUG as_str obind]. rewrite Hd, (decode_payload_raises hw payload e Hd).
  unfold str_mod.
  replace (py "Preview failed for: " ++ trunc payload ++ py "'." ++ NL ++ py "%s")
    with ((py "Preview failed for: " ++ trunc payload ++ py "'." ++ NL)
          ++ py "%s" ++ [])
    by (rewrite <- !app_assoc, app_nil_r; reflexivity).
  rewrite str_mod_plain.
  - eexists. split; [reflexivity|]. cbn. rewrite app_nil_r, <- !app_assoc.
    auto.
  - apply no_percent_app; [literal_no_percent|].
    apply no_percent_app; [exact Hnp|literal_no_percent].
  - constructor.
Qed.

(** C8 fails on the code, by the slip of C6: the failure message is
    built by interpolating the truncated payload into a string that is
    then used as a [%] format.  The payload ["%"] is not an image; the
    codec fails, building the message raises [ValueError] inside the
    [except] clause, nothing is logged about the failure, and the
    exception leaves the handler and the main loop. *)
Theorem preview_failure_escapes (hw : board) (st : state) :
  handle_command_preview hw (Some (py "%")) st
  = (Raise (MkExn ValueError (py "unsupported format character")),
     set_console (console st ++ [py "Previewing image" ++ ELLIPSIS]) st)
  /\ exists st',
      main_loop badge [receiving (py "cHJldmlldzo6JQ=="); quiet] power_on
      = (Raise (MkExn ValueError (py "unsupported format character")), st')
      /\ iteration st' = 0
      /\ last (console st') = Some (py "Previewing image" ++ ELLIPSIS).
Proof.
  split; [reflexivity|].
  eexists. split; [vm_compute; reflexivity|]. split; reflexivity.
Qed.

(** *** Where the decoder does not raise *)

Lemma failed_to_decode_message (hw : board) (line arg : pystr) :
  no_percent line ->
  str_mod hw (py "Failed to decode '" ++ line ++ py "'." ++ NL ++ py "%s") arg
  = Ok (py "Failed to decode '" ++ line ++ py "'." ++ NL ++ arg).
Proof.
  intros Hnp. unfold str_mod.
  replace (py "Failed to decode '" ++ line ++ py "'." ++ NL ++ py "%s")
    with ((py "Failed to decode '" ++ line ++ py "'." ++ NL) ++ py "%s" ++ [])
    by (rewrite <- !app_assoc, app_nil_r; reflexivity).
  rewrite str_mod_plain.
  - rewrite app_nil_r, <- !app_assoc. reflexivity.
  - apply no_percent_app; [literal_no_percent|].
    apply no_percent_app; [exact Hnp|literal_no_percent].
  - constructor.
Qed.

Lemma three_parts (parts : list pystr) :
  (len parts =? 3) = true -> exists a b c, parts = [a; b; c].
Proof.
  intros Hl. apply Z.eqb_eq in Hl. unfold len in Hl.
  destruct parts as [|a [|b [|c [|]]]]; cbn in Hl; try lia. eauto.
Qed.

(** Where C6 does hold: a line free of percent signs is decoded without
    an exception, to the sentinel or to a triple of strings. *)
Lemma parse_command_total (hw : board) (line : pystr) (st : state) :
  no_percent line ->
  exists r st',
    parse_command hw (Some line) st = (Ok r, st')
    /\ (r = COMMAND_NONE \/ exists a b c, r = [Some a; Some b; Some c]).
Proof.
  intros Hnp. unfold parse_command.
  destruct (DEBUG && startswith line (py "debug:")).
  - cbv zeta. destruct (len (split 58 _) =? 3) eqn:Hl; cbn [negb].
    + apply three_parts in Hl as (a & b & c & Hp). rewrite Hp.
      eexists _, st. split; [reflexivity|]. right. cbn [map]. eauto.
    + unfold bind, lift, str_mod.
      change (py "Invalid debug command: '%s'")
        with (py "Invalid debug command: '" ++ py "%s" ++ py "'").
      rewrite str_mod_plain by literal_no_percent.
      eexists _, _. split; [reflexivity|]. auto.
  - unfold try_except, try_step, bind, lift, ret.
    destruct (Utf8.encode line) as [base64_bytes|e] eqn:He.
    2:{ rewrite (utf8_encode_raises _ _ He), failed_to_decode_message by exact Hnp.
        eexists _, _. split; [reflexivity|]. auto. }
    destruct (Base64.decodebytes base64_bytes) as [bytes_plain|e] eqn:Hb.
    2:{ rewrite (a2b_base64_raises _ _ Hb), failed_to_decode_message by exact Hnp.
        eexists _, _. split; [reflexivity|]. auto. }
    destruct (Utf8.decode bytes_plain) as [plain_string|e] eqn:Hd.
    2:{ rewrite (utf8_decode_raises _ _ Hd), failed_to_decode_message by exact Hnp.
        eexists _, _. split; [reflexivity|]. auto. }
    cbv zeta. destruct (len (split 58 plain_string) =? 3) eqn:Hl; cbn [negb].
    + apply three_parts in Hl as (a & b & c & Hp). rewrite Hp.
      eexists _, st. split; [reflexivity|]. right. cbn [map]. eauto.
    + destruct (str_mod hw (py "Invalid command format: '%s'") plain_string)
        as [msg|e] eqn:Hm.
      * cbn [is_Exception exn_cls].
        rewrite failed_to_decode_message by exact Hnp.
        eexists _, _. split; [reflexivity|]. auto.
      * exfalso. unfold str_mod in Hm.
        change (py "Invalid command format: '%s'")
          with (py "Invalid command format: '" ++ py "%s" ++ py "'") in Hm.
        rewrite str_mod_plain in Hm by literal_no_percent. discriminate.
Qed.

(** * Part III: the rest of the firmware *)

(** ** Trimming *)

(** Whitespace only. *)
Definition blank (s : pystr) : Prop := Forall (fun c => isspace c = true) s.

(** A text that neither starts nor ends with whitespace and is not
    empty. *)
Definition trimmed (s : pystr) : Prop :=
  (exists c t, s = c :: t /\ isspace c = false)
  /\ (exists t c, s = t ++ [c] /\ isspace c = false).

Lemma lstrip_blank (w s : pystr) : blank w -> lstrip (w ++ s) = lstrip s.
Proof.
  induction 1 as [|c w Hc _ IH]; [reflexivity|].
  cbn. rewrite Hc. exact IH.
Qed.

Lemma lstrip_split (s : pystr) :
  exists w, blank w /\ s = w ++ lstrip s.
Proof.
  induction s as [|c s (w & Hw & IH)].
  - exists []. split; [constructor|reflexivity].
  - cbn. destruct (isspace c) eqn:Hc.
    + exists (c :: w). split; [constructor; assumption|]. cbn. f_equal. exact IH.
    + exists []. split; [constructor|reflexivity].
Qed.

Lemma lstrip_head (s : pystr) (c : Z) (t : pystr) :
  lstrip s = c :: t -> isspace c = false.
Proof.
  induction s as [|x s IH]; cbn; [discriminate|].
  destruct (isspace x) eqn:Hx; [exact IH|]. intros [= -> _]. exact Hx.
Qed.

Lemma lstrip_fixed (c : Z) (t : pystr) :
  isspace c = false -> lstrip (c :: t) = c :: t.
Proof. intros Hc. cbn. rewrite Hc. reflexivity. Qed.

Lemma blank_rev (w : pystr) : blank w -> blank (rev w).
Proof. unfold blank. apply List.Forall_rev. Qed.

Lemma rstrip_split (s : pystr) :
  exists w, blank w /\ s = rstrip s ++ w.
Proof.
  unfold rstrip. destruct (lstrip_split (rev s)) as (w & Hw & Hs).
  exists (rev w). split; [apply blank_rev, Hw|].
  rewrite <- rev_app_distr, <- Hs, rev_involutive. reflexivity.
Qed.

Lemma rstrip_last (s t : pystr) (c : Z) :
  rstrip s = t ++ [c] -> isspace c = false.
Proof.
  unfold rstrip. intros Hr. apply (f_equal (@rev Z)) in Hr.
  rewrite rev_involutive, rev_app_distr in Hr. cbn in Hr.
  eapply lstrip_head, Hr.
Qed.

Lemma rstrip_blank (s w : pystr) : blank w -> rstrip (s ++ w) = rstrip s.
Proof.
  intros Hw. unfold rstrip. rewrite rev_app_distr.
  rewrite lstrip_blank by (apply blank_rev, Hw). reflexivity.
Qed.

Lemma rstrip_fixed (t : pystr) (c : Z) :
  isspace c = false -> rstrip (t ++ [c]) = t ++ [c].
Proof.
  intros Hc. unfold rstrip. rewrite rev_app_distr. cbn [rev app].
  rewrite lstrip_fixed by exact Hc.
  change (c :: rev t) with ([c] ++ rev t).
  rewrite rev_app_distr, rev_involutive. reflexivity.
Qed.

(** What [strip] removes is whitespace, at both ends. *)
Lemma strip_split (s : pystr) :
  exists w1 w2, blank w1 /\ blank w2 /\ s = w1 ++ strip s ++ w2.
Proof.
  unfold strip. destruct (lstrip_split s) as (w1 & Hw1 & Hs).
  destruct (rstrip_split (lstrip s)) as (w2 & Hw2 & Hl).
  exists w1, w2. split; [exact Hw1|]. split; [exact Hw2|].
  rewrite <- Hl. exact Hs.
Qed.

(** What [strip] leaves is empty or trimmed. *)
Lemma strip_trimmed (s : pystr) : strip s = [] \/ trimmed (strip s).
Proof.
  destruct (strip s) as [|c t] eqn:Hs; [left; reflexivity|right].
  unfold strip in Hs. split.
  - exists c, t. split; [reflexivity|].
    destruct (rstrip_split (lstrip s)) as (w & _ & Hl).
    rewrite Hs in Hl. cbn in Hl. eapply lstrip_head, Hl.
  - destruct (exists_last (l := c :: t)) as (t' & c' & Heq); [discriminate|].
    exists t', c'. split; [exact Heq|].
    rewrite Heq in Hs. eapply rstrip_last, Hs.
Qed.

(** [strip] undoes padding with whitespace. *)
Lemma strip_padded (w1 s w2 : pystr) :
  blank w1 -> blank w2 -> trimmed s -> strip (w1 ++ s ++ w2) = s.
Proof.
  intros Hw1 Hw2 [(c & t & Hhead & Hc) (t' & c' & Hlast & Hc')].
  unfold strip. rewrite lstrip_blank by exact Hw1.
  rewrite Hhead. cbn [app]. rewrite lstrip_fixed by exact Hc.
  change (c :: t ++ w2) with ((c :: t) ++ w2). rewrite <- Hhead.
  rewrite rstrip_blank by exact Hw2.
  rewrite Hlast. apply rstrip_fixed, Hc'.
Qed.

(** *** [re.sub(r'\s', " ", s)] *)

Lemma sub_space_blank (w : pystr) : blank w -> blank (sub_space w).
Proof.
  unfold blank, sub_space. intros Hw. apply Forall_fmap.
  eapply Forall_impl; [exact Hw|]. intros c Hc. cbn. rewrite Hc. reflexivity.
Qed.

Lemma sub_space_trimmed (s : pystr) : trimmed s -> trimmed (sub_space s).
Proof.
  intros [(c & t & -> & Hc) (t' & c' & Heq & Hc')]. unfold sub_space. split.
  - exists c, (sub_space t). cbn. rewrite Hc. auto.
  - exists (sub_space t'), c'. rewrite Heq, map_app. cbn. rewrite Hc'. auto.
Qed.

(** After the substitution the only whitespace left is the space. *)
Lemma sub_space_only_spaces (s : pystr) :
  Forall (fun c => isspace c = true -> c = 32) (sub_space s).
Proof.
  unfold sub_space. apply Forall_fmap, Forall_forall. intros c _. cbn.
  destruct (isspace c) eqn:Hc; [reflexivity|]. intros H. congruence.
Qed.

(** ** Reading a command *)

(** A line that [read_command] returns is not empty, neither starts nor
    ends with whitespace, and holds no whitespace other than the space;
    returning it logs nothing. *)
Theorem read_command_clean (inp : tick_input) (st st' : state) (line : pystr) :
  read_command inp st = (Ok (Some line), st') ->
  trimmed line
  /\ Forall (fun c => isspace c = true -> c = 32) line
  /\ st' = st.
Proof.
  unfold read_command.
  destruct (usb_connected inp); cbn [negb]; [|discriminate].
  destruct (serial_connected inp); cbn [negb]; [|discriminate].
  cbv zeta. unfold ret.
  destruct (0 <? len (strip (sub_space (serial_text inp)))) eqn:Hl;
    [|discriminate].
  intros [= <- <-]. split; [|split; [|reflexivity]].
  - destruct (strip_trimmed (sub_space (serial_text inp))) as [He|Ht];
      [|exact Ht].
    rewrite He in Hl. discriminate.
  - destruct (strip_split (sub_space (serial_text inp))) as (w1 & w2 & _ & _ & Hs).
    pose proof (sub_space_only_spaces (serial_text inp)) as Hall.
    rewrite Hs in Hall. apply Forall_app in Hall as [_ Hall].
    apply Forall_app in Hall as [Hall _]. exact Hall.
Qed.

Lemma read_command_clean_witness :
  trimmed (py "debug:blink::")
  /\ Forall (fun c => isspace c = true -> c = 32) (py "debug:blink::")
  /\ power_on = power_on.
Proof.
  apply (read_command_clean (receiving ([32; 9] ++ py "debug:blink::" ++ [13; 10]))
           power_on power_on (py "debug:blink::")).
  reflexivity.
Defined.

(** With both connections up, whitespace around a line (blanks before,
    the line terminator after) is dropped, and every whitespace character
    inside the line is turned into a space. *)
Theorem read_command_padded (inp : tick_input) (st : state)
  (w1 s w2 : pystr) :
  usb_connected inp = true -> serial_connected inp = true ->
  serial_text inp = w1 ++ s ++ w2 ->
  blank w1 -> blank w2 -> trimmed s ->
  read_command inp st = (Ok (Some (sub_space s)), st).
Proof.
  intros Hu Hs Htext Hw1 Hw2 Ht. unfold read_command.
  rewrite Hu, Hs, Htext. cbn [negb]. cbv zeta.
  unfold sub_space at 1 2. rewrite !map_app. fold (sub_space w1).
  fold (sub_space s). fold (sub_space w2).
  rewrite strip_padded by auto using sub_space_blank, sub_space_trimmed.
  destruct Ht as [(c & t & -> & _) _]. reflexivity.
Qed.

Lemma read_command_padded_witness :
  read_command (receiving (py "  debug:store-a:a" ++ [9] ++ py "b:eJw=" ++ [13; 10]))
    power_on
  = (Ok (Some (py "debug:store-a:a b:eJw=")), power_on).
Proof.
  apply (read_command_padded
           (receiving (py "  debug:store-a:a" ++ [9] ++ py "b:eJw=" ++ [13; 10]))
           power_on (py "  ") (py "debug:store-a:a" ++ [9] ++ py "b:eJw=") [13; 10]).
  - reflexivity.
  - reflexivity.
  - reflexivity.
  - repeat constructor.
  - repeat constructor.
  - split.
    + eexists _, _. split; reflexivity.
    + exists (py "debug:store-a:a" ++ [9] ++ py "b:eJw"), 61. split; reflexivity.
Defined.

(** Without one of the two connections nothing is read, whatever is
    waiting, and one line on the console gives the reason: that there is
    no USB connection if USB is down, else that there is no serial
    connection. *)
Theorem read_command_disconnected (inp : tick_input) (st : state) :
  usb_connected inp = false \/ serial_connected inp = false ->
  read_command inp st
  = (Ok None,
     set_console
       (console st
        ++ [if usb_connected inp then py "No serial connection, skipping read"
            else py "No USB connection, skipping read"]) st).
Proof.
  intros [Hu|Hs]; unfold read_command.
  - rewrite Hu. reflexivity.
  - rewrite Hs. destruct (usb_connected inp); reflexivity.
Qed.

Lemma read_command_disconnected_witness :
  read_command (MkInput false true (py "debug:exit::") None 0 0) power_on
  = (Ok None,
     set_console
       (console power_on ++ [py "No USB connection, skipping read"]) power_on).
Proof.
  apply (read_command_disconnected
           (MkInput false true (py "debug:exit::") None 0 0) power_on).
  left. reflexivity.
Defined.

(** ** The dispatcher *)

(** The command [name] with [metadata] and [payload] arrives: a line is
    read, and the decoder makes these three fields of it. *)
Definition arrives (hw : board) (inp : tick_input) (name : pystr)
  (metadata payload : pyval) : Prop :=
  exists line,
    line_of inp = Some line
    /\ forall st,
        parse_command hw (Some line) st = (Ok [Some name; metadata; payload], st).

(** The state after [log(s)]. *)
Definition logged (s : pystr) (st : state) : state :=
  set_console (console st ++ [s]) st.

Lemma read_command_line (inp : tick_input) (line : pystr) (st : state) :
  line_of inp = Some line -> read_command inp st = (Ok (Some line), st).
Proof.
  unfold line_of, read_command.
  destruct (usb_connected inp); [|discriminate].
  destruct (serial_connected inp); [|discriminate].
  cbn [andb negb]. cbv zeta. destruct (0 <? len _); [|discriminate].
  intros [= <-]. reflexivity.
Qed.

(** What [handle_commands] does with the three fields once the name is
    known to be a string. *)
Definition dispatch (hw : board) (command_name : pystr)
  (metadata payload : pyval) : M unit :=
  if negb (str_in command_name COMMANDS) then
    let! line := lift (str_mod hw (py "Unknown command '%s'") command_name) in
    log line
  else if str_eqb command_name (py "blink") then handle_command_blink
  else if str_eqb command_name (py "reload") then handle_command_reload
  else if str_eqb command_name (py "exit") then handle_command_exit
  else if str_eqb command_name (py "preview") then
    handle_command_preview hw payload
  else if str_eqb command_name (py "terminal") then handle_terminal_command
  else if str_eqb command_name (py "refresh") then handle_refresh_command
  else if startswith command_name (py "show") then
    let! page := lift (list_get (split 45 command_name) 1) in
    handle_show_command hw page
  else if startswith command_name (py "store") then
    let! page := lift (list_get (split 45 command_name) 1) in
    handle_store_command hw page metadata payload
  else log (py "Command not implemented yet!").

Lemma handle_commands_dispatch (hw : board) (inp : tick_input) :
  handle_commands hw inp
  = (let! command_raw := read_command inp in
     let! cmd := parse_command hw command_raw in
     match cmd with
     | [command_name; metadata; payload] =>
         match command_name with
         | None => ret tt
         | Some command_name => dispatch hw command_name metadata payload
         end
     | _ => lift (raise_ ValueError "wrong number of values to unpack")
     end).
Proof. reflexivity. Qed.

Lemma handle_commands_arrives (hw : board) (inp : tick_input) (name : pystr)
  (metadata payload : pyval) (st : state) :
  arrives hw inp name metadata payload ->
  handle_commands hw inp st = dispatch hw name metadata payload st.
Proof.
  intros (line & Hline & Hparse). rewrite handle_commands_dispatch.
  unfold bind at 1 2. rewrite (read_command_line inp line st Hline), Hparse.
  reflexivity.
Qed.

(** *** Unknown commands *)

(** A well-formed command whose name is not in [COMMANDS] is reported on
    the console with its name, and has no other effect: neither an
    exception nor a change of the state. *)
Theorem unknown_command_logged (hw : board) (inp : tick_input)
  (name : pystr) (metadata payload : pyval) (st : state) :
  arrives hw inp name metadata payload ->
  str_in name COMMANDS = false ->
  handle_commands hw inp st
  = (Ok tt, logged (py "Unknown command '" ++ name ++ py "'") st).
Proof.
  intros Harr Hun. rewrite (handle_commands_arrives hw inp _ _ _ st Harr).
  unfold dispatch, bind. rewrite Hun. cbn [negb]. unfold lift, str_mod.
  change (py "Unknown command '%s'")
    with (py "Unknown command '" ++ py "%s" ++ py "'").
  rewrite str_mod_plain by literal_no_percent. reflexivity.
Qed.

Lemma unknown_command_logged_witness :
  handle_commands badge (receiving (py "debug:show-d:50%:eJw=")) power_on
  = (Ok tt, logged (py "Unknown command 'show-d'") power_on).
Proof.
  apply (unknown_command_logged badge (receiving (py "debug:show-d:50%:eJw="))
           (py "show-d") (Some (py "50%")) (Some (py "eJw=")) power_on).
  - exists (py "debug:show-d:50%:eJw="). split; [reflexivity|].
    intros st. reflexivity.
  - reflexivity.
Defined.

(** *** Leaving the loop *)

Lemma log_keep_alive_runs (hw : board) (inp : tick_input) (st : state) :
  exists st1, log_keep_alive hw inp st = (Ok tt, st1).
Proof. destruct (log_keep_alive_ok hw inp st) as (st1 & H & _). eauto. Qed.

Lemma update_blinking_runs (st : state) :
  update_blinking st
  = (Ok tt,
     set_led_value (if should_blink_led st then negb (led_value st) else false) st).
Proof.
  unfold update_blinking, bind, get, modify.
  destruct (should_blink_led st); reflexivity.
Qed.

(** A pass, up to the handling of the command. *)
Lemma tick_steps (hw : board) (inp : tick_input) (st : state) :
  tick hw inp st
  = let st1 := snd (log_keep_alive hw inp st) in
    let st2 :=
      set_led_value (if should_blink_led st1 then negb (led_value st1)
                     else false) st1 in
    match handle_commands hw inp st2 with
    | (Ok _, st3) =>
        (refresh_if_needed hw inp ;;
         modify (fun st => set_iteration (iteration st + 1) st)) st3
    | (Raise e, st3) => (Raise e, st3)
    end.
Proof.
  unfold tick. unfold bind at 1 2 3.
  destruct (log_keep_alive_runs hw inp st) as (st1 & ->).
  rewrite update_blinking_runs. reflexivity.
Qed.

(** The commands [exit] and [reload] end the main loop whatever follows:
    [sys.exit()] and [supervisor.reload()] leave by an exception that no
    [except Exception] clause catches.  The pass is not completed (the
    tick counter keeps its value) and the last line on the console
    announces the command. *)
Theorem exit_and_reload_leave_loop (hw : board) (inp : tick_input)
  (rest : list tick_input) (name : pystr) (metadata payload : pyval)
  (st : state) :
  arrives hw inp name metadata payload ->
  name = py "exit" \/ name = py "reload" ->
  exists st',
    main_loop hw (inp :: rest) st
    = (Raise (MkExn (if str_eqb name (py "exit") then SystemExit
                     else ReloadException) []), st')
    /\ iteration st' = iteration st
    /\ last (console st')
       = Some ((if str_eqb name (py "exit") then py "Exiting" else py "Reloading")
               ++ ELLIPSIS).
Proof.
  intros Harr Hname. cbn [main_loop]. unfold tick, bind at 1 2 3 4 5.
  destruct (log_keep_alive_runs hw inp st) as (st1 & H1).
  pose proof (keeps_log_keep_alive hw inp st) as [K1 _].
  rewrite H1 in K1 |- *. cbn [snd] in K1. rewrite update_blinking_runs.
  rewrite (handle_commands_arrives hw inp _ _ _ _ Harr).
  destruct Hname as [-> | ->]; eexists;
    (split; [reflexivity|]); cbn [snd iteration set_led_value];
    (split; [exact K1|]); cbn; rewrite last_snoc; reflexivity.
Qed.

Lemma exit_and_reload_leave_loop_witness :
  exists st',
    main_loop badge [receiving (py "ZXhpdDo6"); receiving (py "debug:refresh::")]
      power_on
    = (Raise (MkExn SystemExit []), st')
    /\ iteration st' = iteration power_on
    /\ last (console st') = Some (py "Exiting" ++ ELLIPSIS).
Proof.
  apply (exit_and_reload_leave_loop badge (receiving (py "ZXhpdDo6"))
           [receiving (py "debug:refresh::")] (py "exit") (Some []) (Some [])
           power_on).
  - exists (py "ZXhpdDo6"). split; [reflexivity|]. intros st. reflexivity.
  - left. reflexivity.
Defined.

(** *** What no command does *)

(** Whatever arrives, handling it neither refreshes the display nor
    advances the tick counter, drives the LED or changes the write
    protection of the drive; and nothing is ever removed from the
    console.  This holds also when the handling ends in an exception. *)
Theorem commands_frame (hw : board) (inp : tick_input) (st : state) :
  let st' := snd (handle_commands hw inp st) in
  iteration st' = iteration st
  /\ refreshed_at st' = refreshed_at st
  /\ led_value st' = led_value st
  /\ fs_readonly st' = fs_readonly st
  /\ exists lines, console st' = console st ++ lines.
Proof.
  cbv zeta.
  assert (Hsame : untouched (fun s => (iteration s, refreshed_at s, led_value s,
                                       fs_readonly s))
                    st (snd (handle_commands hw inp st))).
  { apply respects_handle_commands; try apply _; intros; reflexivity. }
  assert (Hgrow : console_grows st (snd (handle_commands hw inp st))).
  { apply respects_handle_commands; try apply _; intros;
      first [eexists [_]; reflexivity
            |exists []; cbn; rewrite app_nil_r; reflexivity]. }
  unfold untouched in Hsame. injection Hsame as -> -> -> ->. auto.
Qed.

(** *** The LED *)

(** After every pass, however it ends, the LED is what the blink setting
    at the start of the pass says: toggled when blinking is on, off
    when it is not.  A [blink] command therefore shows on the LED from
    the pass after the one that received it. *)
Theorem led_follows_blink_setting (hw : board) (inp : tick_input) (st : state) :
  led_value (snd (tick hw inp st))
  = if should_blink_led st then negb (led_value st) else false.
Proof.
  unfold tick. unfold bind at 1 2.
  destruct (log_keep_alive_runs hw inp st) as (st1 & H1).
  assert (K1 : untouched (fun s => (should_blink_led s, led_value s)) st
                 (snd (log_keep_alive hw inp st))).
  { apply respects_log_keep_alive; try apply _; intros; reflexivity. }
  rewrite H1 in K1 |- *. cbn [snd] in K1. unfold untouched in K1.
  injection K1 as Kb Kl. rewrite update_blinking_runs, Kb, Kl.
  set (st2 := set_led_value _ st1).
  assert (K : untouched led_value st2
                (snd ((handle_commands hw inp ;; refresh_if_needed hw inp ;;
                       modify (fun st => set_iteration (iteration st + 1) st))
                        st2))).
  { apply respects_bind; [apply _| |intros _; apply respects_bind;
                                    [apply _| |intros _; apply respects_modify]].
    - apply respects_handle_commands; try apply _; intros; reflexivity.
    - apply respects_refresh_if_needed; try apply _; intros; reflexivity.
    - intros; reflexivity. }
  unfold untouched in K. rewrite K. reflexivity.
Qed.

(** The pass that receives a [blink] command ends with the blink setting
    inverted, whether or not the refresh that may follow in the same pass
    succeeds. *)
Theorem blink_command_inverts (hw : board) (inp : tick_input)
  (metadata payload : pyval) (st : state) :
  arrives hw inp (py "blink") metadata payload ->
  should_blink_led (snd (tick hw inp st)) = negb (should_blink_led st).
Proof.
  intros Harr. rewrite tick_steps. cbv zeta.
  assert (K1 : untouched should_blink_led st (snd (log_keep_alive hw inp st))).
  { apply respects_log_keep_alive; try apply _; intros; reflexivity. }
  unfold untouched in K1.
  set (st2 := set_led_value _ _).
  rewrite (handle_commands_arrives hw inp _ _ _ _ Harr).
  set (st3 := set_should_blink_led (negb (should_blink_led st2))
                (logged (py "Changing blink status" ++ ELLIPSIS) st2)).
  assert (Hd : dispatch hw (py "blink") metadata payload st2 = (Ok tt, st3))
    by reflexivity.
  rewrite Hd.
  assert (K : untouched should_blink_led st3
                (snd ((refresh_if_needed hw inp ;;
                       modify (fun st => set_iteration (iteration st + 1) st))
                        st3))).
  { apply respects_bind; [apply _| |intros _; apply respects_modify].
    - apply respects_refresh_if_needed; try apply _; intros; reflexivity.
    - intros; reflexivity. }
  unfold untouched in K. rewrite K. subst st3 st2. unfold logged.
  cbn [should_blink_led set_should_blink_led set_console set_led_value].
  rewrite K1. reflexivity.
Qed.

Lemma blink_command_inverts_witness :
  should_blink_led (snd (tick badge (receiving (py "debug:blink::")) power_on))
  = negb (should_blink_led power_on).
Proof.
  apply (blink_command_inverts badge (receiving (py "debug:blink::"))
           (Some []) (Some []) power_on).
  exists (py "debug:blink::"). split; [reflexivity|]. intros st. reflexivity.
Defined.

(** ** The keep-alive line *)

(** The two decimal digits of a number below 100. *)
Definition two_digits (n : Z) : pystr := [48 + n / 10; 48 + n mod 10].

Lemma format_02_of_nat (k : nat) :
  (k < 100)%nat -> format_02 (Z.of_nat k) = two_digits (Z.of_nat k).
Proof.
  intros Hk. do 100 (destruct k as [|k]; [reflexivity|]). lia.
Qed.

Lemma format_02_two_digits (n : Z) :
  0 <= n < 100 -> format_02 n = two_digits n.
Proof.
  intros Hn. rewrite <- (Z2Nat.id n) by lia. apply format_02_of_nat. lia.
Qed.

(** With the minutes and seconds of a clock, [log_keep_alive] never
    raises; it writes one line on every sixteenth pass (ticks 0, 16, 32,
    ...: [int(5 / 0.3)] is 16) and does nothing on the others.  The line
    shows the time as two digits each for minutes and seconds. *)
Theorem keep_alive_every_16 (hw : board) (inp : tick_input) (st : state) :
  0 <= tm_min inp < 60 -> 0 <= tm_sec inp < 60 ->
  log_keep_alive hw inp st
  = (Ok tt,
     if iteration st mod 16 =? 0 then
       logged (py "Awaiting commands" ++ ELLIPSIS ++ py " (--:"
               ++ two_digits (tm_min inp) ++ py ":" ++ two_digits (tm_sec inp)
               ++ py ")") st
     else st).
Proof.
  intros Hm Hs. unfold log_keep_alive, bind, get. cbv zeta.
  change (int_of_Q (KEEP_ALIVE / LOOP_CYCLE)) with 16.
  destruct (iteration st mod 16 =? 0); [|reflexivity].
  unfold str_mod, lift.
  change (py "Awaiting commands" ++ ELLIPSIS ++ py " (%s)")
    with ((py "Awaiting commands" ++ ELLIPSIS ++ py " (") ++ py "%s" ++ py ")").
  rewrite str_mod_plain by literal_no_percent.
  rewrite !format_02_two_digits by lia. reflexivity.
Qed.

Lemma keep_alive_every_16_witness :
  log_keep_alive badge (MkInput true true [] None 7 42) power_on
  = (Ok tt, logged (py "Awaiting commands" ++ ELLIPSIS ++ py " (--:07:42)")
              power_on).
Proof.
  apply (keep_alive_every_16 badge (MkInput true true [] None 7 42) power_on);
    cbn; lia.
Defined.

(** ** The tick counter *)

Lemma tick_counter (hw : board) (inp : tick_input) (st : state) :
  iteration (snd (tick hw inp st))
  = match fst (tick hw inp st) with
    | Ok _ => iteration st + 1
    | Raise _ => iteration st
    end.
Proof.
  rewrite tick_steps. cbv zeta.
  pose proof (keeps_log_keep_alive hw inp st) as [K1 _].
  set (st2 := set_led_value _ _).
  assert (K2 : iteration st2 = iteration st) by exact K1.
  pose proof (keeps_handle_commands hw inp st2) as [K3 _].
  destruct (handle_commands hw inp st2) as [[u|e] st3]; cbn [snd fst] in *;
    [|congruence].
  unfold bind. rewrite refresh_if_needed_cases.
  destruct (_ && _); [|cbn; lia].
  destruct (refresh_error inp) as [e|]; [|cbn; lia].
  destruct (is_Exception e); cbn; congruence.
Qed.

(** The tick counter counts the completed passes.  A run that ends
    normally has advanced it by the number of passes.  A run that an
    exception ends has advanced it by the number [k] of passes that were
    completed before: the first [k] passes end normally, the next one
    raises the exception the run ends with, and the state is the one
    that pass left. *)
Theorem main_loop_counts_passes (hw : board) (inps : list tick_input)
  (st : state) :
  match main_loop hw inps st with
  | (Ok _, st') => iteration st' = iteration st + len inps
  | (Raise e, st') =>
      exists (k : nat) (inp : tick_input) (st_k : state),
        inps !! k = Some inp
        /\ main_loop hw (take k inps) st = (Ok tt, st_k)
        /\ tick hw inp st_k = (Raise e, st')
        /\ iteration st_k = iteration st + Z.of_nat k
        /\ iteration st' = iteration st + Z.of_nat k
  end.
Proof.
  revert st. induction inps as [|inp rest IH]; intros st.
  - cbn. unfold len. cbn [length]. lia.
  - cbn [main_loop]. unfold bind. pose proof (tick_counter hw inp st) as Ht.
    destruct (tick hw inp st) as [[[]|e] st1] eqn:Hpass; cbn [fst snd] in Ht.
    + specialize (IH st1). unfold len in *. cbn [length].
      destruct (main_loop hw rest st1) as [[u'|e'] st']; [lia|].
      destruct IH as (k & inp' & st_k & Hk & Hfront & Hraise & Hik & Hi').
      exists (S k), inp', st_k. split; [exact Hk|].
      split; [cbn [take main_loop]; unfold bind; rewrite Hpass; exact Hfront|].
      split; [exact Hraise|]. lia.
    + exists 0%nat, inp, st. split; [reflexivity|].
      split; [reflexivity|]. split; [exact Hpass|]. lia.
Qed.

(** ** The drive *)

Lemma dispatch_reads_only (hw : board) (name : pystr)
  (metadata payload : pyval) (st : state) :
  str_in name COMMANDS && startswith name (py "store") = false ->
  files (snd (dispatch hw name metadata payload st)) = files st.
Proof.
  intros Hns. change (untouched files st (snd (dispatch hw name metadata payload st))).
  revert st. change (respects (untouched files) (dispatch hw name metadata payload)).
  unfold dispatch.
  destruct (str_in name COMMANDS); cbn [negb andb] in *.
  2:{ apply respects_bind; [apply _|apply respects_lift; apply _|].
      intros line st. reflexivity. }
  rewrite Hns.
  repeat match goal with
         | |- respects _ (if ?b then _ else _) => destruct b
         end;
    first
      [ apply respects_handle_command_preview; try apply _; intros; reflexivity
      | apply respects_bind;
        [apply _|apply respects_lift; apply _
        |intro; apply respects_handle_show_command; try apply _; intros;
         reflexivity]
      | intros st; reflexivity ].
Qed.

(** Only the store commands write to the drive: if the files differ
    after a command was handled, the line decoded to a command of
    [COMMANDS] whose name begins with [store]. *)
Theorem only_store_writes (hw : board) (inp : tick_input) (st : state) :
  files (snd (handle_commands hw inp st)) <> files st ->
  exists line name metadata payload,
    line_of inp = Some line
    /\ fst (parse_command hw (Some line) st) = Ok [Some name; metadata; payload]
    /\ str_in name COMMANDS = true
    /\ startswith name (py "store") = true.
Proof.
  intros Hdiff. rewrite handle_commands_dispatch in Hdiff.
  unfold bind at 1 2 in Hdiff.
  destruct (line_of inp) as [line|] eqn:Hline.
  - rewrite (read_command_line inp line st Hline) in Hdiff.
    assert (Kp : untouched files st (snd (parse_command hw (Some line) st))).
    { apply respects_parse_command; try apply _; intros; reflexivity. }
    unfold untouched in Kp.
    destruct (parse_command hw (Some line) st) as [[cmd|e] st2] eqn:Hp;
      cbn [snd] in *; [|contradiction].
    destruct cmd as [|[name|] [|metadata [|payload [|]]]];
      try (cbn in Hdiff; contradiction).
    destruct (str_in name COMMANDS && startswith name (py "store")) eqn:Hs.
    + apply andb_true_iff in Hs as [Hin Hstore].
      exists line, name, metadata, payload. rewrite Hp. auto.
    + exfalso. apply Hdiff. rewrite <- Kp.
      apply dispatch_reads_only, Hs.
  - exfalso. apply Hdiff.
    assert (Kr : untouched files st (snd (read_command inp st))).
    { apply respects_read_command; try apply _; intros; reflexivity. }
    destruct (read_command_ok inp st) as (st1 & Hr & _).
    rewrite Hr in Kr |- *. rewrite Hline. exact Kr.
Qed.

(** ** Stored images *)

(** *** The Base64 decoder yields bytes *)

Lemma sextet_range (c s : Z) : Base64.sextet c = Some s -> 0 <= s < 64.
Proof.
  unfold Base64.sextet.
  repeat match goal with
         | |- context [if ?b then _ else _] => destruct b eqn:?
         end; intros [= <-]; lia.
Qed.

Lemma a2b_go_bytes (inp : pybytes) :
  forall shift nbits hadpad,
    0 <= shift < 2 ^ nbits ->
    nbits = 0 \/ nbits = 2 \/ nbits = 4 \/ nbits = 6 ->
    Forall is_byte (snd (Base64.a2b_go inp shift nbits hadpad)).
Proof.
  induction inp as [|c rest IH]; intros shift nbits hadpad Hs Hn;
    [constructor|].
  cbn [Base64.a2b_go].
  destruct ((c =? Base64.pad) && _); [constructor|]. cbv zeta.
  destruct (Base64.sextet c) as [s|] eqn:Hc; [|apply IH; assumption].
  apply sextet_range in Hc.
  destruct Hn as [-> | [-> | [-> | ->]]].
  - change (8 <=? 0 + 6) with false. cbv iota. apply IH; [|auto].
    change (2 ^ (0 + 6)) with 64. change (2 ^ 0) with 1 in Hs. lia.
  - change (8 <=? 2 + 6) with true. cbv iota.
    change (2 + 6 - 8) with 0. change (2 ^ 0) with 1.
    change (2 ^ 2) with 4 in Hs.
    specialize (IH ((shift * 64 + s) mod 1) 0 false).
    destruct (Base64.a2b_go rest _ 0 false) as [n out]. cbn [snd] in *.
    constructor; [unfold is_byte; by_div_lia|].
    apply IH; [change (2 ^ 0) with 1; by_div_lia|auto].
  - change (8 <=? 4 + 6) with true. cbv iota.
    change (4 + 6 - 8) with 2. change (2 ^ 2) with 4.
    change (2 ^ 4) with 16 in Hs.
    specialize (IH ((shift * 64 + s) mod 4) 2 false).
    destruct (Base64.a2b_go rest _ 2 false) as [n out]. cbn [snd] in *.
    constructor; [unfold is_byte; by_div_lia|].
    apply IH; [change (2 ^ 2) with 4; by_div_lia|auto].
  - change (8 <=? 6 + 6) with true. cbv iota.
    change (6 + 6 - 8) with 4. change (2 ^ 4) with 16.
    change (2 ^ 6) with 64 in Hs.
    specialize (IH ((shift * 64 + s) mod 16) 4 false).
    destruct (Base64.a2b_go rest _ 4 false) as [n out]. cbn [snd] in *.
    constructor; [unfold is_byte; by_div_lia|].
    apply IH; [change (2 ^ 4) with 16; by_div_lia|auto].
Qed.

Lemma b64decode_bytes (s : pystr) (raw : pybytes) :
  Base64.b64decode s = Ok raw -> Forall is_byte raw.
Proof.
  unfold Base64.b64decode. destruct (Utf8.encode s) as [bs|e]; [|discriminate].
  cbn [obind]. unfold Base64.a2b_base64.
  pose proof (a2b_go_bytes bs 0 0 false) as Hb.
  destruct (Base64.a2b_go bs 0 0 false) as [n out]. cbn [snd] in Hb.
  destruct (n =? 0); [|discriminate]. intros [= <-].
  apply Hb; [change (2 ^ 0) with 1; lia|auto].
Qed.

(** The text of an encoding decodes to the bytes encoded. *)
Lemma b64decode_b64encode (raw : pybytes) :
  Forall is_byte raw -> Base64.b64decode (Base64.b64encode raw) = Ok raw.
Proof.
  intros Hraw. unfold Base64.b64decode.
  rewrite utf8_encode_ascii by (apply b64_text_ascii, b64encode_chars, Hraw).
  cbn [obind]. apply base64_round_trip, Hraw.
Qed.

Lemma b64encode_no_percent (raw : pybytes) :
  Forall is_byte raw -> no_percent (Base64.b64encode raw).
Proof.
  intros Hraw. eapply Forall_impl; [apply b64encode_chars, Hraw|].
  intros c. unfold is_b64_char, Base64.pad. lia.
Qed.

Lemma no_percent_trunc (s : pystr) : no_percent s -> no_percent (trunc s).
Proof.
  intros Hs. destruct (Z.le_gt_cases (len s) MAX_OUTPUT_LEN) as [Hle|Hgt].
  - rewrite trunc_short by exact Hle. exact Hs.
  - rewrite trunc_long by lia.
    apply no_percent_app; [apply Forall_take, Hs|].
    apply no_percent_app; [literal_no_percent|apply Forall_drop, Hs].
Qed.

(** *** Files *)

(** Every file on the drive holds bytes. *)
Definition files_hold_bytes (st : state) : Prop :=
  forall name content, files st !! name = Some content -> Forall is_byte content.

Definition meta_file (name : pystr) : pystr := name ++ py ".metadata.base64".
Definition payload_file (name : pystr) : pystr := name ++ py ".bin.gz.base64".

Lemma meta_file_name (hw : board) (name : pystr) :
  str_mod hw (py "%s.metadata.base64") name = Ok (meta_file name).
Proof.
  unfold str_mod.
  change (py "%s.metadata.base64") with ([] ++ py "%s" ++ py ".metadata.base64").
  rewrite str_mod_plain; [reflexivity|constructor|literal_no_percent].
Qed.

Lemma payload_file_name (hw : board) (name : pystr) :
  str_mod hw (py "%s.bin.gz.base64") name = Ok (payload_file name).
Proof.
  unfold str_mod.
  change (py "%s.bin.gz.base64") with ([] ++ py "%s" ++ py ".bin.gz.base64").
  rewrite str_mod_plain; [reflexivity|constructor|literal_no_percent].
Qed.

Lemma file_names_differ (name : pystr) : meta_file name <> payload_file name.
Proof.
  unfold meta_file, payload_file. intros H. apply app_inv_head in H.
  discriminate.
Qed.

(** The three ways [write_b64_as_file] can go. *)
Lemma write_b64_as_file_ok (s : pystr) (raw : pybytes) (f : pystr) (st : state) :
  fs_readonly st = false -> Base64.b64decode s = Ok raw ->
  write_b64_as_file (Some s) f st
  = (Ok tt, set_files (<[f := raw]> (files st)) st).
Proof.
  intros Hrw Hd. unfold write_b64_as_file, open_wb, file_write, bind, get, lift,
    modify. rewrite Hrw. cbn [as_str obind]. rewrite Hd.
  cbn [files set_files]. rewrite lookup_insert_eq, insert_insert_eq.
  reflexivity.
Qed.

Lemma write_b64_as_file_bad (v : pyval) (e : exn) (f : pystr) (st : state) :
  fs_readonly st = false ->
  (let* s := as_str v in Base64.b64decode s) = Raise e ->
  write_b64_as_file v f st = (Raise e, set_files (<[f := []]> (files st)) st).
Proof.
  intros Hrw Hd. unfold write_b64_as_file, open_wb, bind, get, lift, modify.
  rewrite Hrw, Hd. reflexivity.
Qed.

Lemma write_b64_as_file_readonly (v : pyval) (f : pystr) (st : state) :
  fs_readonly st = true ->
  write_b64_as_file v f st
  = (Raise (MkExn OSError (py "[Errno 30] Read-only filesystem")), st).
Proof.
  intros Hro. unfold write_b64_as_file, open_wb, bind, get, lift.
  rewrite Hro. reflexivity.
Qed.

Lemma read_file_as_b64_ok (f : pystr) (raw : pybytes) (st : state) :
  files st !! f = Some raw -> Forall is_byte raw ->
  read_file_as_b64 f st = (Ok (Base64.b64encode raw), st).
Proof.
  intros Hf Hraw. unfold read_file_as_b64, read_rb, bind, get, lift, ret.
  rewrite Hf. cbv zeta.
  rewrite utf8_decode_ascii by (apply b64_text_ascii, b64encode_chars, Hraw).
  reflexivity.
Qed.

Lemma read_file_as_b64_missing (f : pystr) (st : state) :
  files st !! f = None ->
  read_file_as_b64 f st
  = (Raise (MkExn OSError (py "[Errno 2] No such file/directory")), st).
Proof.
  intros Hf. unfold read_file_as_b64, read_rb, bind, get, lift. rewrite Hf.
  reflexivity.
Qed.

(** On a writable drive, writing a Base64 text to a file and reading the
    file back gives the canonical Base64 text of the same bytes: the two
    texts decode alike, and the file holds what they decode to.  (The
    texts themselves differ when the one written carries line breaks or
    other characters the decoder skips.) *)
Theorem write_then_read (s : pystr) (raw : pybytes) (f : pystr) (st : state) :
  fs_readonly st = false -> Base64.b64decode s = Ok raw ->
  exists st1 text,
    write_b64_as_file (Some s) f st = (Ok tt, st1)
    /\ files st1 !! f = Some raw
    /\ read_file_as_b64 f st1 = (Ok text, st1)
    /\ text = Base64.b64encode raw
    /\ Base64.b64decode text = Ok raw.
Proof.
  intros Hrw Hd. pose proof (b64decode_bytes s raw Hd) as Hraw.
  eexists _, _. split; [apply write_b64_as_file_ok; eassumption|].
  split; [apply lookup_insert_eq|].
  split; [apply read_file_as_b64_ok; [apply lookup_insert_eq|exact Hraw]|].
  split; [reflexivity|apply b64decode_b64encode, Hraw].
Qed.

Lemma write_then_read_witness :
  exists st1 text,
    write_b64_as_file (Some (py "aGk" ++ [10] ++ py "h")) (py "a.txt") power_on
    = (Ok tt, st1)
    /\ files st1 !! py "a.txt" = Some [104; 105; 33]
    /\ read_file_as_b64 (py "a.txt") st1 = (Ok text, st1)
    /\ text = Base64.b64encode [104; 105; 33]
    /\ Base64.b64decode text = Ok [104; 105; 33].
Proof.
  apply (write_then_read (py "aGk" ++ [10] ++ py "h") [104; 105; 33]
           (py "a.txt") power_on); reflexivity.
Defined.

(** *** Storing *)

(** The statements of the [try] block of [handle_store_command]. *)
Definition store_block (hw : board) (name : pystr) (metadata payload : pyval)
  : M unit :=
  let! meta_file := lift (str_mod hw (py "%s.metadata.base64") name) in
  write_b64_as_file metadata meta_file ;;
  let! payload_file := lift (str_mod hw (py "%s.bin.gz.base64") name) in
  write_b64_as_file payload payload_file.

(** Its [except] clause. *)
Definition store_failed (hw : board) (metadata payload : pyval) (e : exn)
  : M unit :=
  let! line :=
    lift (let* m := as_str metadata in
          let* p := as_str payload in
          str_mod hw (py "Storing failed for: '" ++ trunc m ++ py "':'"
                      ++ trunc p ++ py "'." ++ NL ++ py "%s") (format_e hw e)) in
  log line.

Lemma handle_store_command_blocks (hw : board) (name : pystr)
  (metadata payload : pyval) :
  handle_store_command hw name metadata payload
  = (log (py "Storing image" ++ ELLIPSIS) ;;
     try_except (store_block hw name metadata payload)
       (store_failed hw metadata payload)).
Proof. reflexivity. Qed.

(** The bytes a field decodes to. *)
Definition decoded (v : pyval) : outcome pybytes :=
  let* s := as_str v in Base64.b64decode s.

Lemma decoded_raises (v : pyval) (e : exn) :
  decoded v = Raise e -> is_Exception e = true.
Proof.
  destruct v as [s|]; cbn.
  - apply b64decode_raises.
  - intros [= <-]. reflexivity.
Qed.

Lemma write_b64_as_file_cases (v : pyval) (f : pystr) (st : state) :
  write_b64_as_file v f st
  = if fs_readonly st then
      (Raise (MkExn OSError (py "[Errno 30] Read-only filesystem")), st)
    else
      match decoded v with
      | Ok raw => (Ok tt, set_files (<[f := raw]> (files st)) st)
      | Raise e => (Raise e, set_files (<[f := []]> (files st)) st)
      end.
Proof.
  destruct (fs_readonly st) eqn:Hro.
  - apply write_b64_as_file_readonly, Hro.
  - destruct (decoded v) as [raw|e] eqn:Hd.
    + destruct v as [s|]; [|discriminate].
      apply write_b64_as_file_ok; assumption.
    + apply write_b64_as_file_bad; assumption.
Qed.

(** What the [try] block does. *)
Lemma store_block_cases (hw : board) (name : pystr) (metadata payload : pyval)
  (st : state) :
  store_block hw name metadata payload st
  = if fs_readonly st then
      (Raise (MkExn OSError (py "[Errno 30] Read-only filesystem")), st)
    else
      match decoded metadata with
      | Raise e => (Raise e, set_files (<[meta_file name := []]> (files st)) st)
      | Ok mraw =>
          match decoded payload with
          | Raise e =>
              (Raise e,
               set_files (<[payload_file name := []]>
                            (<[meta_file name := mraw]> (files st))) st)
          | Ok praw =>
              (Ok tt,
               set_files (<[payload_file name := praw]>
                            (<[meta_file name := mraw]> (files st))) st)
          end
      end.
Proof.
  unfold store_block. unfold bind at 1, lift at 1. rewrite meta_file_name.
  unfold bind at 1. rewrite write_b64_as_file_cases.
  destruct (fs_readonly st) eqn:Hro; [reflexivity|].
  destruct (decoded metadata) as [mraw|e]; [|reflexivity].
  unfold bind at 1, lift at 1. rewrite payload_file_name.
  rewrite write_b64_as_file_cases. cbn [fs_readonly set_files]. rewrite Hro.
  destruct (decoded payload) as [praw|e]; reflexivity.
Qed.

Lemma store_failed_files (hw : board) (metadata payload : pyval) (e : exn)
  (st : state) :
  files (snd (store_failed hw metadata payload e st)) = files st.
Proof.
  change (untouched files st (snd (store_failed hw metadata payload e st))).
  revert st. apply respects_bind; [apply _|apply respects_lift; apply _|].
  intros line st. reflexivity.
Qed.

(** The files after a store command. *)
Lemma store_files (hw : board) (name : pystr)
  (metadata payload : pyval) (st : state) :
  files (snd (handle_store_command hw name metadata payload st))
  = if fs_readonly st then files st
    else
      match decoded metadata with
      | Raise _ => <[meta_file name := []]> (files st)
      | Ok mraw =>
          match decoded payload with
          | Raise _ =>
              <[payload_file name := []]> (<[meta_file name := mraw]> (files st))
          | Ok praw =>
              <[payload_file name := praw]> (<[meta_file name := mraw]> (files st))
          end
      end.
Proof.
  rewrite handle_store_command_blocks.
  unfold bind, log, modify, try_except, try_step. cbn [DEBUG].
  rewrite store_block_cases. cbn [fs_readonly files set_console].
  destruct (fs_readonly st).
  - cbn [is_Exception exn_cls]. rewrite store_failed_files. reflexivity.
  - destruct (decoded metadata) as [mraw|e] eqn:Hm.
    + destruct (decoded payload) as [praw|e] eqn:Hp; [reflexivity|].
      rewrite (decoded_raises _ _ Hp). rewrite store_failed_files. reflexivity.
    + rewrite (decoded_raises _ _ Hm). rewrite store_failed_files. reflexivity.
Qed.

(** What a store command leaves on the drive, however the handler ends.
    A write-protected drive is left as it is.  On a writable drive each
    file is emptied when it is opened, before its field is decoded: if
    the metadata do not decode, the metadata file is left empty and the
    image file as it was; if the metadata decode and the payload does
    not, the metadata are replaced and the image file is left empty, so
    an image stored under that name before is lost; if both decode,
    both files hold the decoded bytes. *)
Theorem store_effect_on_files (hw : board) (name : pystr)
  (metadata payload : pyval) (st : state) :
  files (snd (handle_store_command hw name metadata payload st))
  = if fs_readonly st then files st
    else
      match decoded metadata with
      | Raise _ => <[meta_file name := []]> (files st)
      | Ok mraw =>
          match decoded payload with
          | Raise _ =>
              <[payload_file name := []]> (<[meta_file name := mraw]> (files st))
          | Ok praw =>
              <[payload_file name := praw]> (<[meta_file name := mraw]> (files st))
          end
      end.
Proof.
  rewrite handle_store_command_blocks.
  unfold bind, log, modify, try_except, try_step. cbn [DEBUG].
  rewrite store_block_cases. cbn [fs_readonly files set_console].
  destruct (fs_readonly st).
  - cbn [is_Exception exn_cls]. rewrite store_failed_files. reflexivity.
  - destruct (decoded metadata) as [mraw|e] eqn:Hm.
    + destruct (decoded payload) as [praw|e] eqn:Hp; [reflexivity|].
      rewrite (decoded_raises _ _ Hp). rewrite store_failed_files. reflexivity.
    + rewrite (decoded_raises _ _ Hm). rewrite store_failed_files. reflexivity.
Qed.

(** The store command when nothing fails. *)
Lemma handle_store_command_ok (hw : board) (name metadata payload : pystr)
  (mraw praw : pybytes) (st : state) :
  fs_readonly st = false ->
  Base64.b64decode metadata = Ok mraw -> Base64.b64decode payload = Ok praw ->
  handle_store_command hw name (Some metadata) (Some payload) st
  = (Ok tt,
     set_files (<[payload_file name := praw]>
                  (<[meta_file name := mraw]> (files st)))
       (logged (py "Storing image" ++ ELLIPSIS) st)).
Proof.
  intros Hrw Hm Hp. rewrite handle_store_command_blocks.
  unfold bind, log, modify, try_except, try_step. cbn [DEBUG].
  rewrite store_block_cases. cbn [fs_readonly files set_console].
  rewrite Hrw. cbn [decoded as_str obind]. rewrite Hm, Hp. reflexivity.
Qed.

(** A store command whose two fields decode, on a writable drive, ends
    normally; it writes the decoded bytes to the two files of the slot
    and one line to the console, and changes nothing else. *)
Theorem store_writes_both (hw : board) (name metadata payload : pystr)
  (mraw praw : pybytes) (st : state) :
  fs_readonly st = false ->
  Base64.b64decode metadata = Ok mraw -> Base64.b64decode payload = Ok praw ->
  handle_store_command hw name (Some metadata) (Some payload) st
  = (Ok tt,
     set_files (<[payload_file name := praw]>
                  (<[meta_file name := mraw]> (files st)))
       (logged (py "Storing image" ++ ELLIPSIS) st)).
Proof.
  intros Hrw Hm Hp. rewrite handle_store_command_blocks.
  unfold bind, log, modify, try_except, try_step. cbn [DEBUG].
  rewrite store_block_cases. cbn [fs_readonly files set_console].
  rewrite Hrw. cbn [decoded as_str obind]. rewrite Hm, Hp. reflexivity.
Qed.

Lemma store_writes_both_witness :
  handle_store_command badge (py "a") (Some (py "aGkh")) (Some (py "eJw=")) power_on
  = (Ok tt,
     set_files (<[payload_file (py "a") := [120; 156]]>
                  (<[meta_file (py "a") := [104; 105; 33]]> (files power_on)))
       (logged (py "Storing image" ++ ELLIPSIS) power_on)).
Proof.
  apply (store_writes_both badge (py "a") (py "aGkh") (py "eJw=")
           [104; 105; 33] [120; 156] power_on); reflexivity.
Defined.

(** *** Showing *)

Definition show_failed (hw : board) (meta_b64 payload_b64 : pystr) (e : exn)
  : pystr :=
  py "Showing failed for: '" ++ trunc meta_b64 ++ py "':'"
  ++ trunc payload_b64 ++ py "'." ++ NL ++ format_e hw e.

Lemma show_failed_message (hw : board) (m p : pystr) (e : exn) :
  no_percent (trunc m) -> no_percent (trunc p) ->
  str_mod hw (py "Showing failed for: '" ++ trunc m ++ py "':'"
              ++ trunc p ++ py "'." ++ NL ++ py "%s") (format_e hw e)
  = Ok (show_failed hw m p e).
Proof.
  intros Hm Hp. unfold str_mod, show_failed.
  replace (py "Showing failed for: '" ++ trunc m ++ py "':'"
           ++ trunc p ++ py "'." ++ NL ++ py "%s")
    with ((py "Showing failed for: '" ++ trunc m ++ py "':'"
           ++ trunc p ++ py "'." ++ NL) ++ py "%s" ++ [])
    by (rewrite <- !app_assoc, app_nil_r; reflexivity).
  rewrite str_mod_plain.
  - rewrite app_nil_r, <- !app_assoc. reflexivity.
  - repeat (apply no_percent_app; [first [assumption|literal_no_percent]|]).
    literal_no_percent.
  - constructor.
Qed.

Definition ENOENT : exn := MkExn OSError (py "[Errno 2] No such file/directory").

(** What [handle_show_command] does on a drive whose files hold bytes. *)
Lemma handle_show_command_cases (hw : board) (name : pystr) (st : state) :
  files_hold_bytes st ->
  handle_show_command hw name st
  = (Ok tt,
     let st0 := logged (py "Showing image" ++ ELLIPSIS) st in
     match files st !! meta_file name with
     | None => logged (show_failed hw [] [] ENOENT) st0
     | Some mraw =>
         match files st !! payload_file name with
         | None => logged (show_failed hw (Base64.b64encode mraw) [] ENOENT) st0
         | Some praw =>
             match decode_payload hw (Base64.b64encode praw) with
             | Ok (bm, pal) =>
                 set_should_refresh true (set_root_group (Group [(bm, pal)]) st0)
             | Raise e =>
                 logged (show_failed hw (Base64.b64encode mraw)
                           (Base64.b64encode praw) e) st0
             end
         end
     end).
Proof.
  intros Hfs. unfold handle_show_command.
  unfold bind at 1, log at 1, modify at 1. cbn [DEBUG].
  unfold bind at 1, lift at 1. rewrite meta_file_name.
  unfold bind at 1, lift at 1. rewrite payload_file_name.
  cbv zeta. fold (logged (py "Showing image" ++ ELLIPSIS) st).
  set (st0 := logged (py "Showing image" ++ ELLIPSIS) st).
  assert (Hf0 : files st0 = files st) by reflexivity.
  assert (Hempty : no_percent (trunc [])) by constructor.
  unfold try_step at 1.
  destruct (files st !! meta_file name) as [mraw|] eqn:Hmf.
  2:{ rewrite read_file_as_b64_missing by (rewrite Hf0; exact Hmf).
      cbn [is_Exception exn_cls]. unfold bind, lift.
      rewrite show_failed_message by exact Hempty. reflexivity. }
  pose proof (Hfs _ _ Hmf) as Hmraw.
  rewrite (read_file_as_b64_ok _ mraw) by (rewrite ?Hf0; assumption).
  assert (Hmnp : no_percent (trunc (Base64.b64encode mraw)))
    by apply no_percent_trunc, b64encode_no_percent, Hmraw.
  unfold try_step at 1.
  destruct (files st !! payload_file name) as [praw|] eqn:Hpf.
  2:{ rewrite read_file_as_b64_missing by (rewrite Hf0; exact Hpf).
      cbn [is_Exception exn_cls]. unfold bind, lift.
      rewrite show_failed_message by assumption. reflexivity. }
  pose proof (Hfs _ _ Hpf) as Hpraw.
  rewrite (read_file_as_b64_ok _ praw) by (rewrite ?Hf0; assumption).
  assert (Hpnp : no_percent (trunc (Base64.b64encode praw)))
    by apply no_percent_trunc, b64encode_no_percent, Hpraw.
  unfold try_step at 1, lift at 1.
  destruct (decode_payload hw (Base64.b64encode praw)) as [[bm pal]|e] eqn:Hd.
  - reflexivity.
  - rewrite (decode_payload_raises hw _ e Hd). unfold bind, lift.
    rewrite show_failed_message by assumption. reflexivity.
Qed.


Lemma power_on_files_hold_bytes : files_hold_bytes power_on.
Proof. intros name content H. cbn in H. rewrite lookup_empty in H. discriminate. Qed.


(** *** Storing, then showing *)

Lemma decode_payload_same_bytes (hw : board) (p q : pystr) :
  Base64.b64decode p = Base64.b64decode q ->
  decode_payload hw p = decode_payload hw q.
Proof. intros H. unfold decode_payload. rewrite H. reflexivity. Qed.

(** After a store command that succeeded, the show command of the same
    slot puts on the display what a preview of the stored payload would
    put there: if the payload decodes to an image, that image becomes
    the display content and a refresh is requested; if not, the display
    content and the flag are left alone.  The show command ends normally
    in both cases. *)
Theorem show_after_store (hw : board) (name metadata payload : pystr)
  (mraw praw : pybytes) (st : state) :
  fs_readonly st = false ->
  Base64.b64decode metadata = Ok mraw -> Base64.b64decode payload = Ok praw ->
  let st1 := snd (handle_store_command hw name (Some metadata) (Some payload) st) in
  let shown := snd (handle_show_command hw name st1) in
  let previewed := snd (handle_command_preview hw (Some payload) st1) in
  fst (handle_show_command hw name st1) = Ok tt
  /\ display_root_group shown = display_root_group previewed
  /\ should_refresh shown = should_refresh previewed
  /\ forall bm pal,
      decode_payload hw payload = Ok (bm, pal) ->
      display_root_group shown = Group [(bm, pal)]
      /\ should_refresh shown = true.
Proof.
  intros Hrw Hm Hp. cbv zeta.
  rewrite (handle_store_command_ok hw name metadata payload mraw praw st Hrw Hm Hp).
  cbn [snd]. set (st1 := set_files _ _).
  pose proof (b64decode_bytes _ _ Hm) as Hmraw.
  pose proof (b64decode_bytes _ _ Hp) as Hpraw.
  assert (Hmf : files st1 !! meta_file name = Some mraw).
  { subst st1. cbn [files set_files].
    rewrite lookup_insert_ne by (intros H; symmetry in H;
                                 exact (file_names_differ name H)).
    apply lookup_insert_eq. }
  assert (Hpf : files st1 !! payload_file name = Some praw).
  { subst st1. cbn [files set_files]. apply lookup_insert_eq. }
  assert (Hsame : decode_payload hw (Base64.b64encode praw)
                  = decode_payload hw payload).
  { apply decode_payload_same_bytes.
    rewrite b64decode_b64encode by exact Hpraw. symmetry. exact Hp. }
  assert (Hshow :
            handle_show_command hw name st1
            = (Ok tt,
               let st0 := logged (py "Showing image" ++ ELLIPSIS) st1 in
               match decode_payload hw payload with
               | Ok (bm, pal) =>
                   set_should_refresh true
                     (set_root_group (Group [(bm, pal)]) st0)
               | Raise e =>
                   logged (show_failed hw (Base64.b64encode mraw)
                             (Base64.b64encode praw) e) st0
               end)).
  { unfold handle_show_command.
    unfold bind at 1, log at 1, modify at 1. cbn [DEBUG].
    unfold bind at 1, lift at 1. rewrite meta_file_name.
    unfold bind at 1, lift at 1. rewrite payload_file_name.
    cbv zeta. fold (logged (py "Showing image" ++ ELLIPSIS) st1).
    set (st0 := logged (py "Showing image" ++ ELLIPSIS) st1).
    assert (Hf0 : files st0 = files st1) by reflexivity.
    unfold try_step at 1.
    rewrite (read_file_as_b64_ok _ mraw) by (rewrite ?Hf0; assumption).
    unfold try_step at 1.
    rewrite (read_file_as_b64_ok _ praw) by (rewrite ?Hf0; assumption).
    unfold try_step at 1, lift at 1. rewrite Hsame.
    destruct (decode_payload hw payload) as [[bm pal]|e] eqn:Hd.
    - reflexivity.
    - rewrite (decode_payload_raises hw _ e Hd). unfold bind, lift.
      rewrite show_failed_message
        by (apply no_percent_trunc, b64encode_no_percent; assumption).
      reflexivity. }
  rewrite Hshow. cbn [fst snd]. cbv zeta. split; [reflexivity|].
  assert (Hprev :
            forall e, decode_payload hw payload = Raise e ->
                      display_root_group
                        (snd (handle_command_preview hw (Some payload) st1))
                      = display_root_group st1
                      /\ should_refresh
                           (snd (handle_command_preview hw (Some payload) st1))
                         = should_refresh st1).
  { intros e Hd.
    unfold handle_command_preview, bind, try_except, try_step, lift, log, modify.
    cbn [DEBUG as_str obind]. rewrite Hd, (decode_payload_raises hw _ e Hd).
    destruct (str_mod hw _ _); split; reflexivity. }
  destruct (decode_payload hw payload) as [[bm pal]|e] eqn:Hd.
  - assert (Hpv : handle_command_preview hw (Some payload) st1
                  = (Ok tt,
                     set_should_refresh true
                       (set_root_group (Group [(bm, pal)])
                          (logged (py "Previewing image" ++ ELLIPSIS) st1)))).
    { unfold handle_command_preview, bind, try_except, try_step, lift, log,
        modify, show_bitmap. cbn [DEBUG as_str obind]. rewrite Hd. reflexivity. }
    rewrite Hpv. cbn [snd].
    split; [reflexivity|]. split; [reflexivity|].
    intros bm' pal' [= <- <-]. split; reflexivity.
  - destruct (Hprev e eq_refl) as [-> ->].
    split; [reflexivity|]. split; [reflexivity|]. intros bm pal H. discriminate.
Qed.

Lemma show_after_store_witness :
  let st1 :=
    snd (handle_store_command pocket (py "a") (Some (py "aGkh"))
           (Some (py "eNpbyv+fAQAEwwG0")) power_on) in
  let shown := snd (handle_show_command pocket (py "a") st1) in
  let previewed :=
    snd (handle_command_preview pocket (Some (py "eNpbyv+fAQAEwwG0")) st1) in
  fst (handle_show_command pocket (py "a") st1) = Ok tt
  /\ display_root_group shown = display_root_group previewed
  /\ should_refresh shown = should_refresh previewed
  /\ forall bm pal,
      decode_payload pocket (py "eNpbyv+fAQAEwwG0") = Ok (bm, pal) ->
      display_root_group shown = Group [(bm, pal)]
      /\ should_refresh shown = true.
Proof.
  eapply (show_after_store pocket (py "a") (py "aGkh") (py "eNpbyv+fAQAEwwG0")
            [104; 105; 33] _ power_on).
  - reflexivity.
  - reflexivity.
  - vm_compute. reflexivity.
Defined.

Lemma only_store_writes_witness :
  exists line name metadata payload,
    line_of (receiving (py "debug:store-a:aGkh:eJw=")) = Some line
    /\ fst (parse_command badge (Some line) power_on)
       = Ok [Some name; metadata; payload]
    /\ str_in name COMMANDS = true
    /\ startswith name (py "store") = true.
Proof.
  apply (only_store_writes badge (receiving (py "debug:store-a:aGkh:eJw="))
           power_on).
  assert (Harr : arrives badge (receiving (py "debug:store-a:aGkh:eJw="))
                   (py "store-a") (Some (py "aGkh")) (Some (py "eJw="))).
  { exists (py "debug:store-a:aGkh:eJw="). split; [reflexivity|].
    intros st. reflexivity. }
  rewrite (handle_commands_arrives badge _ _ _ _ power_on Harr).
  change (dispatch badge (py "store-a") (Some (py "aGkh")) (Some (py "eJw="))
            power_on)
    with (handle_store_command badge (py "a") (Some (py "aGkh"))
            (Some (py "eJw=")) power_on).
  rewrite (handle_store_command_ok badge (py "a") (py "aGkh") (py "eJw=")
             [104; 105; 33] [120; 156] power_on) by reflexivity.
  cbn [snd files set_files]. intros Heq.
  apply (f_equal (fun m => m !! payload_file (py "a"))) in Heq.
  rewrite lookup_insert_eq in Heq. change (files _) with (∅ : gmap pystr pybytes) in Heq.
  rewrite lookup_empty in Heq. discriminate.
Defined.

(** ** Passes that end normally *)

Definition store_failed_line (hw : board) (m p : pystr) (e : exn) : pystr :=
  py "Storing failed for: '" ++ trunc m ++ py "':'" ++ trunc p ++ py "'."
  ++ NL ++ format_e hw e.

Lemma store_failed_message (hw : board) (m p : pystr) (e : exn) :
  no_percent (trunc m) -> no_percent (trunc p) ->
  str_mod hw (py "Storing failed for: '" ++ trunc m ++ py "':'"
              ++ trunc p ++ py "'." ++ NL ++ py "%s") (format_e hw e)
  = Ok (store_failed_line hw m p e).
Proof.
  intros Hm Hp. unfold str_mod, store_failed_line.
  replace (py "Storing failed for: '" ++ trunc m ++ py "':'"
           ++ trunc p ++ py "'." ++ NL ++ py "%s")
    with ((py "Storing failed for: '" ++ trunc m ++ py "':'"
           ++ trunc p ++ py "'." ++ NL) ++ py "%s" ++ [])
    by (rewrite <- !app_assoc, app_nil_r; reflexivity).
  rewrite str_mod_plain.
  - rewrite app_nil_r, <- !app_assoc. reflexivity.
  - repeat (apply no_percent_app; [first [assumption|literal_no_percent]|]).
    literal_no_percent.
  - constructor.
Qed.

Lemma files_hold_bytes_same (st st' : state) :
  files st' = files st -> files_hold_bytes st -> files_hold_bytes st'.
Proof. unfold files_hold_bytes. intros ->. auto. Qed.

Lemma files_hold_bytes_insert (st st' : state) (f : pystr) (raw : pybytes)
  (fs : gmap pystr pybytes) :
  (forall name content, fs !! name = Some content -> Forall is_byte content) ->
  Forall is_byte raw ->
  forall name content,
    <[f := raw]> fs !! name = Some content -> Forall is_byte content.
Proof.
  intros Hfs Hraw name content. rewrite lookup_insert.
  destruct (decide (f = name)); [intros [= <-]; exact Hraw|apply Hfs].
Qed.

Lemma decoded_bytes (v : pyval) (raw : pybytes) :
  decoded v = Ok raw -> Forall is_byte raw.
Proof. destruct v as [s|]; [apply b64decode_bytes|discriminate]. Qed.

(** A store command with fields free of percent signs ends normally, on
    any drive. *)
Lemma store_runs (hw : board) (name m p : pystr) (st : state) :
  no_percent m -> no_percent p -> files_hold_bytes st ->
  exists st',
    handle_store_command hw name (Some m) (Some p) st = (Ok tt, st')
    /\ files_hold_bytes st'.
Proof.
  intros Hm Hp Hfs.
  pose proof (store_files hw name (Some m) (Some p) st) as Hfiles.
  assert (Hrun : exists st', handle_store_command hw name (Some m) (Some p) st
                             = (Ok tt, st')).
  { rewrite handle_store_command_blocks.
    unfold bind, log, modify, try_except, try_step. cbn [DEBUG].
    rewrite store_block_cases. cbn [fs_readonly files set_console].
    assert (Hfail : forall e s,
               exists st', store_failed hw (Some m) (Some p) e s = (Ok tt, st')).
    { intros e s. unfold store_failed, bind, lift. cbn [as_str obind].
      rewrite store_failed_message by (apply no_percent_trunc; assumption).
      eexists. reflexivity. }
    destruct (fs_readonly st); [cbn [is_Exception exn_cls]; apply Hfail|].
    destruct (decoded (Some m)) as [mraw|e] eqn:Hdm.
    - destruct (decoded (Some p)) as [praw|e] eqn:Hdp;
        [eexists; reflexivity|].
      rewrite (decoded_raises _ _ Hdp). apply Hfail.
    - rewrite (decoded_raises _ _ Hdm). apply Hfail. }
  destruct Hrun as (st' & Hrun). rewrite Hrun in Hfiles. cbn [snd] in Hfiles.
  exists st'. split; [exact Hrun|]. unfold files_hold_bytes. rewrite Hfiles.
  destruct (fs_readonly st); [exact Hfs|].
  destruct (decoded (Some m)) as [mraw|e] eqn:Hdm.
  - apply decoded_bytes in Hdm.
    destruct (decoded (Some p)) as [praw|e'] eqn:Hdp.
    + apply decoded_bytes in Hdp.
      apply (files_hold_bytes_insert st st); [|exact Hdp].
      apply (files_hold_bytes_insert st st); [exact Hfs|exact Hdm].
    + apply (files_hold_bytes_insert st st); [|constructor].
      apply (files_hold_bytes_insert st st); [exact Hfs|exact Hdm].
  - apply (files_hold_bytes_insert st st); [exact Hfs|constructor].
Qed.

(** A preview command with a payload free of percent signs ends
    normally. *)
Lemma preview_runs (hw : board) (p : pystr) (st : state) :
  no_percent p ->
  exists st',
    handle_command_preview hw (Some p) st = (Ok tt, st') /\ files st' = files st.
Proof.
  intros Hp.
  assert (Hf : untouched files st (snd (handle_command_preview hw (Some p) st))).
  { apply respects_handle_command_preview; try apply _; intros; reflexivity. }
  destruct (decode_payload hw p) as [[bm pal]|e] eqn:Hd.
  - assert (Hpv : handle_command_preview hw (Some p) st
                  = (Ok tt,
                     set_should_refresh true
                       (set_root_group (Group [(bm, pal)])
                          (logged (py "Previewing image" ++ ELLIPSIS) st)))).
    { unfold handle_command_preview, bind, try_except, try_step, lift, log,
        modify, show_bitmap. cbn [DEBUG as_str obind]. rewrite Hd. reflexivity. }
    rewrite Hpv. eexists. split; reflexivity.
  - destruct (preview_failure_logged hw p e st Hd (no_percent_trunc p Hp))
      as (st' & Hrun & _).
    rewrite Hrun in Hf |- *. exists st'. split; [reflexivity|exact Hf].
Qed.

Lemma str_in_COMMANDS (name : pystr) :
  str_in name COMMANDS = true -> In name COMMANDS.
Proof.
  unfold str_in. intros H. apply existsb_exists in H as (x & Hx & Heq).
  apply str_eqb_eq in Heq. subst x. exact Hx.
Qed.

(** Every command but [exit] and [reload], with fields free of percent
    signs, is handled without an exception; the drive keeps holding
    bytes. *)
Lemma dispatch_runs (hw : board) (name m p : pystr) (st : state) :
  name <> py "exit" -> name <> py "reload" ->
  no_percent m -> no_percent p -> files_hold_bytes st ->
  exists st',
    dispatch hw name (Some m) (Some p) st = (Ok tt, st') /\ files_hold_bytes st'.
Proof.
  intros Hexit Hreload Hm Hp Hfs.
  destruct (str_in name COMMANDS) eqn:Hin.
  2:{ unfold dispatch. rewrite Hin. cbn [negb]. unfold bind, lift, str_mod.
      change (py "Unknown command '%s'")
        with (py "Unknown command '" ++ py "%s" ++ py "'").
      rewrite str_mod_plain by literal_no_percent.
      eexists. split; [reflexivity|]. exact Hfs. }
  apply str_in_COMMANDS in Hin.
  assert (Hshow : forall page,
             exists st', handle_show_command hw page st = (Ok tt, st')
                         /\ files_hold_bytes st').
  { intros page. rewrite (handle_show_command_cases hw page st Hfs).
    eexists. split; [reflexivity|].
    eapply files_hold_bytes_same; [|exact Hfs]. cbv zeta.
    destruct (files st !! meta_file page); [|reflexivity].
    destruct (files st !! payload_file page); [|reflexivity].
    destruct (decode_payload hw _) as [[bm pal]|e]; reflexivity. }
  assert (Hstore : forall page,
             exists st', handle_store_command hw page (Some m) (Some p) st
                         = (Ok tt, st')
                         /\ files_hold_bytes st')
    by (intros page; apply store_runs; assumption).
  cbn [COMMANDS map In] in Hin.
  repeat (destruct Hin as [<-|Hin]); try contradiction.
  - eexists. split; [reflexivity|exact Hfs].
  - eexists. split; [reflexivity|exact Hfs].
  - destruct (preview_runs hw p st Hp) as (st' & Hr & Hf).
    exists st'. split; [exact Hr|]. eapply files_hold_bytes_same; eassumption.
  - eexists. split; [reflexivity|exact Hfs].
  - apply (Hstore (py "a")).
  - apply (Hstore (py "b")).
  - apply (Hstore (py "c")).
  - apply (Hstore (py "up")).
  - apply (Hstore (py "down")).
  - apply (Hshow (py "a")).
  - apply (Hshow (py "b")).
  - apply (Hshow (py "c")).
  - apply (Hshow (py "up")).
  - apply (Hshow (py "down")).
Qed.

(** Nothing in this pass stops the loop: the display works, and what is
    read, if anything, has no percent sign, neither in the line nor in
    the fields it decodes to, and is neither [exit] nor [reload]. *)
Definition benign (hw : board) (inp : tick_input) : Prop :=
  refresh_error inp = None
  /\ match line_of inp with
     | None => True
     | Some line =>
         no_percent line
         /\ forall st name metadata payload,
             fst (parse_command hw (Some line) st)
             = Ok [Some name; Some metadata; Some payload] ->
             name <> py "exit" /\ name <> py "reload"
             /\ no_percent metadata /\ no_percent payload
     end.

Lemma handle_commands_runs (hw : board) (inp : tick_input) (st : state) :
  benign hw inp -> files_hold_bytes st ->
  exists st',
    handle_commands hw inp st = (Ok tt, st') /\ files_hold_bytes st'.
Proof.
  intros [_ Hline] Hfs. rewrite handle_commands_dispatch. unfold bind at 1 2.
  destruct (line_of inp) as [line|] eqn:Hl.
  - destruct Hline as [Hnp Hfields].
    rewrite (read_command_line inp line st Hl).
    assert (Kp : untouched files st (snd (parse_command hw (Some line) st))).
    { apply respects_parse_command; try apply _; intros; reflexivity. }
    specialize (Hfields st).
    destruct (parse_command_total hw line st Hnp) as (r & st2 & Hp & Hshape).
    rewrite Hp in Kp, Hfields |- *. cbn [snd fst] in Kp, Hfields.
    assert (Hfs2 : files_hold_bytes st2)
      by (eapply files_hold_bytes_same; eassumption).
    destruct Hshape as [->|(a & b & c & ->)].
    + exists st2. split; [reflexivity|exact Hfs2].
    + destruct (Hfields a b c eq_refl) as (He & Hr & Hb & Hc).
      apply dispatch_runs; assumption.
  - assert (Kr : untouched files st (snd (read_command inp st))).
    { apply respects_read_command; try apply _; intros; reflexivity. }
    destruct (read_command_ok inp st) as (st1 & Hr & _).
    rewrite Hr in Kr |- *. rewrite Hl. exists st1.
    split; [reflexivity|]. eapply files_hold_bytes_same; eassumption.
Qed.

Lemma tick_runs (hw : board) (inp : tick_input) (st : state) :
  benign hw inp -> files_hold_bytes st ->
  exists st', tick hw inp st = (Ok tt, st') /\ files_hold_bytes st'.
Proof.
  intros Hb Hfs. rewrite tick_steps. cbv zeta.
  assert (K1 : untouched files st (snd (log_keep_alive hw inp st))).
  { apply respects_log_keep_alive; try apply _; intros; reflexivity. }
  set (st2 := set_led_value _ _).
  assert (Hfs2 : files_hold_bytes st2)
    by (eapply files_hold_bytes_same; [exact K1|exact Hfs]).
  destruct (handle_commands_runs hw inp st2 Hb Hfs2) as (st3 & -> & Hfs3).
  unfold bind. rewrite refresh_if_needed_cases. destruct Hb as [-> _].
  destruct (_ && _); eexists; (split; [reflexivity|]);
    (eapply files_hold_bytes_same; [|exact Hfs3]); reflexivity.
Qed.

(** The loop keeps running: as long as the display works and what
    arrives is free of percent signs (the line and the fields it decodes
    to) and is neither [exit] nor [reload], every pass ends normally,
    whatever else arrives: garbled lines, unknown commands, images that
    do not decode, slots that are empty, a write-protected drive. *)
Theorem loop_keeps_running (hw : board) (inps : list tick_input) (st : state) :
  files_hold_bytes st -> Forall (benign hw) inps ->
  exists st',
    main_loop hw inps st = (Ok tt, st')
    /\ iteration st' = iteration st + len inps
    /\ files_hold_bytes st'.
Proof.
  intros Hfs Hall. revert st Hfs.
  induction Hall as [|inp rest Hinp _ IH]; intros st Hfs.
  - exists st. split; [reflexivity|]. split; [|exact Hfs].
    unfold len. cbn [length]. lia.
  - destruct (tick_runs hw inp st Hinp Hfs) as (st1 & Ht & Hfs1).
    destruct (IH st1 Hfs1) as (st' & Hrun & Hi & Hfs').
    exists st'. cbn [main_loop]. unfold bind. rewrite Ht.
    split; [exact Hrun|]. split; [|exact Hfs'].
    pose proof (tick_counter hw inp st) as Hc. rewrite Ht in Hc.
    cbn [fst snd] in Hc. unfold len in *. cbn [length]. lia.
Qed.

Lemma benign_quiet (hw : board) : benign hw quiet.
Proof. split; [reflexivity|exact I]. Qed.

Lemma benign_debug (hw : board) (line : pystr) (name m p : pystr) :
  line_of (receiving line) = Some line ->
  no_percent line ->
  startswith line (py "debug:") = true ->
  (let parts := split 58 (replace line (py "debug:") []) in
   if len parts =? 3 then map (fun p => Some (strip p)) parts
   else COMMAND_NONE) = [Some name; Some m; Some p] ->
  name <> py "exit" -> name <> py "reload" ->
  benign hw (receiving line).
Proof.
  intros Hl Hnp Hs Hparts He Hr. split; [reflexivity|]. rewrite Hl.
  split; [exact Hnp|]. intros st name' m' p' Hparse.
  rewrite parse_command_debug, Hparts in Hparse by exact Hs.
  injection Hparse as <- <- <-.
  assert (Hsub : forall s, no_percent s -> no_percent (strip s)).
  { intros s H. destruct (strip_split s) as (w1 & w2 & _ & _ & Heq).
    rewrite Heq in H. apply Forall_app in H as [_ H].
    apply Forall_app in H as [H _]. exact H. }
  split; [exact He|]. split; [exact Hr|].
  cbv zeta in Hparts.
  destruct (len _ =? 3) eqn:Hlen; [|discriminate].
  apply three_parts in Hlen as (a & b & c & Hp3). rewrite Hp3 in Hparts.
  injection Hparts as _ <- <-.
  assert (Hall : Forall no_percent (split 58 (replace line (py "debug:") []))).
  { clear -Hnp.
    assert (Hrep : no_percent (replace line (py "debug:") [])).
    { change (replace line (py "debug:") [])
        with (replace_go (py "debug:") [] 0 line).
      generalize 0%nat.
      induction Hnp as [|c l Hc _ IH]; intros k; [constructor|].
      cbn [replace_go]. destruct k; [|apply IH].
      destruct (is_prefix _ _); [apply IH|constructor; [exact Hc|apply IH]]. }
    revert Hrep. generalize (replace line (py "debug:") []). intros s Hs'.
    induction Hs' as [|c l Hc _ IH].
    - apply List.Forall_cons; [apply List.Forall_nil|apply List.Forall_nil].
    - cbn [split]. destruct (c =? 58).
      + apply List.Forall_cons; [apply List.Forall_nil|exact IH].
      + destruct (split 58 l) as [|q qs].
        * apply List.Forall_cons; [|apply List.Forall_nil].
          apply List.Forall_cons; [exact Hc|apply List.Forall_nil].
        * inversion_clear IH as [|? ? Hq Hqs].
          apply List.Forall_cons; [|exact Hqs].
          apply List.Forall_cons; assumption. }
  rewrite Hp3 in Hall. inversion_clear Hall as [|? ? _ Hbc].
  inversion_clear Hbc as [|? ? Hb Hc]. inversion_clear Hc as [|? ? Hc' _].
  split; apply Hsub; assumption.
Qed.

Lemma loop_keeps_running_witness :
  exists st',
    main_loop pocket
      [quiet; receiving (py "debug:show-a::");
       receiving (py "debug:store-a:aGkh:eNpbyv+fAQAEwwG0");
       receiving (py "debug:show-a::"); receiving (py "debug:fly::");
       receiving (py "debug:preview::eJw=")]
      power_on
    = (Ok tt, st')
    /\ iteration st' = iteration power_on + 6
    /\ files_hold_bytes st'.
Proof.
  apply (loop_keeps_running pocket
           [quiet; receiving (py "debug:show-a::");
            receiving (py "debug:store-a:aGkh:eNpbyv+fAQAEwwG0");
            receiving (py "debug:show-a::"); receiving (py "debug:fly::");
            receiving (py "debug:preview::eJw=")]
           power_on).
  - apply power_on_files_hold_bytes.
  - repeat (apply List.Forall_cons;
            [first [apply benign_quiet
                   |eapply benign_debug;
                    [reflexivity|literal_no_percent|reflexivity
                    |vm_compute; reflexivity|discriminate|discriminate]]|]).
    apply List.Forall_nil.
Defined.

(** ** Debug lines *)

(** [s] does not end with [suffix]. *)
Definition not_ending (suffix s : pystr) : Prop :=
  forall t, s <> t ++ suffix.

(** Where [old] does not occur, [replace] changes nothing. *)
Lemma replace_absent (old new s : pystr) :
  old <> [] -> (forall pre post, s <> pre ++ old ++ post) ->
  replace s old new = s.
Proof.
  intros Hne Habs. unfold replace. destruct old as [|o old']; [congruence|].
  induction s as [|c s IH]; [reflexivity|].
  cbn [replace_go].
  destruct (is_prefix (o :: old') (c :: s)) eqn:Hp.
  - apply is_prefix_spec in Hp as [t Ht]. exfalso.
    apply (Habs [] t). exact Ht.
  - f_equal. apply IH. intros pre post Hs. apply (Habs (c :: pre) post).
    rewrite Hs. reflexivity.
Qed.

(** Where the first colon of a text is. *)
Lemma first_colon (a b x y : pystr) :
  no_colon a -> a ++ 58 :: b = x ++ 58 :: y ->
  (x = a /\ y = b) \/ exists x', x = a ++ 58 :: x' /\ b = x' ++ 58 :: y.
Proof.
  intros Ha. revert x. induction Ha as [|c a Hc _ IH]; intros x Heq.
  - destruct x as [|d x]; cbn in Heq.
    + injection Heq as <-. left. auto.
    + injection Heq as <- ->. right. exists x. auto.
  - destruct x as [|d x]; cbn in Heq.
    + injection Heq as Hd _. congruence.
    + injection Heq as <- Heq. destruct (IH x Heq) as [[-> ->]|(x' & -> & ->)].
      * left. auto.
      * right. exists x'. auto.
Qed.

(** A text without a colon that ends [u ++ ":" ++ m] ends [m]. *)
Lemma suffix_after_colon (pre d u m : pystr) :
  no_colon d -> pre ++ d = u ++ 58 :: m -> exists t, m = t ++ d.
Proof.
  intros Hd Heq.
  change (u ++ 58 :: m) with (u ++ [58] ++ m) in Heq.
  rewrite app_assoc in Heq.
  apply List.app_eq_app in Heq as (l & [[-> ->]|[Hu ->]]).
  - exists l. reflexivity.
  - destruct l as [|c l] using rev_ind; [exists []; reflexivity|].
    exfalso. clear IHl. rewrite app_assoc in Hu.
    apply app_inj_tail in Hu as [_ <-].
    apply Forall_app in Hd as [Hd _]. apply Forall_app in Hd as [_ Hd].
    inversion_clear Hd as [|? ? H58 _]. congruence.
Qed.

Lemma debug_marker_absent (name m p : pystr) :
  no_colon name -> no_colon m -> no_colon p ->
  not_ending (py "debug") name -> not_ending (py "debug") m ->
  forall pre post,
    name ++ py ":" ++ m ++ py ":" ++ p <> pre ++ py "debug:" ++ post.
Proof.
  intros Hn Hm Hp Hen Hem pre post Heq.
  assert (Hd : no_colon (py "debug")) by (repeat constructor; discriminate).
  assert (Heq' : name ++ 58 :: (m ++ 58 :: p)
                 = (pre ++ py "debug") ++ 58 :: post).
  { rewrite <- app_assoc. exact Heq. }
  clear Heq.
  apply (first_colon _ _ _ _ Hn) in Heq' as [[Hx _]|(x' & Hx & Hrest)].
  - apply (Hen pre). symmetry. exact Hx.
  - apply (first_colon _ _ _ _ Hm) in Hrest as [[-> _]|(x'' & _ & Hp')].
    + apply (suffix_after_colon _ _ _ _ Hd) in Hx as [t Ht].
      apply (Hem t). exact Ht.
    + rewrite Hp' in Hp. apply Forall_app in Hp as [_ Hp].
      inversion_clear Hp as [|? ? H58 _]. congruence.
Qed.

(** In diagnostic mode, the line ["debug:"] followed by three fields
    separated by colons is decoded to the three fields, each with the
    whitespace around it removed, without an exception and without a
    line on the console: provided no field contains a colon, and neither
    the name nor the metadata end with the word [debug] (which, followed
    by the separator, would read as another marker and be removed). *)
Theorem debug_line_fields (hw : board) (name m p : pystr) (st : state) :
  no_colon name -> no_colon m -> no_colon p ->
  not_ending (py "debug") name -> not_ending (py "debug") m ->
  parse_command hw (Some (py "debug:" ++ name ++ py ":" ++ m ++ py ":" ++ p)) st
  = (Ok [Some (strip name); Some (strip m); Some (strip p)], st).
Proof.
  intros Hn Hm Hp Hen Hem. unfold parse_command.
  assert (Hs : startswith (py "debug:" ++ name ++ py ":" ++ m ++ py ":" ++ p)
                 (py "debug:") = true) by apply is_prefix_app.
  rewrite Hs. cbn [DEBUG andb]. cbv zeta.
  assert (Hrep : replace (py "debug:" ++ name ++ py ":" ++ m ++ py ":" ++ p)
                   (py "debug:") []
                 = name ++ py ":" ++ m ++ py ":" ++ p).
  { change (py "debug:" ++ name ++ py ":" ++ m ++ py ":" ++ p)
      with ([] ++ py "debug:" ++ name ++ py ":" ++ m ++ py ":" ++ p).
    rewrite (replace_occurrence (py "debug:") [] []
               (name ++ py ":" ++ m ++ py ":" ++ p))
      by (exact debug_marker_unbordered || discriminate).
    rewrite (replace_absent (py "debug:") []
               (name ++ py ":" ++ m ++ py ":" ++ p)).
    - reflexivity.
    - discriminate.
    - apply debug_marker_absent; assumption. }
  rewrite Hrep, split_three by assumption. reflexivity.
Qed.

Lemma debug_line_fields_witness :
  parse_command badge (Some (py "debug:" ++ py "store-a" ++ py ":"
                             ++ py " on " ++ py ":" ++ py "eJw=")) power_on
  = (Ok [Some (py "store-a"); Some (py "on"); Some (py "eJw=")], power_on).
Proof.
  apply (debug_line_fields badge (py "store-a") (py " on ") (py "eJw=") power_on).
  - repeat (apply List.Forall_cons; [discriminate|]). apply List.Forall_nil.
  - repeat (apply List.Forall_cons; [discriminate|]). apply List.Forall_nil.
  - repeat (apply List.Forall_cons; [discriminate|]). apply List.Forall_nil.
  - intros t H. apply (f_equal (@rev Z)) in H. rewrite rev_app_distr in H.
    vm_compute in H. discriminate.
  - intros t H. apply (f_equal (@rev Z)) in H. rewrite rev_app_distr in H.
    vm_compute in H. discriminate.
Defined.
